(** * AgentFlow orchestration core: a shallow embedding and its properties

    The development follows the Python sources of the backend:

    - [Py]       the string primitives of Python that the code relies on
                 ([str.strip], [str.lower], [str.upper], [str.split]);
    - [Router]   [services/router.py]: the three regular expressions, the
                 delegation scan, the tag stripper and the address resolver;
    - [DbTools]  [services/db_tools.py]: the read-only guard of [_run_query];
    - [Llm]      [services/llm.py]: the provider factory and its cache;
    - [Runtime]  the session, the provider cache, the queue and the hub,
                 threaded through a state and exception monad;
    - [Invoker]  [services/invoker.py]: conversations and the tool-use loop;
    - [LQueue]   [lqueue.py]: the task executor [TaskQueue._process];
    - [Worker]   [lqueue.py]: the loop of [TaskQueue._worker];
    - [Groups]   [routers/groups.py]: the table of the WhatsApp groups;
    - [Messages] [routers/messages.py]: the entry point of the bridge;
    - [Teams]    [routers/teams.py]: the members of a team;
    - [RepoLoader] [services/repo_loader.py]: the repository context.

    The vocabulary of the properties and small installations follow the
    embedding; the lemmas and the theorems come last.

    Text is modelled by Rocq strings, one [ascii] per character.  The
    character classes and the case maps are those of Python on 7-bit ASCII;
    characters above 127 are kept as they are and are never white space. *)

From Stdlib Require Import Ascii String.
From stdpp Require Import base decidable option list strings pretty gmap sorting.

(* ================================================================== *)
(** * Python string primitives *)
(* ================================================================== *)

Module Py.
#[local] Open Scope char_scope.

(** [str.isspace] on one character, which is also the class [\s] of the
    [re] module for [str] patterns: TAB, LF, VT, FF, CR, the four
    separators FS, GS, RS, US and the blank. *)
Definition isspace (c : ascii) : bool :=
  match c with
  | "009" | "010" | "011" | "012" | "013"
  | "028" | "029" | "030" | "031" | " " => true
  | _ => false
  end.

Definition lower_char (c : ascii) : ascii :=
  let n := nat_of_ascii c in
  if (65 <=? n)%nat && (n <=? 90)%nat then ascii_of_nat (n + 32) else c.

Definition upper_char (c : ascii) : ascii :=
  let n := nat_of_ascii c in
  if (97 <=? n)%nat && (n <=? 122)%nat then ascii_of_nat (n - 32) else c.

Fixpoint map_chars (f : ascii -> ascii) (s : string) : string :=
  match s with
  | EmptyString => EmptyString
  | String c s' => String (f c) (map_chars f s')
  end.

(** [s.lower()] and [s.upper()] *)
Definition lower : string -> string := map_chars lower_char.
Definition upper : string -> string := map_chars upper_char.

(** [s.lstrip()] *)
Fixpoint lstrip (s : string) : string :=
  match s with
  | EmptyString => EmptyString
  | String c s' => if isspace c then lstrip s' else s
  end.

(** [s.rstrip()]: a character is dropped when it is white space and
    nothing survives to its right. *)
Fixpoint rstrip (s : string) : string :=
  match s with
  | EmptyString => EmptyString
  | String c s' =>
      match rstrip s' with
      | EmptyString => if isspace c then EmptyString else String c EmptyString
      | r => String c r
      end
  end.

(** [s.strip()] *)
Definition strip (s : string) : string := rstrip (lstrip s).

(** [s.startswith(p)] *)
Fixpoint startswith (p s : string) : bool :=
  match p, s with
  | EmptyString, _ => true
  | String a p', String b s' => if Ascii.eqb a b then startswith p' s' else false
  | String _ _, EmptyString => false
  end.

(** [s.split(sep)] for a one-character separator: always at least one
    field, empty fields are kept. *)
Fixpoint split_on (sep : ascii) (s : string) : list string :=
  match s with
  | EmptyString => [EmptyString]
  | String c s' =>
      if Ascii.eqb c sep then EmptyString :: split_on sep s'
      else match split_on sep s' with
           | w :: ws => String c w :: ws
           | [] => [String c EmptyString]
           end
  end.

(** [s.split()]: the maximal runs of characters that are not white
    space, in order; no empty word. *)
Fixpoint split_ws (s : string) : list string :=
  match s with
  | EmptyString => []
  | String c s' =>
      if isspace c then split_ws s'
      else match s' with
           | EmptyString => [String c EmptyString]
           | String d _ =>
               if isspace d then String c EmptyString :: split_ws s'
               else match split_ws s' with
                    | w :: ws => String c w :: ws
                    | [] => [String c EmptyString]
                    end
           end
  end.

(** Truth value of a string: [if s] holds for the non-empty ones. *)
Definition truthy (s : string) : bool :=
  match s with EmptyString => false | String _ _ => true end.

(** Truth value of an optional string ([None] and [""] are false). *)
Definition truthy_opt (o : option string) : bool :=
  match o with Some s => truthy s | None => false end.

(** [a or b] on an optional and a plain string. *)
Definition or_else (o : option string) (d : string) : string :=
  match o with
  | Some (String c s) => String c s
  | _ => d
  end.

End Py.

(* ================================================================== *)
(** * models.py, resource_model.py: the stored records *)
(* ================================================================== *)

Module Agent.
Record t := mk {
  id : string;
  name : string;
  provider : option string;      (* anthropic | openai | google *)
  model : string;
  soul : option string;
  team_id : option string
}.
End Agent.

Module Team.
Record t := mk {
  id : string;
  name : string;
  leader_agent_id : option string
}.
End Team.

Module Conversation.
Record t := mk {
  id : string;
  agent_id : string;
  sender_id : string;
  sender_name : option string;
  channel : string
}.
End Conversation.

Module Message.
Record t := mk {
  id : string;
  conversation_id : string;
  role : string;                 (* "user" | "assistant" *)
  content : string
}.
End Message.

Module Task.
(** The column is a string with the comment
    [queued | processing | done | failed]. *)
Inductive status_t := queued | processing | done | failed.

#[global] Instance status_eq_dec : EqDecision status_t.
Proof. solve_decision. Defined.

Record t := mk {
  id : string;
  agent_id : string;
  sender_id : string;
  sender_name : option string;
  channel : string;
  raw_message : string;
  status : status_t;
  result : option string;
  error : option string;
  parent_task_id : option string
}.
End Task.

Module AgentResource.
Record t := mk {
  agent_id : string;
  name : string;
  kind : string;                 (* "repository" | "database" *)
  repo_path : option string;
  repo_globs : option (list string);
  db_url : option string;
  db_tables : option (list string)
}.
End AgentResource.

(** The tables a session reads and writes. *)
Record Db := mkDb {
  agents : list Agent.t;
  teams : list Team.t;
  conversations : list Conversation.t;
  messages : list Message.t;
  tasks : gmap string Task.t;      (* keyed by the primary key *)
  resources : list AgentResource.t
}.

(* ================================================================== *)
(** * services/router.py *)
(* ================================================================== *)

Module Router.
Import Py.
#[local] Open Scope char_scope.

(** ** The tag pattern

    [\[@(\S+?):\s*([\s\S]*?)\]] and its group-free twin
    [\[@\S+?:[\s\S]*?\]] are matched by a backtracking engine.  The
    functions below follow the engine: a lazy quantifier first tries the
    rest of the pattern and takes one more character only when that
    fails. *)

(** [[\s\S]*?\]] from the current position: the text up to the first
    closing bracket, and what follows the bracket. *)
Fixpoint until_close (s : string) : option (string * string) :=
  match s with
  | EmptyString => None
  | String c s' =>
      if Ascii.eqb c "]" then Some (EmptyString, s')
      else match until_close s' with
           | Some (body, rest) => Some (String c body, rest)
           | None => None
           end
  end.

(** [\s*] is greedy; handing a blank back to the lazy body cannot turn a
    failure into a success, since the closing bracket is not a blank. *)
Definition skip_blanks : string -> string := lstrip.

(** The lazy [\S+?] once its first character is taken, followed by the
    rest of the pattern [tail], which starts with the colon.  Returns the
    characters added to the group and the result of [tail]. *)
Fixpoint lazy_ids {A} (tail : string -> option A) (s : string)
  : option (string * A) :=
  match s with
  | EmptyString => None
  | String c s' =>
      match (if Ascii.eqb c ":" then tail s' else None) with
      | Some r => Some (EmptyString, r)
      | None =>
          if isspace c then None
          else match lazy_ids tail s' with
               | Some (ids, r) => Some (String c ids, r)
               | None => None
               end
      end
  end.

(** One attempt of a tag pattern at the start of [s]. *)
Definition match_open {A} (tail : string -> option A) (s : string)
  : option (string * A) :=
  match s with
  | String c0 (String c1 (String c s')) =>
      if Ascii.eqb c0 "[" && Ascii.eqb c1 "@" && negb (isspace c)
      then match lazy_ids tail s' with
           | Some (ids, r) => Some (String c ids, r)
           | None => None
           end
      else None
  | _ => None
  end.

(** A match of the pattern of [extract_teammate_mentions]. *)
Record TagMatch := mkTag {
  group1 : string;       (* the id list *)
  group2 : string;       (* the directed text *)
  after  : string        (* the text after the closing bracket *)
}.

Definition match_tag (s : string) : option TagMatch :=
  match match_open (fun t => until_close (skip_blanks t)) s with
  | Some (ids, (body, rest)) => Some (mkTag ids body rest)
  | None => None
  end.

(** A match of the pattern of [strip_teammate_tags]: only the text after
    the match matters. *)
Definition match_strip_tag (s : string) : option string :=
  match match_open until_close s with
  | Some (_, (_, rest)) => Some rest
  | None => None
  end.

(** [pattern.sub('', s)]: scan from left to right; a match is dropped and
    the scan resumes after it, any other character is copied.  Every
    match takes at least one character, so [String.length s] steps
    are enough. *)
Fixpoint sub_go (m : string -> option string) (fuel : nat) (s : string)
  : string :=
  match fuel with
  | O => s
  | S fuel' =>
      match s with
      | EmptyString => EmptyString
      | String c s' =>
          match m s with
          | Some rest => sub_go m fuel' rest
          | None => String c (sub_go m fuel' s')
          end
      end
  end.

Definition sub_tags (m : string -> option string) (s : string) : string :=
  sub_go m (String.length s) s.

(** [pattern.finditer(s)] *)
Fixpoint finditer_go (fuel : nat) (s : string) : list TagMatch :=
  match fuel with
  | O => []
  | S fuel' =>
      match s with
      | EmptyString => []
      | String _ s' =>
          match match_tag s with
          | Some t => t :: finditer_go fuel' (after t)
          | None => finditer_go fuel' s'
          end
      end
  end.

Definition finditer (s : string) : list TagMatch :=
  finditer_go (String.length s) s.

(** [pattern.search(s)] for the pattern of [strip_teammate_tags]: does
    the text hold a directive tag? *)
Fixpoint has_tag (s : string) : bool :=
  match s with
  | EmptyString => false
  | String _ s' =>
      match match_strip_tag s with
      | Some _ => true
      | None => has_tag s'
      end
  end.

(** ** [strip_teammate_tags] *)
Definition strip_teammate_tags (response : string) : string :=
  strip (sub_tags match_strip_tag response).

(** ** [extract_teammate_mentions] *)

Record Mention := mkMention {
  agent_id : string;
  message  : string
}.

#[global] Instance Mention_eq_dec : EqDecision Mention.
Proof. solve_decision. Defined.

Definition directed_header : string :=
  String "010" (String "010" ("---" +:+
    String "010" ("Directed to you:" +:+ String "010" EmptyString))).

Definition full_msg (shared_context direct_msg : string) : string :=
  if truthy shared_context
  then shared_context +:+ directed_header +:+ direct_msg
  else direct_msg.

(** The body of the inner [for agent_id in raw_ids] loop; the state is
    the pair of [results] and [seen]. *)
Definition visit_id (current_agent_id : string) (team_agent_ids : list string)
    (msg : string) (st : list Mention * gset string) (raw : string)
  : list Mention * gset string :=
  let '(results, seen) := st in
  let a := strip raw in
  if truthy a
     && bool_decide (a ∉ seen)
     && bool_decide (a ≠ current_agent_id)
     && bool_decide (a ∈ team_agent_ids)
  then (results ++ [mkMention a msg], {[ a ]} ∪ seen)
  else st.

(** The body of the outer [for match in finditer] loop. *)
Definition visit_tag (current_agent_id : string) (team_agent_ids : list string)
    (shared_context : string) (st : list Mention * gset string) (t : TagMatch)
  : list Mention * gset string :=
  let raw_ids := split_on "," (lower (group1 t)) in
  let direct_msg := strip (group2 t) in
  foldl (visit_id current_agent_id team_agent_ids
           (full_msg shared_context direct_msg)) st raw_ids.

Definition shared_context_of (response : string) : string :=
  strip (sub_tags (fun s => after <$> match_tag s) response).

Definition extract_teammate_mentions (response current_agent_id : string)
    (team_agent_ids : list string) : list Mention :=
  fst (foldl (visit_tag current_agent_id team_agent_ids
                (shared_context_of response))
         ([], ∅) (finditer response)).


(** ** [resolve_agent_for_message] *)

(** The maximal run of characters that satisfy [p], and what follows. *)
Fixpoint span (p : ascii -> bool) (s : string) : string * string :=
  match s with
  | EmptyString => (EmptyString, EmptyString)
  | String c s' =>
      if p c then let '(run, rest) := span p s' in (String c run, rest)
      else (EmptyString, s)
  end.

(** [re.match] of the address pattern: a leading [@], the group [\S+],
    the blanks [\s+], and a last group that takes any characters up to
    the end of the text.  Both quantifiers are greedy.
    A shorter [\S+] would have to be followed by a blank, which the next
    character of the run is not; and once [\s+] has its blanks the last
    group takes everything to the end. *)
Definition match_address (s : string) : option (string * string) :=
  match s with
  | String c0 s1 =>
      let '(token, s2) := span (fun c => negb (isspace c)) s1 in
      let '(blanks, s3) := span isspace s2 in
      if Ascii.eqb c0 "@" && truthy token && truthy blanks
      then Some (token, s3) else None
  | EmptyString => None
  end.

(** [select(Agent).order_by(Agent.id)]: insertion sort on the id. *)
Fixpoint insert_by_id (a : Agent.t) (l : list Agent.t) : list Agent.t :=
  match l with
  | [] => [a]
  | b :: l' =>
      if String.leb (Agent.id a) (Agent.id b) then a :: l
      else b :: insert_by_id a l'
  end.

Definition order_by_id (l : list Agent.t) : list Agent.t :=
  foldr insert_by_id [] l.

(** The last four lines of the function: the default agent. *)
Definition default_agent (raw_message : string) (db : Db)
  : option string * string :=
  match head (order_by_id (agents db)) with
  | Some default => (Some (Agent.id default), strip raw_message)
  | None => (None, strip raw_message)
  end.

Definition agent_by_id (db : Db) (i : string) : option Agent.t :=
  List.find (fun a => String.eqb (Agent.id a) i) (agents db).

Definition team_by_id (db : Db) (i : string) : option Team.t :=
  List.find (fun t => String.eqb (Team.id t) i) (teams db).

Definition agent_by_name (db : Db) (candidate : string) : option Agent.t :=
  List.find (fun a => String.eqb (lower (Agent.name a)) candidate) (agents db).

Definition leader_of (team : option Team.t) : option string :=
  match team with
  | Some t => if truthy_opt (Team.leader_agent_id t)
              then Team.leader_agent_id t else None
  | None => None
  end.

Definition resolve_agent_for_message (raw_message : string) (db : Db)
  : option string * string :=
  match match_address (strip raw_message) with
  | Some (g1, message) =>
      let candidate := lower g1 in
      match agent_by_id db candidate with
      | Some agent => (Some (Agent.id agent), message)
      | None =>
          match leader_of (team_by_id db candidate) with
          | Some leader => (Some leader, message)
          | None =>
              match agent_by_name db candidate with
              | Some a => (Some (Agent.id a), message)
              | None => default_agent raw_message db
              end
          end
      end
  | None => default_agent raw_message db
  end.

End Router.

(* ================================================================== *)
(** * Calls that return or raise *)
(* ================================================================== *)

(** The result of a Python call: a value, or an exception with the text
    that [str(e)] gives. *)
Inductive outcome (A : Type) : Type :=
  | Returned (a : A)
  | Raised (e : string).
Arguments Returned {A} a.
Arguments Raised {A} e.

(** What a tool hands back to the model.  The code serialises these with
    [json.dumps]; the embedding keeps the structure. *)
Inductive ToolReply :=
  | JsonError (msg : string)              (* {"error": msg} *)
  | BlockedKeywords (found : gset string) (* {"error": "Blocked keyword(s): .."} *)
  | JsonRows (payload : string)           (* {"columns": .., "rows": .., "count": ..} *)
  | SchemaText (text : string).

(* ================================================================== *)
(** * services/db_tools.py *)
(* ================================================================== *)

Module DbTools.
Import Py.

Record ToolDef := mkToolDef {
  tool_name : string;
  description : string
}.

Definition join_comma (l : list string) : string :=
  String.concat ", " l.

Definition build_db_tools (allowed_tables : list string) : list ToolDef :=
  let table_hint :=
    match allowed_tables with
    | [] => "All tables in the database are accessible. "
    | _ => "Allowed tables: " +:+ join_comma allowed_tables +:+ ". "
    end in
  [ mkToolDef "list_tables"
      ("List all available database tables and their column schemas. " +:+
       "Call this first if you need to understand the database structure before querying.");
    mkToolDef "query_database"
      ("Execute a SQL SELECT query against the database and return the results. " +:+
       table_hint +:+
       "Only SELECT statements are allowed. Never use INSERT, UPDATE, DELETE, DROP.") ].

(** The set [blocked] of [_run_query]. *)
Definition blocked : gset string :=
  list_to_set ["INSERT"; "UPDATE"; "DELETE"; "DROP";
               "ALTER"; "CREATE"; "TRUNCATE"; "REPLACE"].

(** The database engine, outside the program: [engine_run db_url sql] is
    what connecting and executing [text(sql)] gives, an exception of the
    execution itself being turned into a JSON error by the [except]
    clause; [Raised] stands for a failure of [create_engine].
    [engine_schema] is [_get_schema]. *)
Record Engine := mkEngine {
  engine_run : string -> string -> outcome ToolReply;
  engine_schema : string -> list string -> outcome string
}.

(** [_run_query].  The second component lists the statements that passed
    the guard: for these the code goes on to [create_engine(db_url)] and,
    when that succeeds, to [conn.execute(text(sql))]. *)
Definition _run_query (eng : Engine) (db_url sql : string)
    (allowed_tables : list string) : outcome ToolReply * list string :=
  let normalized := upper (strip sql) in
  if negb (startswith "SELECT" normalized)
  then (Returned (JsonError "Only SELECT statements are allowed."), [])
  else
    let words : gset string := list_to_set (split_ws normalized) in
    let blocked_found := words ∩ blocked in
    if bool_decide (blocked_found ≠ ∅)
    then (Returned (BlockedKeywords blocked_found), [])
    else (engine_run eng db_url sql, [sql]).

(** [execute_db_tool]; [tool_input] is the argument dictionary. *)
Definition execute_db_tool (eng : Engine) (tool_name : string)
    (tool_input : gmap string string) (db_url : string)
    (allowed_tables : list string) : outcome ToolReply * list string :=
  if String.eqb tool_name "list_tables" then
    (match engine_schema eng db_url allowed_tables with
     | Returned t => Returned (SchemaText t)
     | Raised e => Raised e
     end, [])
  else if String.eqb tool_name "query_database" then
    let sql := default "" (tool_input !! "sql") in
    _run_query eng db_url sql allowed_tables
  else (Returned (JsonError ("Unknown tool: " +:+ tool_name)), []).

End DbTools.

(* ================================================================== *)
(** * services/llm.py *)
(* ================================================================== *)

Module Llm.

Record ToolCall := mkToolCall {
  call_id : string;
  name : string;
  arguments : gmap string string
}.

Record CompletionResult := mkCompletion {
  text : string;
  tool_calls : list ToolCall
}.

(** The three subclasses of [LLMProvider]. *)
Inductive LLMProvider := AnthropicProvider | OpenAIProvider | GoogleProvider.

#[global] Instance LLMProvider_eq_dec : EqDecision LLMProvider.
Proof. solve_decision. Defined.

Definition unknown_provider (provider_name : string) : string :=
  "Unknown provider: '" +:+ provider_name +:+
  "'. Use anthropic, openai, or google.".

(** [get_provider], on the module-level cache [_providers]: the result
    and the cache after the call.  [Raised] is the [ValueError]. *)
Definition get_provider (provider_name : string)
    (_providers : gmap string LLMProvider)
  : outcome LLMProvider * gmap string LLMProvider :=
  match _providers !! provider_name with
  | Some p => (Returned p, _providers)
  | None =>
      if String.eqb provider_name "anthropic"
      then (Returned AnthropicProvider,
            <[provider_name := AnthropicProvider]> _providers)
      else if String.eqb provider_name "openai"
      then (Returned OpenAIProvider,
            <[provider_name := OpenAIProvider]> _providers)
      else if String.eqb provider_name "google"
      then (Returned GoogleProvider,
            <[provider_name := GoogleProvider]> _providers)
      else (Raised (unknown_provider provider_name), _providers)
  end.

(** An entry of the normalised [messages] list.  The vendor object kept
    in [result.raw] is represented by the completion it came with. *)
Inductive ChatMsg :=
  | Plain (role content : string)
  | AssistantRaw (raw : CompletionResult)
  | AssistantCalls (content : string) (calls : list ToolCall)
  | ToolResultBlocks (blocks : list (string * ToolReply))
  | ToolMsg (tool_call_id : string) (content : ToolReply).

Definition tool_result_blocks (calls : list ToolCall)
    (results : list ToolReply) : list (string * ToolReply) :=
  (fun '(tc, r) => (call_id tc, r)) <$> zip calls results.

Definition append_assistant_turn (p : LLMProvider) (messages : list ChatMsg)
    (result : CompletionResult) : list ChatMsg :=
  match p with
  | AnthropicProvider => messages ++ [AssistantRaw result]
  | OpenAIProvider =>
      messages ++ [AssistantCalls (text result) (tool_calls result)]
  | GoogleProvider => messages ++ [Plain "assistant" (text result)]
  end.

Definition append_tool_results (p : LLMProvider) (messages : list ChatMsg)
    (calls : list ToolCall) (results : list ToolReply) : list ChatMsg :=
  match p with
  | AnthropicProvider | GoogleProvider =>
      messages ++ [ToolResultBlocks (tool_result_blocks calls results)]
  | OpenAIProvider =>
      messages ++ ((fun '(tc, r) => ToolMsg (call_id tc) r) <$> zip calls results)
  end.

End Llm.

(* ================================================================== *)
(** * The running system: session, cache, queue, notifier *)
(* ================================================================== *)

Module Runtime.
Import Llm.

(** The dictionary that [enqueue] puts on the queue. *)
Record Item := mkItem {
  task_id : string;
  agent_id : string;
  sender_id : string;
  sender_name : option string;
  message : string;
  channel : string;
  parent_task_id : option string;
  group_id : option string
}.

(** What the hub broadcasts. *)
Inductive Event :=
  | TaskUpdate (task : option Task.t)
  | Log (level text : string).

(** The body of a POST to the bridge. *)
Record Delivery := mkDelivery {
  target_id : string;
  reply_text : string;
  reply_channel : string
}.

(** Everything outside the program.  Identifiers drawn from [uuid4] are
    taken to be new.  [complete] is the vendor call of the selected
    provider; its last argument is the number of completions requested
    so far. *)
Record Env := mkEnv {
  uuid4 : nat -> string;
  load_repository_context : string -> list string -> outcome string;
  engine : DbTools.Engine;
  complete : LLMProvider -> string -> string -> list ChatMsg ->
             list DbTools.ToolDef -> nat -> outcome CompletionResult;
  bridge_post : Delivery -> option string   (* [Some e]: the POST raised *)
}.

Record World := mkWorld {
  view : Db;                 (* the open session: stored and pending rows *)
  store : Db;                (* the rows as of the last commit *)
  commits : list Db;         (* every committed state, oldest first *)
  _providers : gmap string LLMProvider;
  uuids : nat;               (* identifiers drawn so far *)
  llm_calls : nat;           (* completions requested so far *)
  sql_log : list string;     (* statements that passed the guard of _run_query *)
  events : list Event;
  queue : list Item;
  sent : list Delivery
}.

Definition with_view (f : Db -> Db) (w : World) : World :=
  mkWorld (f (view w)) (store w) (commits w) (_providers w) (uuids w)
    (llm_calls w) (sql_log w) (events w) (queue w) (sent w).

(** * A state and exception monad *)
Definition M (A : Type) : Type := World -> outcome A * World.

Definition ret {A} (a : A) : M A := fun w => (Returned a, w).
Definition raise {A} (e : string) : M A := fun w => (Raised e, w).
Definition bind {A B} (c : M A) (k : A -> M B) : M B :=
  fun w => match c w with
           | (Returned a, w') => k a w'
           | (Raised e, w') => (Raised e, w')
           end.
(** [try: body except Exception as e: handler(e)]; the handler starts
    from the state the body left. *)
Definition try_except {A} (body : M A) (handler : string -> M A) : M A :=
  fun w => match body w with
           | (Returned a, w') => (Returned a, w')
           | (Raised e, w') => handler e w'
           end.
(** A [try] around one call, with the exception kept as a value. *)
Definition attempt {A} (c : M A) : M (outcome A) :=
  fun w => let '(r, w') := c w in (Returned r, w').
Definition gets {A} (f : World -> A) : M A := fun w => (Returned (f w), w).
Definition modify (f : World -> World) : M unit := fun w => (Returned tt, f w).

(** [await db.commit()] *)
Definition commit : M unit :=
  modify (fun w =>
    mkWorld (view w) (view w) (commits w ++ [view w]) (_providers w)
      (uuids w) (llm_calls w) (sql_log w) (events w) (queue w) (sent w)).

(** [async with AsyncSessionLocal() as db]: a new session sees the
    stored rows. *)
Definition open_session : M unit :=
  modify (fun w => with_view (fun _ => store w) w).

(** [str(uuid.uuid4())] *)
Definition new_uuid (E : Env) : M string :=
  fun w => (Returned (uuid4 E (uuids w)),
            mkWorld (view w) (store w) (commits w) (_providers w)
              (S (uuids w)) (llm_calls w) (sql_log w) (events w)
              (queue w) (sent w)).

(** [hub.broadcast]: a client that fails is dropped, nothing is raised. *)
Definition broadcast (ev : Event) : M unit :=
  modify (fun w =>
    mkWorld (view w) (store w) (commits w) (_providers w) (uuids w)
      (llm_calls w) (sql_log w) (events w ++ [ev]) (queue w) (sent w)).

Definition hub_log (level text : string) : M unit := broadcast (Log level text).

Definition put_queue (item : Item) : M unit :=
  modify (fun w =>
    mkWorld (view w) (store w) (commits w) (_providers w) (uuids w)
      (llm_calls w) (sql_log w) (events w) (queue w ++ [item]) (sent w)).

Definition record_sql (stmts : list string) : M unit :=
  modify (fun w =>
    mkWorld (view w) (store w) (commits w) (_providers w) (uuids w)
      (llm_calls w) (sql_log w ++ stmts) (events w) (queue w) (sent w)).

Definition record_sent (d : Delivery) : M unit :=
  modify (fun w =>
    mkWorld (view w) (store w) (commits w) (_providers w) (uuids w)
      (llm_calls w) (sql_log w) (events w) (queue w) (sent w ++ [d])).

End Runtime.

Notation "'let*' x ':=' c 'in' k" := (Runtime.bind c (fun x => k))
  (at level 10, x pattern, c at level 100, k at level 200, only parsing).
Notation "c ';;;' k" := (Runtime.bind c (fun _ => k))
  (at level 100, k at level 200, right associativity, only parsing).

(* ================================================================== *)
(** * services/invoker.py *)
(* ================================================================== *)

Module Invoker.
Import Py Llm DbTools Runtime.

Definition nl : string := String "010"%char EmptyString.

Definition DEFAULT_SOUL : string :=
  "You are a helpful AI assistant. You can be given a soul (personality, expertise, and worldview)"
  +:+ nl +:+
  "by the user who configured you. Until then, be helpful, concise, and clear."
  +:+ nl.

Definition MAX_HISTORY : nat := 50.
Definition MAX_ROUNDS : nat := 10.

Definition max_rounds_reply : string :=
  "[Max tool rounds reached without a final answer]".

Definition same_conversation (agent_id sender_id channel : string)
    (c : Conversation.t) : bool :=
  String.eqb (Conversation.agent_id c) agent_id
  && String.eqb (Conversation.sender_id c) sender_id
  && String.eqb (Conversation.channel c) channel.

Definition set_conversations (l : list Conversation.t) (d : Db) : Db :=
  mkDb (agents d) (teams d) l (messages d) (tasks d) (resources d).

Definition add_message (m : Message.t) (d : Db) : Db :=
  mkDb (agents d) (teams d) (conversations d) (messages d ++ [m])
    (tasks d) (resources d).

(** [get_or_create_conversation]; [scalar_one_or_none] raises when the
    query has more than one row. *)
Definition get_or_create_conversation (E : Env)
    (agent_id sender_id : string) (sender_name : option string)
    (channel : string) : M Conversation.t :=
  let same := same_conversation agent_id sender_id channel in
  let* rows := gets (fun w => List.filter same (conversations (view w))) in
  match rows with
  | [] =>
      let* i := new_uuid E in
      let conv := Conversation.mk i agent_id sender_id sender_name channel in
      modify (with_view (fun d =>
        set_conversations (conversations d ++ [conv]) d)) ;;;
      ret conv
  | [conv] =>
      if truthy_opt sender_name
         && negb (truthy_opt (Conversation.sender_name conv))
      then
        let conv' := Conversation.mk (Conversation.id conv)
                       (Conversation.agent_id conv)
                       (Conversation.sender_id conv) sender_name
                       (Conversation.channel conv) in
        modify (with_view (fun d =>
          set_conversations
            ((fun c => if same c then conv' else c) <$> conversations d) d)) ;;;
        ret conv'
      else ret conv
  | _ => raise "Multiple rows were found when one or none was required"
  end.

(** The history query: [order_by(created_at.desc()).limit(MAX_HISTORY)],
    then [reversed].  The rows of [Db] carry no [created_at]: the table
    is kept in creation order and the creation times of the messages of
    one conversation are taken to be distinct, so that the query gives
    the last [MAX_HISTORY] messages of the conversation, oldest first.
    The module [History] below has the query on rows with their creation
    time; for rows of equal time the source leaves the order to the
    database. *)
Definition load_history (conv : Conversation.t) : M (list Message.t) :=
  gets (fun w =>
    let all := List.filter
                 (fun m => String.eqb (Message.conversation_id m)
                                      (Conversation.id conv))
                 (messages (view w)) in
    drop (length all - MAX_HISTORY) all).

Definition _load_resources (agent_id : string) : M (list AgentResource.t) :=
  gets (fun w =>
    List.filter (fun r => String.eqb (AgentResource.agent_id r) agent_id)
      (resources (view w))).

Definition _build_repo_injection (E : Env) (rs : list AgentResource.t)
  : string :=
  let blocks :=
    omap (fun res =>
      if negb (String.eqb (AgentResource.kind res) "repository")
         || negb (truthy_opt (AgentResource.repo_path res))
      then None
      else
        Some ("## Resource: " +:+ AgentResource.name res +:+ nl +:+ nl +:+
              match load_repository_context E
                      (default "" (AgentResource.repo_path res))
                      (default [] (AgentResource.repo_globs res)) with
              | Returned ctx => ctx
              | Raised e => "[Error loading repository: " +:+ e +:+ "]"
              end)) rs in
  match blocks with
  | [] => ""
  | _ => nl +:+ nl +:+ String.concat (nl +:+ nl) blocks
  end.

(** [s.replace(" ", "_")] *)
Definition blanks_to_underscores : string -> string :=
  map_chars (fun c => if Ascii.eqb c " " then "_"%char else c).

Definition _collect_db_tools (rs : list AgentResource.t)
  : list ToolDef * gmap string (string * list string) :=
  foldl (fun '(tool_defs, dispatch) res =>
    if negb (String.eqb (AgentResource.kind res) "database")
       || negb (truthy_opt (AgentResource.db_url res))
    then (tool_defs, dispatch)
    else
      let url := default "" (AgentResource.db_url res) in
      let allowed := default [] (AgentResource.db_tables res) in
      let prefix := blanks_to_underscores (lower (AgentResource.name res)) in
      foldl (fun '(tool_defs, dispatch) tool =>
        let namespaced :=
          mkToolDef (prefix +:+ "__" +:+ tool_name tool)
            ("[" +:+ AgentResource.name res +:+ "] " +:+ description tool) in
        (tool_defs ++ [namespaced],
         <[tool_name namespaced := (url, allowed)]> dispatch))
        (tool_defs, dispatch) (build_db_tools allowed))
    ([], ∅) rs.

(** [name.split("__", 1)[1]]: the text after the first double
    underscore; [None] is the [IndexError]. *)
Fixpoint after_double_underscore (s : string) : option string :=
  match s with
  | EmptyString => None
  | String c s' =>
      match s' with
      | String d rest =>
          if Ascii.eqb c "_" && Ascii.eqb d "_" then Some rest
          else after_double_underscore s'
      | EmptyString => None
      end
  end.

(** One iteration of [for tc in result.tool_calls]. *)
Definition run_tool (E : Env) (dispatch : gmap string (string * list string))
    (tc : ToolCall) : M ToolReply :=
  match dispatch !! Llm.name tc with
  | Some (db_url, allowed) =>
      match after_double_underscore (Llm.name tc) with
      | None => raise "list index out of range"
      | Some raw_name =>
          let '(r, stmts) :=
            execute_db_tool (engine E) raw_name (arguments tc) db_url allowed in
          record_sql stmts ;;;
          match r with
          | Returned res_str => ret res_str
          | Raised e => raise e
          end
      end
  | None => ret (JsonError ("Unknown tool: " +:+ Llm.name tc))
  end.

Fixpoint run_tools (E : Env) (dispatch : gmap string (string * list string))
    (calls : list ToolCall) : M (list ToolReply) :=
  match calls with
  | [] => ret []
  | tc :: calls' =>
      let* r := run_tool E dispatch tc in
      let* rs := run_tools E dispatch calls' in
      ret (r :: rs)
  end.

(** [await provider.complete(...)] *)
Definition call_complete (E : Env) (provider : LLMProvider)
    (model system : string) (msgs : list ChatMsg) (tools : list ToolDef)
  : M CompletionResult :=
  fun w =>
    (complete E provider model system msgs tools (llm_calls w),
     mkWorld (view w) (store w) (commits w) (_providers w) (uuids w)
       (S (llm_calls w)) (sql_log w) (events w) (queue w) (sent w)).

(** [for _ in range(MAX_ROUNDS): ... else: ...] with [rounds] iterations
    left.  The [for] ends by [break] on a round without tool calls; its
    [else] branch runs when the range is used up. *)
Fixpoint tool_use_loop (E : Env) (provider : LLMProvider)
    (model system : string) (tools : list ToolDef)
    (dispatch : gmap string (string * list string))
    (rounds : nat) (msgs : list ChatMsg) : M string :=
  match rounds with
  | O => ret max_rounds_reply
  | S rounds' =>
      let* result := call_complete E provider model system msgs tools in
      match tool_calls result with
      | [] => ret (text result)
      | _ =>
          let msgs1 := append_assistant_turn provider msgs result in
          let* tool_results := run_tools E dispatch (tool_calls result) in
          tool_use_loop E provider model system tools dispatch rounds'
            (append_tool_results provider msgs1 (tool_calls result) tool_results)
      end
  end.

(** [get_provider] on the cache of the running system. *)
Definition lookup_provider (provider_name : string) : M LLMProvider :=
  fun w =>
    let '(r, cache) := get_provider provider_name (_providers w) in
    (r, mkWorld (view w) (store w) (commits w) cache (uuids w)
          (llm_calls w) (sql_log w) (events w) (queue w) (sent w)).

Definition divider : string :=
  String.concat "" (replicate 60 "─").

Definition system_prompt_of (agent : Agent.t) : string :=
  match Agent.soul agent with
  | Some soul => if truthy soul && truthy (strip soul)
                 then strip soul else DEFAULT_SOUL
  | None => DEFAULT_SOUL
  end.

Definition provider_name_of (agent : Agent.t) : string :=
  or_else (Agent.provider agent) "anthropic".

Definition persist_exchange (E : Env) (conv : Conversation.t)
    (message final_text : string) : M unit :=
  let* i1 := new_uuid E in
  modify (with_view (add_message
    (Message.mk i1 (Conversation.id conv) "user" message))) ;;;
  let* i2 := new_uuid E in
  modify (with_view (add_message
    (Message.mk i2 (Conversation.id conv) "assistant" final_text))) ;;;
  commit.

Definition invoke_agent (E : Env) (agent : Agent.t) (sender_id : string)
    (sender_name : option string) (message channel : string) : M string :=
  let* conv := get_or_create_conversation E (Agent.id agent) sender_id
                 sender_name channel in
  let* history := load_history conv in
  let* rs := _load_resources (Agent.id agent) in
  let repo_block := _build_repo_injection E rs in
  let enriched_message :=
    if truthy repo_block
    then message +:+ nl +:+ nl +:+ divider +:+ nl +:+
         "You have access to the following repository files:" +:+ nl +:+
         repo_block
    else message in
  let '(tool_defs, dispatch) := _collect_db_tools rs in
  let msgs :=
    ((fun m => Plain (Message.role m) (Message.content m)) <$> history)
    ++ [Plain "user" enriched_message] in
  let system_prompt := system_prompt_of agent in
  let provider_name := provider_name_of agent in
  (* try: provider = get_provider(provider_name)
     except ValueError as e: return ...
     [get_provider] raises nothing but the [ValueError]. *)
  let* selected := attempt (lookup_provider provider_name) in
  match selected with
  | Raised e => ret ("[Configuration error: " +:+ e +:+ "]")
  | Returned provider =>
      let* final_text :=
        tool_use_loop E provider (Agent.model agent) system_prompt tool_defs
          dispatch MAX_ROUNDS msgs in
      persist_exchange E conv message final_text ;;;
      ret final_text
  end.

End Invoker.

(* ================================================================== *)
(** * lqueue.py *)
(* ================================================================== *)

Module LQueue.
Import Py Llm Runtime Invoker.

(** [task_id[:8]] *)
Definition short (task_id : string) : string := String.substring 0 8 task_id.

Definition set_tasks (f : gmap string Task.t -> gmap string Task.t) (d : Db)
  : Db :=
  mkDb (agents d) (teams d) (conversations d) (messages d) (f (tasks d))
    (resources d).

(** [db.add(task)].  The primary key is the [uuid4] that [enqueue] drew
    for the task, taken to be new (see [Env]); for an id that is already
    stored the commit of the source raises [IntegrityError], which the
    embedding does not show. *)
Definition add_task (task : Task.t) : M unit :=
  modify (with_view (set_tasks (insert (Task.id task) task))).

(** An assignment to attributes of the [task] object of the session. *)
Definition update_task (task_id : string) (f : Task.t -> Task.t) : M unit :=
  modify (with_view (set_tasks (alter f task_id))).

Definition mark_failed (e : string) (t : Task.t) : Task.t :=
  Task.mk (Task.id t) (Task.agent_id t) (Task.sender_id t)
    (Task.sender_name t) (Task.channel t) (Task.raw_message t)
    Task.failed (Task.result t) (Some e) (Task.parent_task_id t).

Definition mark_done (clean_reply : string) (t : Task.t) : Task.t :=
  Task.mk (Task.id t) (Task.agent_id t) (Task.sender_id t)
    (Task.sender_name t) (Task.channel t) (Task.raw_message t)
    Task.done (Some clean_reply) (Task.error t) (Task.parent_task_id t).

(** [await hub.task_update(_task_dict(task))] *)
Definition task_update (task_id : string) : M unit :=
  let* t := gets (fun w => tasks (view w) !! task_id) in
  broadcast (TaskUpdate t).

(** [TaskQueue.enqueue] *)
Definition enqueue (E : Env) (agent_id sender_id : string)
    (sender_name : option string) (message channel : string)
    (parent_task_id group_id : option string) : M string :=
  let* task_id := new_uuid E in
  put_queue (mkItem task_id agent_id sender_id sender_name message channel
               parent_task_id group_id) ;;;
  hub_log "INFO" ("Task " +:+ short task_id +:+ " queued → agent:" +:+ agent_id) ;;;
  ret task_id.

(** The two queries of [_get_team_agent_ids] on the agent rows. *)
Definition team_agent_ids_of (rows : list Agent.t) (agent_id : string)
  : list string :=
  match List.find (fun a => String.eqb (Agent.id a) agent_id) rows with
  | Some agent =>
      match Agent.team_id agent with
      | Some team =>
          if truthy team
          then Agent.id <$>
               List.filter (fun a =>
                 bool_decide (Agent.team_id a = Some team)) rows
          else []
      | None => []
      end
  | None => []
  end.

(** [_get_team_agent_ids] *)
Definition _get_team_agent_ids (agent_id : string) : M (list string) :=
  gets (fun w => team_agent_ids_of (agents (view w)) agent_id).

(** [_send_reply]; an exception of the POST is logged and goes no
    further. *)
Definition _send_reply (E : Env) (item : Item) (reply : string) : M unit :=
  let target := or_else (group_id item) (sender_id item) in
  let d := mkDelivery target reply (channel item) in
  match bridge_post E d with
  | None => record_sent d
  | Some e => hub_log "WARN" ("Could not reach WhatsApp bridge: " +:+ e)
  end.

(** [for mention in mentions: ...] *)
Fixpoint route_mentions (E : Env) (item : Item)
    (mentions : list Router.Mention) : M unit :=
  match mentions with
  | [] => ret tt
  | mention :: rest =>
      hub_log "INFO" ("Agent " +:+ agent_id item +:+ " → @" +:+
                      Router.agent_id mention +:+ ": routing sub-task") ;;;
      enqueue E (Router.agent_id mention) (sender_id item)
        (sender_name item) (Router.message mention) (channel item)
        (Some (task_id item)) (group_id item) ;;;
      route_mentions E item rest
  end.

(** The choice of [clean_reply]. *)
Definition clean_reply_of (reply : string) (mentions : list Router.Mention)
  : string :=
  match mentions with
  | [] => reply
  | _ => Router.strip_teammate_tags reply
  end.

(** [item.get("group_id") or item["sender_id"]] *)
Definition conversation_key (item : Item) : string :=
  or_else (group_id item) (sender_id item).

(** The [try] statement of [_process], entered once the agent is
    found.  What follows the commit of [done] does not raise: the hub
    drops a client that fails, the queue has no bound, and [_send_reply]
    catches the exceptions of its POST.  The handler works on the [task]
    object as the body left it. *)
Definition run_agent (E : Env) (item : Item) (agent : Agent.t) : M unit :=
  let task_id := task_id item in
  let agent_id := agent_id item in
  try_except
    (let* reply := invoke_agent E agent (conversation_key item)
                     (sender_name item) (message item) (channel item) in
     let* team_agent_ids := _get_team_agent_ids agent_id in
     let mentions :=
       Router.extract_teammate_mentions reply agent_id team_agent_ids in
     let clean_reply := clean_reply_of reply mentions in
     update_task task_id (mark_done clean_reply) ;;;
     commit ;;;
     task_update task_id ;;;
     hub_log "INFO" ("Task " +:+ short task_id +:+ " done") ;;;
     route_mentions E item mentions ;;;
     if truthy_opt (parent_task_id item) then ret tt
     else _send_reply E item clean_reply)
    (fun e =>
       update_task task_id (mark_failed e) ;;;
       commit ;;;
       task_update task_id ;;;
       hub_log "ERROR" ("Task " +:+ short task_id +:+ " failed: " +:+ e)).

(** The row that [_process] creates. *)
Definition new_task (item : Item) : Task.t :=
  Task.mk (task_id item) (agent_id item) (sender_id item) (sender_name item)
    (channel item) (message item) Task.processing None None
    (parent_task_id item).

(** [TaskQueue._process] *)
Definition _process (E : Env) (item : Item) : M unit :=
  let task_id := task_id item in
  let agent_id := agent_id item in
  open_session ;;;
  add_task (new_task item) ;;;
  commit ;;;
  task_update task_id ;;;
  let* agent := gets (fun w => Router.agent_by_id (view w) agent_id) in
  match agent with
  | None =>
      update_task task_id
        (mark_failed ("Agent '" +:+ agent_id +:+ "' not found")) ;;;
      commit ;;;
      task_update task_id
  | Some agent =>
      hub_log "INFO" ("Task " +:+ short task_id +:+
                      " processing via agent:" +:+ agent_id) ;;;
      run_agent E item agent
  end.

(** The status history of a task: its row in each committed state. *)
Definition task_history (task_id : string) (cs : list Db) : list Task.t :=
  omap (fun d => tasks d !! task_id) cs.

End LQueue.

(* ================================================================== *)
(** * The vocabulary of the properties *)
(* ================================================================== *)

Module Props.
Import Py Llm DbTools Router Runtime Invoker LQueue.

(** No white space in front. *)
Definition no_lead (s : string) : Prop :=
  match s with
  | EmptyString => True
  | String c _ => isspace c = false
  end.

(** One step of the two nested loops, on a candidate. *)
Definition visit_candidate (acting : string) (team : list string)
    (st : list Mention * gset string)
    (c : string * string) : list Mention * gset string :=
  if truthy c.1 && bool_decide (c.1 ∉ st.2) && bool_decide (c.1 ≠ acting)
     && bool_decide (c.1 ∈ team)
  then (st.1 ++ [mkMention c.1 c.2], {[ c.1 ]} ∪ st.2)
  else st.

(** [c] relates every state it starts from to the state it ends in,
    whether it returns or raises. *)
Definition preserves {A} (R : World -> World -> Prop) (c : M A) : Prop :=
  forall w, R w (c w).2.

(** The effect of the last lines of [invoke_agent]: two messages are
    added to the conversation and the session is committed. *)
Definition persisted (conversation_id message reply : string)
    (w1 w' : World) : Prop :=
  exists i1 i2,
    messages (view w') =
      messages (view w1) ++
      [Message.mk i1 conversation_id "user" message;
       Message.mk i2 conversation_id "assistant" reply]
    /\ tasks (view w') = tasks (view w1)
    /\ agents (view w') = agents (view w1)
    /\ store w' = view w'
    /\ commits w' = commits w1 ++ [view w']
    /\ events w' = events w1 /\ queue w' = queue w1 /\ sent w' = sent w1.

(** The completions of the rounds are [R 0], [R 1], ... and the tools
    that they ask for return. *)
Definition scripted (E : Env) (p : LLMProvider) (model system : string)
    (tools : list ToolDef) (dispatch : gmap string (string * list string))
    (base rounds : nat) (R : nat -> CompletionResult) : Prop :=
  (forall k msgs, k < rounds ->
     complete E p model system msgs tools (base + k) = Returned (R k))
  /\ (forall k w, k < rounds ->
        exists rs, (run_tools E dispatch (tool_calls (R k)) w).1 = Returned rs).

(** The tool definitions and the dispatch table that [invoke_agent]
    builds for an agent. *)
Definition agent_tools (agent : Agent.t) (d : Db)
  : list ToolDef * gmap string (string * list string) :=
  _collect_db_tools
    (List.filter (fun r => String.eqb (AgentResource.agent_id r) (Agent.id agent))
       (resources d)).

(** What [_send_reply] adds to the deliveries. *)
Definition delivered (E : Env) (item : Item) (clean_reply : string)
  : list Delivery :=
  if truthy_opt (parent_task_id item) then []
  else
    let d := mkDelivery (or_else (group_id item) (sender_id item))
               clean_reply (channel item) in
    match bridge_post E d with None => [d] | Some _ => [] end.

(** The session once the new row is committed. *)
Definition registered (item : Item) (w : World) : Db :=
  set_tasks (insert (task_id item) (new_task item)) (store w).

Definition not_found (item : Item) : string :=
  "Agent '" +:+ agent_id item +:+ "' not found".

End Props.

Import Props.

(** The part of the state that only [db.add(Message)], a commit, the task
    executor and the hub change. *)
Record quiet (w w' : Runtime.World) : Prop := mkQuiet {
  quiet_agents : agents (Runtime.view w') = agents (Runtime.view w);
  quiet_messages : messages (Runtime.view w') = messages (Runtime.view w);
  quiet_tasks : tasks (Runtime.view w') = tasks (Runtime.view w);
  quiet_store : Runtime.store w' = Runtime.store w;
  quiet_commits : Runtime.commits w' = Runtime.commits w;
  quiet_events : Runtime.events w' = Runtime.events w;
  quiet_queue : Runtime.queue w' = Runtime.queue w;
  quiet_sent : Runtime.sent w' = Runtime.sent w
}.

(* ================================================================== *)
(** * The delegation scan, as the specification words it *)
(* ================================================================== *)

Module DelegationSpec.
Import Py Router.

(** The ids that the tags of a reply name, trimmed and in lower case, in
    the order of the text, each with the message its tag would carry. *)
Definition candidates (response : string) : list (string * string) :=
  finditer response ≫= fun t =>
    (fun raw => (strip raw,
                 full_msg (shared_context_of response) (strip (group2 t))))
    <$> split_on "," (lower (group1 t)).

(** Conditions (i) to (iii) of the specification. *)
Definition eligible (acting : string) (eligible_ids : list string)
    (c : string * string) : bool :=
  truthy c.1 && bool_decide (c.1 ≠ acting) && bool_decide (c.1 ∈ eligible_ids).

(** Condition (iv): one delegation per id, at its first occurrence. *)
Fixpoint emit_first_seen (emitted : list string)
    (cands : list (string * string)) : list Mention :=
  match cands with
  | [] => []
  | (a, m) :: rest =>
      if bool_decide (a ∈ emitted) then emit_first_seen emitted rest
      else mkMention a m :: emit_first_seen (a :: emitted) rest
  end.

(** [extract_delegations] as the specification words it. *)
Definition spec_extract_delegations (reply_text acting : string)
    (eligible_ids : list string) : list Mention :=
  emit_first_seen []
    (List.filter (eligible acting eligible_ids) (candidates reply_text)).

End DelegationSpec.

(** * The life cycle of a task row *)
Module Lifecycle.

Definition rank (s : Task.status_t) : nat :=
  match s with
  | Task.queued => 0
  | Task.processing => 1
  | Task.done | Task.failed => 2
  end.

(** A status stays, or moves forward in
    [queued -> processing -> {done | failed}]. *)
Definition forward (s s' : Task.status_t) : Prop :=
  s = s' \/ rank s < rank s'.

Fixpoint forward_chain (h : list Task.t) : Prop :=
  match h with
  | a :: (b :: _) as rest =>
      forward (Task.status a) (Task.status b) /\ forward_chain rest
  | _ => True
  end.

(** [result] is set iff the status is [done], [error] iff it is
    [failed]. *)
Definition consistent (t : Task.t) : Prop :=
  (is_Some (Task.result t) <-> Task.status t = Task.done)
  /\ (is_Some (Task.error t) <-> Task.status t = Task.failed).

(** The invariant, for a row first persisted with status [first]. *)
Definition lifecycle (first : Task.status_t) (h : list Task.t) : Prop :=
  Task.status <$> head h = Some first
  /\ forward_chain h
  /\ Forall consistent h.

Definition terminal (h : list Task.t) : Prop :=
  exists t, last h = Some t
            /\ (Task.status t = Task.done \/ Task.status t = Task.failed).

End Lifecycle.

(* ================================================================== *)
(** * Provider names *)
(* ================================================================== *)

Module ProviderSpec.
Import Llm.

(** The recognised provider names. *)
Definition recognized : list string := ["anthropic"; "openai"; "google"].

(** The cache holds recognised names only: it starts empty and only
    [get_provider] writes to it. *)
Definition cache_ok (cache : gmap string LLMProvider) : Prop :=
  forall k p, cache !! k = Some p -> k ∈ recognized.

(** The text that [invoke_agent] returns for a [ValueError]. *)
Definition config_error (e : string) : string :=
  "[Configuration error: " +:+ e +:+ "]".

End ProviderSpec.

(* ================================================================== *)
(** * A small installation *)
(* ================================================================== *)

Module Scenario.
Import Llm Runtime.

Definition alice : Agent.t :=
  Agent.mk "alice" "Alice" (Some "anthropic") "claude-opus-4-6" None (Some "dev").
Definition bob : Agent.t :=
  Agent.mk "bob" "Bob" (Some "openai") "gpt-4o" None (Some "dev").
Definition coder : Agent.t :=
  Agent.mk "coder" "Coder" (Some "google") "gemini-2.0-flash" None None.
Definition solo : Agent.t :=
  Agent.mk "solo" "Solo" (Some "bogus") "none" None None.

Definition db : Db :=
  mkDb [bob; coder; alice; solo] [Team.mk "dev" "Dev" (Some "alice")]
    [] [] ∅ [].

Definition engine : DbTools.Engine :=
  DbTools.mkEngine (fun _ _ => Returned (JsonRows "[]"))
    (fun _ _ => Returned "Tables:").

(** An environment whose [n]-th completion is [answer n]. *)
Definition env (answer : nat -> outcome CompletionResult) : Env :=
  mkEnv (fun n => "uuid-" +:+ pretty n) (fun _ _ => Returned "")
    engine (fun _ _ _ _ _ n => answer n) (fun _ => None).

Definition tagged_reply : string := "See [@zed: do it]".

Definition final_answer (t : string) : outcome CompletionResult :=
  Returned (mkCompletion t []).
Definition asks_tool : CompletionResult :=
  mkCompletion "" [mkToolCall "call-1" "nope" ∅].

Definition env_tagged : Env := env (fun _ => final_answer tagged_reply).
Definition env_down : Env := env (fun _ => Raised "provider down").
Definition env_tools : Env := env (fun _ => Returned asks_tool).
Definition third_round (n : nat) : CompletionResult :=
  if (n <? 2)%nat then asks_tool else mkCompletion "the answer" [].
Definition env_third : Env := env (fun n => Returned (third_round n)).

Definition world : World := mkWorld db db [] ∅ 0 0 [] [] [] [].

Definition item : Item :=
  mkItem "task-1" "alice" "u1" (Some "Ann") "hello" "whatsapp" None None.
Definition item_solo : Item :=
  mkItem "task-2" "solo" "u1" (Some "Ann") "hello" "whatsapp" None None.
Definition item_ann : Item :=
  mkItem "task-3" "alice" "u1" (Some "Ann") "hi all" "whatsapp" None (Some "g1").
Definition item_ben : Item :=
  mkItem "task-4" "alice" "u2" (Some "Ben") "hi too" "whatsapp" None (Some "g1").

(** The state in which the [try] statement of [_process] runs. *)
Definition world_registered : World :=
  with_view (LQueue.set_tasks (insert "task-1" (LQueue.new_task item))) world.

Definition db_coder : Db := mkDb [coder] [] [] [] ∅ [].
Definition db_two : Db := mkDb [bob; alice] [] [] [] ∅ [].
Definition db_empty : Db := mkDb [] [Team.mk "dev" "Dev" None] [] [] ∅ [].

End Scenario.

(* ================================================================== *)
(** * Further vocabulary: invariants of the tables and of the queue *)
(* ================================================================== *)

Module Upkeep.
Import Py Llm Runtime Invoker LQueue.

(** At most one conversation for each agent, sender and channel. *)
Definition one_conversation_per_key (l : list Conversation.t) : Prop :=
  forall agent_id sender_id channel,
    length (List.filter (same_conversation agent_id sender_id channel) l) <= 1.

(** The item that [_process] enqueues for a delegation, with the
    identifier drawn at position [k]. *)
Definition sub_task (E : Env) (item : Item) (k : nat) (m : Router.Mention)
  : Item :=
  mkItem (uuid4 E k) (Router.agent_id m) (sender_id item) (sender_name item)
    (Router.message m) (channel item) (Some (task_id item)) (group_id item).

(** One item for each delegation, in order, the identifiers being drawn
    from position [base] on. *)
Definition sub_tasks (E : Env) (item : Item) (base : nat)
    (ms : list Router.Mention) : list Item :=
  imap (fun k m => sub_task E item (base + k) m) ms.

End Upkeep.

(* ================================================================== *)
(** * Further vocabulary: the rows that an invocation adds *)
(* ================================================================== *)

Module Rows.

(** The rows of the session other than the tasks stay as they are. *)
Definition same_rows (w w' : Runtime.World) : Prop :=
  conversations (Runtime.view w') = conversations (Runtime.view w)
  /\ messages (Runtime.view w') = messages (Runtime.view w)
  /\ agents (Runtime.view w') = agents (Runtime.view w).

(** What follows the conversation lookup in [invoke_agent]: nothing, or
    the two messages of the exchange, under the id of the row. *)
Definition exchange (conv_id message : string) (before after : list Message.t)
  : Prop :=
  after = before
  \/ exists i1 i2 reply,
       after = before ++ [Message.mk i1 conv_id "user" message;
                          Message.mk i2 conv_id "assistant" reply].

End Rows.

(* ================================================================== *)
(** * Further vocabulary: the history query on rows with their creation time *)
(* ================================================================== *)

Module History.
Import Invoker.

(** A message row together with its [created_at]. *)
Definition Stamped : Type := nat * Message.t.

Definition rows_of (conv : Conversation.t) (table : list Stamped)
  : list Stamped :=
  List.filter
    (fun r => String.eqb (Message.conversation_id r.2) (Conversation.id conv))
    table.

(** What the database may answer to
    [where(conversation_id == conv.id).order_by(created_at.desc())]: the
    rows of the conversation, in an order in which [created_at] never
    grows.  The order of rows of equal [created_at] is the database's. *)
Definition answers_query (conv : Conversation.t) (table res : list Stamped)
  : Prop :=
  res ≡ₚ rows_of conv table
  /\ Sorted (fun a b => b.1 <= a.1) res.

(** [list(reversed(result.scalars().all()))] after [limit(MAX_HISTORY)]. *)
Definition history_of (res : list Stamped) : list Message.t :=
  snd <$> reverse (take MAX_HISTORY res).

(** The messages of the conversation were created one after the other,
    at distinct times. *)
Definition created_in_order (conv : Conversation.t) (table : list Stamped)
  : Prop :=
  StronglySorted (fun a b => a.1 < b.1) (rows_of conv table).

End History.

(* ================================================================== *)
(** * lqueue.py: the worker *)
(* ================================================================== *)

Module Worker.
Import Py Llm Runtime Invoker LQueue.

(** [asyncio.wait_for(self._queue.get(), timeout=1.0)]: the oldest item
    leaves the queue; on an empty queue the wait times out, which is
    [None] here. *)
Definition get_item : M (option Item) :=
  fun w =>
    match queue w with
    | [] => (Returned None, w)
    | item :: rest =>
        (Returned (Some item),
         mkWorld (view w) (store w) (commits w) (_providers w) (uuids w)
           (llm_calls w) (sql_log w) (events w) rest (sent w))
    end.

(** One turn of the [while self._running] loop of [_worker]: the
    time-out continues the loop, any other exception is logged. *)
Definition worker_turn (E : Env) : M unit :=
  try_except
    (let* item := get_item in
     match item with
     | None => ret tt
     | Some item => _process E item
     end)
    (fun e => hub_log "ERROR" ("Worker error: " +:+ e)).

(** [turns] turns of the loop. *)
Fixpoint _worker (E : Env) (turns : nat) : M unit :=
  match turns with
  | O => ret tt
  | S turns' => worker_turn E ;;; _worker E turns'
  end.

End Worker.

(* ================================================================== *)
(** * group_model.py, routers/groups.py, routers/messages.py *)
(* ================================================================== *)

Module WhatsAppGroup.
Record t := mk {
  id : string;
  group_id : string;             (* unique *)
  group_name : option string;
  enabled : bool
}.
End WhatsAppGroup.

(** What a request handler gives: its value, an [HTTPException], or an
    exception that it does not catch. *)
Inductive Http (A : Type) : Type :=
  | Ok (a : A)
  | HTTPException (status_code : nat) (detail : string)
  | Unhandled (e : string).
Arguments Ok {A} a.
Arguments HTTPException {A} status_code detail.
Arguments Unhandled {A} e.

Module Groups.
Import Py.

(** [s.endswith(suffix)] *)
Definition endswith (suffix s : string) : bool :=
  let n := String.length s in
  let m := String.length suffix in
  (m <=? n)%nat && String.eqb (String.substring (n - m) m s) suffix.

(** [result.scalar_one_or_none()] on the rows of a query. *)
Definition scalar_one_or_none {A} (rows : list A) : outcome (option A) :=
  match rows with
  | [] => Returned None
  | [row] => Returned (Some row)
  | _ => Raised "Multiple rows were found when one or none was required"
  end.

(** [select(WhatsAppGroup).where(WhatsAppGroup.group_id == gid)]; the
    table is kept in the order of creation. *)
Definition rows_of (gid : string) (groups : list WhatsAppGroup.t)
  : list WhatsAppGroup.t :=
  List.filter (fun g => String.eqb (WhatsAppGroup.group_id g) gid) groups.

(** An assignment to attributes of the rows of a group id. *)
Definition update_rows (gid : string) (f : WhatsAppGroup.t -> WhatsAppGroup.t)
    (groups : list WhatsAppGroup.t) : list WhatsAppGroup.t :=
  (fun g => if String.eqb (WhatsAppGroup.group_id g) gid then f g else g)
  <$> groups.

Definition set_enabled (b : bool) (g : WhatsAppGroup.t) : WhatsAppGroup.t :=
  WhatsAppGroup.mk (WhatsAppGroup.id g) (WhatsAppGroup.group_id g)
    (WhatsAppGroup.group_name g) b.

Definition set_name (n : option string) (g : WhatsAppGroup.t) : WhatsAppGroup.t :=
  WhatsAppGroup.mk (WhatsAppGroup.id g) (WhatsAppGroup.group_id g) n
    (WhatsAppGroup.enabled g).

(** [allowed_groups]: the ids of the enabled groups. *)
Definition allowed_groups (groups : list WhatsAppGroup.t) : list string :=
  WhatsAppGroup.group_id <$> List.filter WhatsAppGroup.enabled groups.

(** The body of the loop of [sync_groups] for one entry [bg] of the list
    of the bridge, [bg.get("id")] and [bg.get("name")]; the state is the
    table of the session, the identifiers drawn so far and [added].  The
    session flushes a pending row before the next query. *)
Definition sync_one (uuid4 : nat -> string)
    (st : list WhatsAppGroup.t * nat * nat) (bg : option string * option string)
  : outcome (list WhatsAppGroup.t * nat * nat) :=
  let '(groups, uuids, added) := st in
  let '(gid, gname) := bg in
  if negb (truthy_opt gid) || negb (endswith "@g.us" (default "" gid))
  then Returned st
  else
    let gid := default "" gid in
    match scalar_one_or_none (rows_of gid groups) with
    | Raised e => Raised e
    | Returned (Some existing) =>
        if truthy_opt gname
           && bool_decide (WhatsAppGroup.group_name existing ≠ gname)
        then Returned (update_rows gid (set_name gname) groups, uuids, added)
        else Returned st
    | Returned None =>
        Returned (groups ++ [WhatsAppGroup.mk (uuid4 uuids) gid gname false],
                  S uuids, S added)
    end.

Fixpoint sync_loop (uuid4 : nat -> string)
    (st : list WhatsAppGroup.t * nat * nat)
    (bridge_groups : list (option string * option string))
  : outcome (list WhatsAppGroup.t * nat * nat) :=
  match bridge_groups with
  | [] => Returned st
  | bg :: rest =>
      match sync_one uuid4 st bg with
      | Returned st' => sync_loop uuid4 st' rest
      | Raised e => Raised e
      end
  end.

(** [sync_groups]: [bridge] is what the GET of the group list gives.  The
    result is the answer, with [added], and the table once the request is
    over: the session is committed after the loop only. *)
Definition sync_groups (uuid4 : nat -> string) (uuids : nat)
    (bridge : outcome (list (option string * option string)))
    (groups : list WhatsAppGroup.t)
  : Http (nat * list WhatsAppGroup.t) * list WhatsAppGroup.t * nat :=
  match bridge with
  | Raised e =>
      (HTTPException 502 ("Could not reach WhatsApp bridge: " +:+ e),
       groups, uuids)
  | Returned bridge_groups =>
      match sync_loop uuid4 (groups, uuids, 0) bridge_groups with
      | Returned (groups', uuids', added) =>
          (Ok (added, groups'), groups', uuids')
      | Raised e => (Unhandled e, groups, uuids)
      end
  end.

(** [register_group] *)
Definition register_group (uuid : string) (group_id : string)
    (group_name : option string) (groups : list WhatsAppGroup.t)
  : Http WhatsAppGroup.t * list WhatsAppGroup.t :=
  if negb (endswith "@g.us" group_id)
  then (HTTPException 400 "group_id must end with @g.us", groups)
  else
    match scalar_one_or_none (rows_of group_id groups) with
    | Raised e => (Unhandled e, groups)
    | Returned (Some _) => (HTTPException 400 "Group already registered", groups)
    | Returned None =>
        let g := WhatsAppGroup.mk uuid group_id group_name true in
        (Ok g, groups ++ [g])
    end.

(** [_get_by_group_id] *)
Definition _get_by_group_id (group_id : string) (groups : list WhatsAppGroup.t)
  : Http WhatsAppGroup.t :=
  match scalar_one_or_none (rows_of group_id groups) with
  | Raised e => Unhandled e
  | Returned None =>
      HTTPException 404 ("Group '" +:+ group_id +:+ "' not found")
  | Returned (Some g) => Ok g
  end.

(** [enable_group] and [disable_group] *)
Definition switch_group (b : bool) (group_id : string)
    (groups : list WhatsAppGroup.t)
  : Http WhatsAppGroup.t * list WhatsAppGroup.t :=
  match _get_by_group_id group_id groups with
  | Ok g => (Ok (set_enabled b g), update_rows group_id (set_enabled b) groups)
  | HTTPException c d => (HTTPException c d, groups)
  | Unhandled e => (Unhandled e, groups)
  end.

Definition enable_group : string -> list WhatsAppGroup.t ->
    Http WhatsAppGroup.t * list WhatsAppGroup.t := switch_group true.
Definition disable_group : string -> list WhatsAppGroup.t ->
    Http WhatsAppGroup.t * list WhatsAppGroup.t := switch_group false.

(** [delete_group] *)
Definition delete_group (group_id : string) (groups : list WhatsAppGroup.t)
  : Http unit * list WhatsAppGroup.t :=
  match _get_by_group_id group_id groups with
  | Ok _ =>
      (Ok tt,
       List.filter (fun g => negb (String.eqb (WhatsAppGroup.group_id g) group_id))
         groups)
  | HTTPException c d => (HTTPException c d, groups)
  | Unhandled e => (Unhandled e, groups)
  end.

End Groups.

Module Messages.
Import Py Runtime LQueue Groups.

(** The body of a POST to [/messages/incoming]. *)
Record IncomingMessage := mkIncoming {
  sender_id : string;
  sender_name : option string;
  message : string;
  channel : string;
  group_id : option string
}.

Inductive Receipt :=
  | Ignored (reason : string)             (* {"ignored": True, "reason": ..} *)
  | Queued (task_id agent_id : string).   (* {"task_id": .., "status": "queued"} *)

(** The group guard: the enabled rows of the group of the message. *)
Definition enabled_rows (gid : string) (groups : list WhatsAppGroup.t)
  : list WhatsAppGroup.t :=
  List.filter (fun g => String.eqb (WhatsAppGroup.group_id g) gid
                        && WhatsAppGroup.enabled g) groups.

(** [incoming_message]; the session of the request reads the stored
    rows, [groups] is the table of the groups. *)
Definition incoming_message (E : Env) (groups : list WhatsAppGroup.t)
    (payload : IncomingMessage) : M (Http Receipt) :=
  let guard : outcome bool :=
    if truthy_opt (group_id payload) then
      match scalar_one_or_none
              (enabled_rows (default "" (group_id payload)) groups) with
      | Raised e => Raised e
      | Returned None => Returned false
      | Returned (Some _) => Returned true
      end
    else Returned true in
  match guard with
  | Raised e => ret (Unhandled e)
  | Returned false => ret (Ok (Ignored "group not enabled"))
  | Returned true =>
      let* resolved :=
        gets (fun w => Router.resolve_agent_for_message (message payload)
                         (store w)) in
      let '(agent_id, clean_message) := resolved in
      if truthy_opt agent_id then
        let agent_id := default "" agent_id in
        let* task_id :=
          enqueue E agent_id (sender_id payload) (sender_name payload)
            clean_message (channel payload) None (group_id payload) in
        ret (Ok (Queued task_id agent_id))
      else ret (HTTPException 503 "No agents configured. Create an agent first.")
  end.

End Messages.

(* ================================================================== *)
(** * routers/teams.py: the members of a team *)
(* ================================================================== *)

Module Teams.
Import Py.

Definition set_agents (l : list Agent.t) (d : Db) : Db :=
  mkDb l (teams d) (conversations d) (messages d) (tasks d) (resources d).

Definition set_team_id (team : option string) (a : Agent.t) : Agent.t :=
  Agent.mk (Agent.id a) (Agent.name a) (Agent.provider a) (Agent.model a)
    (Agent.soul a) team.

(** [agent.team_id = ...] on the row of the primary key, committed. *)
Definition assign_team (agent_id : string) (team : option string) (d : Db)
  : Db :=
  set_agents
    ((fun a => if String.eqb (Agent.id a) agent_id then set_team_id team a else a)
     <$> agents d) d.

(** [select(Team).where(Team.id == team_id)], and the agents that
    [selectinload(Team.agents)] brings with the team. *)
Definition team_rows (team_id : string) (d : Db) : list Team.t :=
  List.filter (fun t => String.eqb (Team.id t) team_id) (teams d).

Definition members (team_id : string) (d : Db) : list Agent.t :=
  List.filter (fun a => bool_decide (Agent.team_id a = Some team_id)) (agents d).

(** [result.scalar_one()] *)
Definition scalar_one {A} (rows : list A) : outcome A :=
  match rows with
  | [row] => Returned row
  | [] => Raised "No row was found when one was required"
  | _ => Raised "Multiple rows were found when exactly one was required"
  end.

(** The last query of both handlers: the team with its agents. *)
Definition team_out (team_id : string) (d : Db) : Http (Team.t * list Agent.t) :=
  match scalar_one (team_rows team_id d) with
  | Returned team => Ok (team, members team_id d)
  | Raised e => Unhandled e
  end.

(** [add_agent_to_team]: the answer, and the rows once the request is
    over. *)
Definition add_agent_to_team (team_id agent_id : string) (d : Db)
  : Http (Team.t * list Agent.t) * Db :=
  match Groups.scalar_one_or_none (team_rows team_id d) with
  | Raised e => (Unhandled e, d)
  | Returned None =>
      (HTTPException 404 ("Team '" +:+ team_id +:+ "' not found"), d)
  | Returned (Some _) =>
      match Router.agent_by_id d agent_id with
      | None => (HTTPException 404 ("Agent '" +:+ agent_id +:+ "' not found"), d)
      | Some _ =>
          let d' := assign_team agent_id (Some team_id) d in
          (team_out team_id d', d')
      end
  end.

(** [remove_agent_from_team] *)
Definition remove_agent_from_team (team_id agent_id : string) (d : Db)
  : Http (Team.t * list Agent.t) * Db :=
  match Router.agent_by_id d agent_id with
  | Some agent =>
      if bool_decide (Agent.team_id agent ≠ Some team_id)
      then (HTTPException 404 "Agent not in this team", d)
      else
        let d' := assign_team agent_id None d in
        (team_out team_id d', d')
  | None => (HTTPException 404 "Agent not in this team", d)
  end.

End Teams.

(* ================================================================== *)
(** * services/repo_loader.py *)
(* ================================================================== *)

Module RepoLoader.
Import Py.
#[local] Open Scope Z_scope.

(** A file that [_collect_files] returns: its path relative to the root,
    as text, and what [path.read_text] gives. *)
Record File := mkFile {
  rel : string;
  read_text : outcome string
}.

(** [len(s)] *)
Definition len (s : string) : Z := Z.of_nat (String.length s).

(** [s[:n]], where a negative [n] counts from the end. *)
Definition slice_to (n : Z) (s : string) : string :=
  if 0 <=? n then String.substring 0 (Z.to_nat n) s
  else String.substring 0 (String.length s - Z.to_nat (- n)) s.

(** The digits of a number in groups of three, from the right; the
    argument is the list of the digits, last digit first. *)
Fixpoint group3 (rev_digits : list ascii) : list ascii :=
  match rev_digits with
  | a :: b :: c :: ((_ :: _) as rest) => a :: b :: c :: ","%char :: group3 rest
  | l => l
  end.

(** [f"{n:,}"] *)
Definition format_commas (n : Z) : string :=
  (if n <? 0 then "-"%string else ""%string)
  +:+ string_of_list_ascii
        (rev (group3 (rev (list_ascii_of_string (pretty (Z.abs n)))))).

Definition nl : string := String "010"%char EmptyString.

Section Limits.
(** The two limits are read from the environment when the module is
    loaded; their defaults are 80000 and 20000. *)
Variables (MAX_REPO_CHARS MAX_FILE_CHARS : Z).

(** [_read_file] *)
Definition _read_file (f : File) : string :=
  match read_text f with
  | Raised e =>
      "=== " +:+ rel f +:+ " ===" +:+ nl +:+
      "[Could not read: " +:+ e +:+ "]" +:+ nl
  | Returned content =>
      let content :=
        if MAX_FILE_CHARS <? len content
        then slice_to MAX_FILE_CHARS content +:+ nl +:+
             "... [truncated at " +:+ pretty MAX_FILE_CHARS +:+ " chars]"
        else content in
      "=== " +:+ rel f +:+ " ===" +:+ nl +:+ content +:+ nl
  end.

(** The note that ends the list when the limit is hit. *)
Definition omitted (remaining : nat) : string :=
  nl +:+ "... [Remaining " +:+ pretty remaining +:+
  " file(s) omitted — hit " +:+ format_commas MAX_REPO_CHARS +:+ " char limit]".

(** The loop of [load_repository_context] over the files that are left,
    with [blocks] and [total] as they stand; [n_files] is [len(files)]. *)
Fixpoint load_loop (n_files : nat) (files_left : list File)
    (blocks : list string) (total : Z) : list string :=
  match files_left with
  | [] => blocks
  | f :: rest =>
      let block := _read_file f in
      if MAX_REPO_CHARS <? total + len block
      then blocks ++ [omitted (n_files - length blocks)]
      else load_loop n_files rest (blocks ++ [block]) (total + len block)
  end.

(** [load_repository_context]; [collected] is what [_collect_files]
    gives, and [globs_repr] is the text of [globs or ['**/*']]. *)
Definition load_repository_context (collected : outcome (list File))
    (repo_path globs_repr : string) : outcome string :=
  match collected with
  | Raised e => Raised e
  | Returned [] =>
      Returned ("[Repository at " +:+ repo_path +:+
                " — no matching files found for globs: " +:+ globs_repr +:+ "]")
  | Returned files =>
      let blocks := load_loop (length files) files [] 0 in
      Returned ("Repository: " +:+ repo_path +:+ nl +:+
                "Files loaded: " +:+ pretty (length blocks) +:+ " / " +:+
                pretty (length files) +:+ nl +:+
                Invoker.divider +:+ nl +:+ nl +:+
                String.concat nl blocks)
  end.

End Limits.

End RepoLoader.

(* ================================================================== *)
(** * Further installations *)
(* ================================================================== *)

Module Demo.
Import Llm Runtime.

(** A provider whose answer delegates to a teammate. *)
Definition delegating_reply : string := "Plan ready. [@bob: please review]".
Definition env_delegating : Env :=
  Scenario.env (fun _ => Scenario.final_answer delegating_reply).

(** Items for an agent without a team, for an agent that does not exist,
    and a sub-task. *)
Definition item_coder : Item :=
  mkItem "task-5" "coder" "u1" (Some "Ann") "hello" "whatsapp" None None.
Definition item_ghost : Item :=
  mkItem "task-6" "ghost" "u1" (Some "Ann") "hello" "whatsapp" None None.
Definition item_child : Item :=
  mkItem "task-7" "bob" "u1" (Some "Ann") "please review" "whatsapp"
    (Some "task-1") None.

(** A reply with a tag for a stranger and a tag for a teammate. *)
Definition mixed_reply : string := "See [@zed: do it] [@bob: check it]".
Definition env_mixed : Env :=
  Scenario.env (fun _ => Scenario.final_answer mixed_reply).

(** A database resource of [alice], on a server that cannot be reached:
    connecting raises.  [_run_query] connects inside its [try] and answers
    with the error; [_get_schema] has no handler. *)
Definition sales : AgentResource.t :=
  AgentResource.mk "alice" "Sales" "database" None None
    (Some "postgresql://db.internal/sales") None.
Definition engine_unreachable : DbTools.Engine :=
  DbTools.mkEngine (fun _ _ => Returned (JsonError "connection refused"))
    (fun _ _ => Raised "connection refused").
Definition env_unreachable (answer : nat -> outcome CompletionResult) : Env :=
  mkEnv (fun n => "uuid-" +:+ pretty n) (fun _ _ => Returned "")
    engine_unreachable (fun _ _ _ _ _ n => answer n) (fun _ => None).
Definition db_sales : Db :=
  mkDb (agents Scenario.db) (teams Scenario.db) [] [] ∅ [sales].
Definition world_sales : World := mkWorld db_sales db_sales [] ∅ 0 0 [] [] [] [].

Definition asks_query : CompletionResult :=
  mkCompletion "" [mkToolCall "call-q" "sales__query_database"
                     {[ "sql"%string := "SELECT 1"%string ]}].
Definition asks_schema : CompletionResult :=
  mkCompletion "" [mkToolCall "call-s" "sales__list_tables" ∅].
(** Nine rounds that query the database, then one that asks for its
    tables. *)
Definition tenth_asks_schema (n : nat) : CompletionResult :=
  if (n <? 9)%nat then asks_query else asks_schema.
Definition env_tenth : Env :=
  env_unreachable (fun n => Returned (tenth_asks_schema n)).

(** No agent yet, and a team whose stored leader is no agent:
    [create_team] stores the leader id it is given. *)
Definition db_ghost : Db :=
  mkDb [] [Team.mk "dev" "Dev" (Some "ghost")] [] [] ∅ [].

(** A conversation of two messages, in a table that holds a message of
    another conversation between them, with the creation times. *)
Definition chat : Conversation.t :=
  Conversation.mk "c1" "alice" "u1" (Some "Ann") "whatsapp".
Definition first_message : Message.t := Message.mk "m1" "c1" "user" "hello".
Definition second_message : Message.t := Message.mk "m2" "c1" "assistant" "hi".
Definition stamped_table : list History.Stamped :=
  [(3, first_message); (4, Message.mk "m9" "c2" "user" "other");
   (5, second_message)].
End Demo.

(* ================================================================== *)
(** * Properties of the string primitives *)
(* ================================================================== *)

Section PyFacts.
Import Py.

Lemma rstrip_cons c s :
  rstrip (String c s) =
  match rstrip s with
  | EmptyString => if isspace c then EmptyString else String c EmptyString
  | r => String c r
  end.
Proof. reflexivity. Qed.

Lemma lstrip_no_lead s : no_lead (lstrip s).
Proof.
  induction s as [|c s IH]; simpl; [exact I|].
  destruct (isspace c) eqn:Hc; [exact IH | exact Hc].
Qed.

Lemma lstrip_fixed s : no_lead s -> lstrip s = s.
Proof. destruct s as [|c s]; simpl; [reflexivity|]. intros ->. reflexivity. Qed.

Lemma rstrip_no_lead s : no_lead s -> no_lead (rstrip s).
Proof.
  destruct s as [|c s]; [intros; exact I|].
  intros Hc. simpl in Hc. rewrite rstrip_cons.
  destruct (rstrip s); [rewrite Hc|]; exact Hc.
Qed.

Lemma rstrip_idem s : rstrip (rstrip s) = rstrip s.
Proof.
  induction s as [|c s IH]; [reflexivity|].
  rewrite rstrip_cons. destruct (rstrip s) as [|d r] eqn:Hr.
  - destruct (isspace c) eqn:Hc; [reflexivity|].
    rewrite rstrip_cons. simpl. rewrite Hc. reflexivity.
  - rewrite rstrip_cons, IH. reflexivity.
Qed.

Lemma strip_idem s : strip (strip s) = strip s.
Proof.
  unfold strip.
  rewrite (lstrip_fixed (rstrip (lstrip s))).
  - apply rstrip_idem.
  - apply rstrip_no_lead, lstrip_no_lead.
Qed.

Lemma lstrip_length s : String.length (lstrip s) <= String.length s.
Proof.
  induction s as [|c s IH]; simpl; [lia|].
  destruct (isspace c); simpl; lia.
Qed.

Lemma rstrip_length s : String.length (rstrip s) <= String.length s.
Proof.
  induction s as [|c s IH]; [simpl; lia|].
  rewrite rstrip_cons. destruct (rstrip s); [destruct (isspace c)|]; simpl in *; lia.
Qed.

Lemma strip_length s : String.length (strip s) <= String.length s.
Proof.
  unfold strip. pose proof (rstrip_length (lstrip s)).
  pose proof (lstrip_length s). lia.
Qed.

End PyFacts.

(* ================================================================== *)
(** * Properties of the tag patterns and of the stripper *)
(* ================================================================== *)

Section TagFacts.
Import Py Router.

Lemma until_close_length s body rest :
  until_close s = Some (body, rest) -> String.length rest < String.length s.
Proof.
  revert body rest. induction s as [|c s IH]; simpl; intros body rest H.
  - discriminate.
  - destruct (Ascii.eqb c "]").
    + injection H as <- <-. lia.
    + destruct (until_close s) as [[b r]|]; [|discriminate].
      injection H as <- <-. specialize (IH b r eq_refl). lia.
Qed.

Lemma lazy_ids_length s ids body rest :
  lazy_ids until_close s = Some (ids, (body, rest)) ->
  String.length rest < String.length s.
Proof.
  revert ids. induction s as [|c s IH]; simpl; intros ids H; [discriminate|].
  destruct (Ascii.eqb c ":").
  - destruct (until_close s) as [[b r]|] eqn:Hu.
    + injection H as <- <- <-. apply until_close_length in Hu. lia.
    + destruct (isspace c); [discriminate|].
      destruct (lazy_ids until_close s) as [[i [b r]]|]; [|discriminate].
      injection H as <- <- <-. specialize (IH i eq_refl). lia.
  - destruct (isspace c); [discriminate|].
    destruct (lazy_ids until_close s) as [[i [b r]]|]; [|discriminate].
    injection H as <- <- <-. specialize (IH i eq_refl). lia.
Qed.

(** A match consumes at least one character. *)
Lemma match_strip_tag_length s rest :
  match_strip_tag s = Some rest -> String.length rest < String.length s.
Proof.
  unfold match_strip_tag, match_open.
  destruct s as [|c0 [|c1 [|c2 s]]]; try discriminate.
  destruct (Ascii.eqb c0 "[" && Ascii.eqb c1 "@" && negb (isspace c2));
    [|discriminate].
  destruct (lazy_ids until_close s) as [[i [b r]]|] eqn:Hl; [|discriminate].
  intros H. injection H as <-. apply lazy_ids_length in Hl. simpl. lia.
Qed.

Lemma blank_is_not_bracket c : isspace c = true -> Ascii.eqb c "]" = false.
Proof.
  intros H. destruct (Ascii.eqb_spec c "]") as [-> | _]; [discriminate | reflexivity].
Qed.

(** Skipping the blanks after the colon does not move the closing
    bracket. *)
Lemma until_close_skip_blanks t :
  snd <$> until_close (skip_blanks t) = snd <$> until_close t.
Proof.
  unfold skip_blanks. induction t as [|c t IH]; [reflexivity|].
  cbn [lstrip]. destruct (isspace c) eqn:Hc; [|reflexivity].
  rewrite IH. cbn [until_close]. rewrite (blank_is_not_bracket c Hc).
  destruct (until_close t) as [[b r]|]; reflexivity.
Qed.

Lemma lazy_ids_same_rest (tail1 tail2 : string -> option (string * string)) :
  (forall s, snd <$> tail1 s = snd <$> tail2 s) ->
  forall s, (fun r => r.2.2) <$> lazy_ids tail1 s
            = (fun r => r.2.2) <$> lazy_ids tail2 s.
Proof.
  intros Htail s. induction s as [|c s IH]; [reflexivity|].
  cbn [lazy_ids]. destruct (Ascii.eqb c ":").
  - specialize (Htail s).
    destruct (tail1 s) as [[b1 r1]|], (tail2 s) as [[b2 r2]|];
      cbn in Htail; try discriminate.
    + injection Htail as ->. reflexivity.
    + destruct (isspace c); [reflexivity|].
      destruct (lazy_ids tail1 s) as [[i1 [b1 r1]]|],
               (lazy_ids tail2 s) as [[i2 [b2 r2]]|];
        cbn in IH |- *; congruence.
  - destruct (isspace c); [reflexivity|].
    destruct (lazy_ids tail1 s) as [[i1 [b1 r1]]|],
             (lazy_ids tail2 s) as [[i2 [b2 r2]]|];
      cbn in IH |- *; congruence.
Qed.

(** The two patterns match the same stretches of text. *)
Lemma match_tag_after s : after <$> match_tag s = match_strip_tag s.
Proof.
  unfold match_tag, match_strip_tag, match_open.
  destruct s as [|c0 [|c1 [|c2 s]]]; try reflexivity.
  destruct (Ascii.eqb c0 "[" && Ascii.eqb c1 "@" && negb (isspace c2));
    [|reflexivity].
  pose proof (lazy_ids_same_rest (fun t => until_close (skip_blanks t))
                until_close until_close_skip_blanks s) as H.
  destruct (lazy_ids (fun t => until_close (skip_blanks t)) s) as [[i1 [b1 r1]]|],
           (lazy_ids until_close s) as [[i2 [b2 r2]]|];
    cbn in H |- *; congruence.
Qed.

Lemma match_tag_length s t :
  match_tag s = Some t -> String.length (after t) < String.length s.
Proof.
  intros H. apply match_strip_tag_length.
  rewrite <- match_tag_after, H. reflexivity.
Qed.

(** The fuel of the two scans is enough: more of it changes nothing. *)
Lemma sub_go_enough n1 n2 s :
  String.length s <= n1 -> String.length s <= n2 ->
  sub_go match_strip_tag n1 s = sub_go match_strip_tag n2 s.
Proof.
  revert n2 s. induction n1 as [|n1 IH]; intros n2 s H1 H2.
  - destruct s; [|simpl in H1; lia]. destruct n2; reflexivity.
  - destruct s as [|c s]; [destruct n2; reflexivity|].
    destruct n2 as [|n2]; [simpl in H2; lia|].
    cbn [sub_go]. simpl in H1, H2.
    destruct (match_strip_tag (String c s)) as [rest|] eqn:Hm.
    + apply match_strip_tag_length in Hm. simpl in Hm. apply IH; lia.
    + f_equal. apply IH; lia.
Qed.

Lemma finditer_go_enough n1 n2 s :
  String.length s <= n1 -> String.length s <= n2 ->
  finditer_go n1 s = finditer_go n2 s.
Proof.
  revert n2 s. induction n1 as [|n1 IH]; intros n2 s H1 H2.
  - destruct s; [|simpl in H1; lia]. destruct n2; reflexivity.
  - destruct s as [|c s]; [destruct n2; reflexivity|].
    destruct n2 as [|n2]; [simpl in H2; lia|].
    cbn [finditer_go]. simpl in H1, H2.
    destruct (match_tag (String c s)) as [t|] eqn:Hm.
    + apply match_tag_length in Hm. simpl in Hm. f_equal. apply IH; lia.
    + apply IH; lia.
Qed.

Lemma sub_go_ext m1 m2 :
  (forall s, m1 s = m2 s) -> forall fuel s, sub_go m1 fuel s = sub_go m2 fuel s.
Proof.
  intros Hm fuel. induction fuel as [|fuel IH]; intros s; [reflexivity|].
  destruct s as [|c s]; [reflexivity|].
  cbn [sub_go]. rewrite Hm. destruct (m2 (String c s)); [apply IH|].
  f_equal. apply IH.
Qed.

(** The shared context of a reply is the reply as the stripper leaves
    it. *)
Lemma shared_context_is_stripped response :
  shared_context_of response = strip_teammate_tags response.
Proof.
  unfold shared_context_of, strip_teammate_tags, sub_tags. f_equal.
  apply sub_go_ext. intros s. apply match_tag_after.
Qed.

End TagFacts.

Section StripFacts.
Import Py Router.

(** Where no tag is found the substitution copies the text. *)
Lemma sub_go_no_tag fuel s :
  has_tag s = false -> sub_go match_strip_tag fuel s = s.
Proof.
  revert s. induction fuel as [|fuel IH]; intros s H; [reflexivity|].
  destruct s as [|c s]; [reflexivity|].
  simpl in *. destruct (match_strip_tag (String c s)); [discriminate|].
  rewrite IH by exact H. reflexivity.
Qed.

Lemma sub_go_length fuel s :
  String.length (sub_go match_strip_tag fuel s) <= String.length s.
Proof.
  revert s. induction fuel as [|fuel IH]; intros s; [simpl; lia|].
  destruct s as [|c s]; [simpl; lia|].
  cbn [sub_go]. destruct (match_strip_tag (String c s)) as [rest|] eqn:Hm.
  - apply match_strip_tag_length in Hm. specialize (IH rest). lia.
  - specialize (IH s). simpl. lia.
Qed.

(** Where a tag is found the substitution makes the text shorter. *)
Lemma sub_go_shrinks fuel s :
  has_tag s = true -> String.length s <= fuel ->
  String.length (sub_go match_strip_tag fuel s) < String.length s.
Proof.
  revert s. induction fuel as [|fuel IH]; intros s Ht Hf.
  - destruct s; [discriminate|simpl in Hf; lia].
  - destruct s as [|c s]; [discriminate|].
    cbn [sub_go]. cbn [has_tag] in Ht.
    destruct (match_strip_tag (String c s)) as [rest|] eqn:Hm.
    + apply match_strip_tag_length in Hm.
      pose proof (sub_go_length fuel rest). lia.
    + simpl in Hf. specialize (IH s Ht ltac:(lia)). simpl. lia.
Qed.

Lemma strip_tags_without_tag s :
  has_tag s = false -> strip_teammate_tags s = strip s.
Proof.
  intros H. unfold strip_teammate_tags, sub_tags.
  rewrite sub_go_no_tag by exact H. reflexivity.
Qed.

Lemma strip_tags_with_tag s :
  has_tag s = true ->
  String.length (strip_teammate_tags s) < String.length s.
Proof.
  intros H. unfold strip_teammate_tags, sub_tags.
  pose proof (sub_go_shrinks (String.length s) s H ltac:(lia)).
  pose proof (strip_length (sub_go match_strip_tag (String.length s) s)).
  lia.
Qed.

End StripFacts.

(** C4, as the claim has it, fails: the characters on the two sides of a
    removed tag can join into a tag.  On the reply below one pass leaves a
    directive and a second pass removes it. *)
Lemma strip_not_idempotent :
  Router.has_tag (Router.strip_teammate_tags "[[@a:b]@c:d]") = true /\
  Router.strip_teammate_tags (Router.strip_teammate_tags "[[@a:b]@c:d]")
  <> Router.strip_teammate_tags "[[@a:b]@c:d]".
Proof. split; [reflexivity|]. vm_compute. discriminate. Qed.

(** C4, amended: a second pass of [strip_teammate_tags] changes nothing
    exactly when the first pass left no directive tag in the text. *)
Theorem strip_idempotent_iff_clean (x : string) :
  Router.strip_teammate_tags (Router.strip_teammate_tags x)
  = Router.strip_teammate_tags x
  <-> Router.has_tag (Router.strip_teammate_tags x) = false.
Proof.
  split.
  - intros Heq. destruct (Router.has_tag _) eqn:Ht; [|reflexivity].
    apply strip_tags_with_tag in Ht. rewrite Heq in Ht. lia.
  - intros Ht. rewrite (strip_tags_without_tag _ Ht).
    unfold Router.strip_teammate_tags. apply strip_idem.
Qed.

(* ================================================================== *)
(** * The delegation scan *)
(* ================================================================== *)

Section DelegationFacts.
Import Py Router DelegationSpec.
Variables (acting : string) (team : list string).

Lemma visit_id_candidate msg st raw :
  visit_id acting team msg st raw = (visit_candidate acting team) st (strip raw, msg).
Proof. destruct st as [res seen]. reflexivity. Qed.

Lemma visit_ids_candidates msg raws st :
  foldl (visit_id acting team msg) st raws
  = foldl (visit_candidate acting team) st ((fun raw => (strip raw, msg)) <$> raws).
Proof.
  revert st. induction raws as [|raw raws IH]; intros st; [reflexivity|].
  simpl. rewrite visit_id_candidate. apply IH.
Qed.

(** The nested loops of the code walk the list of candidates. *)
Lemma visit_tags_candidates shared tags st :
  foldl (visit_tag acting team shared) st tags
  = foldl (visit_candidate acting team) st
      (tags ≫= fun t =>
         (fun raw => (strip raw, full_msg shared (strip (group2 t))))
         <$> split_on "," (lower (group1 t))).
Proof.
  revert st. induction tags as [|t tags IH]; intros st; [reflexivity|].
  cbn [foldl]. rewrite IH. unfold visit_tag at 1.
  rewrite visit_ids_candidates. rewrite bind_cons, foldl_app. reflexivity.
Qed.

(** The walk with [seen] emits what the specification emits. *)
Lemma visit_candidates_spec cands res seen emitted :
  (forall a, a ∈ seen <-> a ∈ emitted) ->
  (foldl (visit_candidate acting team) (res, seen) cands).1
  = res ++ emit_first_seen emitted (List.filter (eligible acting team) cands).
Proof.
  revert res seen emitted.
  induction cands as [|[a m] cands IH]; intros res seen emitted Hs.
  - simpl. rewrite app_nil_r. reflexivity.
  - cbn [foldl List.filter].
    assert (Hstep : (visit_candidate acting team) (res, seen) (a, m)
              = if eligible acting team (a, m)
                then if bool_decide (a ∉ seen)
                     then (res ++ [mkMention a m], {[ a ]} ∪ seen)
                     else (res, seen)
                else (res, seen)).
    { unfold visit_candidate, eligible. cbn [fst snd].
      destruct (truthy a), (bool_decide (a ∉ seen)),
        (bool_decide (a ≠ acting)), (bool_decide (a ∈ team)); reflexivity. }
    rewrite Hstep. clear Hstep.
    destruct (eligible acting team (a, m)); [|apply IH, Hs].
    cbn [emit_first_seen].
    destruct (bool_decide (a ∉ seen)) eqn:Hseen.
    + apply bool_decide_eq_true in Hseen.
      rewrite bool_decide_eq_false_2 by (rewrite <- Hs; exact Hseen).
      rewrite (IH _ _ (a :: emitted)).
      * rewrite <- app_assoc. reflexivity.
      * intros b. rewrite elem_of_union, elem_of_singleton, elem_of_cons, Hs.
        reflexivity.
    + apply bool_decide_eq_false in Hseen.
      rewrite bool_decide_eq_true_2
        by (rewrite <- Hs; destruct (decide (a ∈ seen)); tauto).
      apply IH, Hs.
Qed.

(** Facts on the specification's emission. *)
Lemma emit_first_seen_elem emitted cands d :
  d ∈ emit_first_seen emitted cands ->
  (agent_id d, message d) ∈ cands /\ agent_id d ∉ emitted.
Proof.
  revert emitted. induction cands as [|[a m] cands IH]; intros emitted Hd.
  - simpl in Hd. inversion Hd.
  - cbn [emit_first_seen] in Hd. destruct (bool_decide (a ∈ emitted)) eqn:Ha.
    + destruct (IH _ Hd) as [H1 H2]. split; [right; exact H1 | exact H2].
    + apply bool_decide_eq_false in Ha.
      apply elem_of_cons in Hd as [-> | Hd].
      * split; [left | exact Ha].
      * destruct (IH _ Hd) as [H1 H2]. split; [right; exact H1|].
        intros Hin. apply H2. right. exact Hin.
Qed.

Lemma emit_first_seen_NoDup emitted cands :
  NoDup (agent_id <$> emit_first_seen emitted cands).
Proof.
  revert emitted. induction cands as [|[a m] cands IH]; intros emitted.
  - constructor.
  - cbn [emit_first_seen]. destruct (bool_decide (a ∈ emitted)); [apply IH|].
    rewrite fmap_cons. constructor; [|apply IH].
    intros Hin. apply list_elem_of_fmap in Hin as [d [Hd Hin]].
    apply emit_first_seen_elem in Hin as [_ Hn]. apply Hn.
    cbn in Hd. rewrite <- Hd. left.
Qed.

Lemma emit_first_seen_complete emitted cands a :
  a ∈ cands.*1 -> a ∈ emitted \/ a ∈ agent_id <$> emit_first_seen emitted cands.
Proof.
  revert emitted. induction cands as [|[b m] cands IH]; intros emitted Ha.
  - inversion Ha.
  - cbn [emit_first_seen]. rewrite fmap_cons in Ha. cbn [fst] in Ha.
    destruct (bool_decide (b ∈ emitted)) eqn:Hb.
    + apply bool_decide_eq_true in Hb.
      apply elem_of_cons in Ha as [-> | Ha]; [left; exact Hb | apply IH, Ha].
    + rewrite fmap_cons. cbn [agent_id].
      apply elem_of_cons in Ha as [-> | Ha]; [right; left|].
      destruct (IH (b :: emitted) Ha) as [Hin | Hin].
      * apply elem_of_cons in Hin as [-> | Hin]; [right; left | left; exact Hin].
      * right. right. exact Hin.
Qed.

Lemma eligible_spec c :
  eligible acting team c = true <-> c.1 ≠ "" /\ c.1 ≠ acting /\ c.1 ∈ team.
Proof.
  unfold eligible. rewrite !andb_true_iff, !bool_decide_eq_true.
  destruct c as [[|ch a] m]; cbn; intuition congruence.
Qed.

End DelegationFacts.

Lemma elem_of_bool_filter {A} (f : A -> bool) (l : list A) (x : A) :
  x ∈ List.filter f l <-> x ∈ l /\ f x = true.
Proof. rewrite !list_elem_of_In. apply filter_In. Qed.

(** C5: [extract_teammate_mentions] returns one delegation for each id of
    the reply's tags that is non-empty, eligible and not the acting agent,
    at its first occurrence and in the order of first occurrence; it never
    names the acting agent or an agent outside the eligible list, never
    names an agent twice, and drops every other id without an error. *)
Theorem extract_delegations_spec (response acting : string) (team : list string) :
  let ds := Router.extract_teammate_mentions response acting team in
  ds = DelegationSpec.spec_extract_delegations response acting team
  /\ (forall d, d ∈ ds ->
        Router.agent_id d ≠ acting /\ Router.agent_id d ∈ team
        /\ Router.agent_id d ≠ ""%string)
  /\ NoDup (Router.agent_id <$> ds)
  /\ (forall a, a ∈ Router.agent_id <$> ds <->
        a ∈ (DelegationSpec.candidates response).*1
        /\ a ≠ ""%string /\ a ≠ acting /\ a ∈ team).
Proof.
  intros ds.
  assert (Hspec : ds = DelegationSpec.spec_extract_delegations response acting team).
  { unfold ds, Router.extract_teammate_mentions.
    rewrite visit_tags_candidates.
    rewrite (visit_candidates_spec acting team _ [] ∅ []); [reflexivity|].
    intros a. split; intros H; [set_solver | inversion H]. }
  split; [exact Hspec|]. rewrite Hspec.
  unfold DelegationSpec.spec_extract_delegations.
  split; [|split].
  - intros d Hd. apply emit_first_seen_elem in Hd as [Hd _].
    apply elem_of_bool_filter in Hd as [_ Hd].
    apply eligible_spec in Hd. cbn in Hd. tauto.
  - apply emit_first_seen_NoDup.
  - intros a. split.
    + intros Ha. apply list_elem_of_fmap in Ha as [d [-> Hd]].
      apply emit_first_seen_elem in Hd as [Hd _].
      apply elem_of_bool_filter in Hd as [Hin He].
      apply eligible_spec in He. cbn in He. split; [|tauto].
      apply list_elem_of_fmap. exists (Router.agent_id d, Router.message d).
      split; [reflexivity | exact Hin].
    + intros [Ha He]. apply list_elem_of_fmap in Ha as [[b m] [-> Hin]].
      cbn [fst] in He.
      destruct (emit_first_seen_complete []
                  (List.filter (DelegationSpec.eligible acting team)
                     (DelegationSpec.candidates response)) b) as [H|H].
      * apply list_elem_of_fmap. exists (b, m). split; [reflexivity|].
        apply elem_of_bool_filter. split; [exact Hin|].
        apply eligible_spec. exact He.
      * inversion H.
      * exact H.
Qed.

(** The example of the specification. *)
Example extract_delegations_example :
  Router.extract_teammate_mentions
    ("Shared note." +:+ String "010" "[@bob: please review]") "alice"
    ["bob"; "carol"]%string
  = [Router.mkMention "bob"
       ("Shared note." +:+ String "010" (String "010" ("---" +:+ String "010"
          ("Directed to you:" +:+ String "010" "please review"))))].
Proof. vm_compute. reflexivity. Qed.

(* ================================================================== *)
(** * The address resolver *)
(* ================================================================== *)

Section ResolverFacts.
Import Py Router.

Lemma find_none_iff {A} (f : A -> bool) (l : list A) :
  List.find f l = None <-> forall x, x ∈ l -> f x = false.
Proof.
  induction l as [|a l IH]; simpl.
  - split; [intros _ x Hx; inversion Hx | reflexivity].
  - destruct (f a) eqn:Ha.
    + split; [discriminate|]. intros H. rewrite (H a) in Ha by left. discriminate.
    + rewrite IH. split.
      * intros H x Hx. apply elem_of_cons in Hx as [-> | Hx]; auto.
      * intros H x Hx. apply H. right. exact Hx.
Qed.

Lemma find_some_holds {A} (f : A -> bool) (l : list A) (x : A) :
  x ∈ l -> f x = true -> exists y, List.find f l = Some y /\ f y = true.
Proof.
  intros Hx Hf. destruct (List.find f l) as [y|] eqn:Hfind.
  - exists y. split; [reflexivity|]. apply find_some in Hfind. tauto.
  - rewrite find_none_iff in Hfind. rewrite (Hfind x Hx) in Hf. discriminate.
Qed.

Lemma head_insert_by_id a l :
  head (insert_by_id a l) =
  match head l with
  | None => Some a
  | Some b => if String.leb (Agent.id a) (Agent.id b) then Some a else Some b
  end.
Proof.
  destruct l as [|b l]; simpl; [reflexivity|].
  destruct (String.leb (Agent.id a) (Agent.id b)); reflexivity.
Qed.

(** The first row of the ordered query is an agent with the least id. *)
Lemma order_by_id_head l :
  match head (order_by_id l) with
  | Some m => m ∈ l /\ forall b, b ∈ l -> String.le (Agent.id m) (Agent.id b)
  | None => l = []
  end.
Proof.
  induction l as [|a l IH]; [reflexivity|].
  unfold order_by_id in *. cbn [foldr]. rewrite head_insert_by_id.
  destruct (head (foldr insert_by_id [] l)) as [m|].
  - destruct IH as [Hm Hleast].
    destruct (String.leb (Agent.id a) (Agent.id m)) eqn:Hle.
    + split; [left|]. intros b Hb. apply elem_of_cons in Hb as [-> | Hb].
      * reflexivity.
      * transitivity (Agent.id m); [|apply Hleast, Hb].
        unfold String.le. rewrite Hle. exact I.
    + split; [right; exact Hm|]. intros b Hb.
      apply elem_of_cons in Hb as [-> | Hb]; [|apply Hleast, Hb].
      destruct (total String.le (Agent.id m) (Agent.id a)) as [H|H]; [exact H|].
      unfold String.le in H. rewrite Hle in H. destruct H.
  - subst l. split; [left|]. intros b Hb.
    apply elem_of_cons in Hb as [-> | Hb]; [reflexivity | inversion Hb].
Qed.

Lemma default_agent_least raw db :
  agents db ≠ [] ->
  exists m, default_agent raw db = (Some (Agent.id m), strip raw)
            /\ m ∈ agents db
            /\ forall b, b ∈ agents db -> String.le (Agent.id m) (Agent.id b).
Proof.
  intros Hne. unfold default_agent.
  pose proof (order_by_id_head (agents db)) as H.
  destruct (head (order_by_id (agents db))) as [m|]; [|contradiction].
  exists m. tauto.
Qed.

Lemma default_agent_none raw db :
  agents db = [] -> default_agent raw db = (None, strip raw).
Proof. intros H. unfold default_agent. rewrite H. reflexivity. Qed.

End ResolverFacts.

(** C9, amended: the two examples of the specification; the fall-back to
    the agent with the least id, with the trimmed message kept whole, when
    the text has no address prefix or its token names no agent id, team
    id or agent name; and, when there is no agent, no target unless the
    token is the id of a team that stores a leader id, which is then
    returned as it is stored, with the text after the token. *)
Theorem resolve_target_spec :
  (forall db a, a ∈ agents db -> Agent.id a = "coder"%string ->
     Router.resolve_agent_for_message "@coder fix the bug" db
     = (Some "coder"%string, "fix the bug"%string))
  /\ (forall db, Agent.id <$> agents db ≡ₚ ["alice"; "bob"]%string ->
        Router.resolve_agent_for_message "no prefix here" db
        = (Some "alice"%string, "no prefix here"%string))
  /\ (forall db raw,
        agents db ≠ [] ->
        (forall token rest,
           Router.match_address (Py.strip raw) = Some (token, rest) ->
           (forall a, a ∈ agents db -> Agent.id a ≠ Py.lower token)
           /\ (forall t, t ∈ teams db -> Team.id t ≠ Py.lower token)
           /\ (forall a, a ∈ agents db ->
                 Py.lower (Agent.name a) ≠ Py.lower token)) ->
        exists m,
          Router.resolve_agent_for_message raw db
          = (Some (Agent.id m), Py.strip raw)
          /\ m ∈ agents db
          /\ forall b, b ∈ agents db -> String.le (Agent.id m) (Agent.id b))
  /\ (forall db raw,
        agents db = [] ->
        (forall token rest t l,
           Router.match_address (Py.strip raw) = Some (token, rest) ->
           t ∈ teams db -> Team.id t = Py.lower token ->
           Team.leader_agent_id t = Some l -> l = ""%string) ->
        Router.resolve_agent_for_message raw db = (None, Py.strip raw))
  /\ (forall db raw token rest t l,
        agents db = [] ->
        Router.match_address (Py.strip raw) = Some (token, rest) ->
        Router.team_by_id db (Py.lower token) = Some t ->
        Team.leader_agent_id t = Some l -> l ≠ ""%string ->
        Router.resolve_agent_for_message raw db = (Some l, rest)).
Proof.
  split; [|split; [|split; [|split]]].
  - intros db a Ha Hid. unfold Router.resolve_agent_for_message.
    change (Router.match_address (Py.strip "@coder fix the bug"))
      with (Some ("coder"%string, "fix the bug"%string)).
    cbv beta iota zeta. change (Py.lower "coder") with "coder"%string.
    unfold Router.agent_by_id.
    destruct (find_some_holds
                (fun a => String.eqb (Agent.id a) "coder") (agents db) a Ha)
      as [y [-> Hy]].
    { rewrite Hid. reflexivity. }
    apply String.eqb_eq in Hy. rewrite Hy. reflexivity.
  - intros db Hperm. unfold Router.resolve_agent_for_message.
    change (Router.match_address (Py.strip "no prefix here")) with (@None (string * string)).
    unfold Router.default_agent.
    change (Py.strip "no prefix here") with "no prefix here"%string.
    apply Permutation_sym, Permutation_length_2_inv in Hperm.
    destruct (agents db) as [|x [|y [|z l]]]; destruct Hperm as [H|H];
      try discriminate; injection H as Hx Hy;
      unfold Router.order_by_id; cbn [foldr Router.insert_by_id];
      rewrite Hx, Hy;
      match goal with
      | |- context [String.leb ?a ?b] =>
          let v := eval vm_compute in (String.leb a b) in
          change (String.leb a b) with v
      end; cbn; rewrite ?Hx, ?Hy; reflexivity.
  - intros db raw Hne Hno. unfold Router.resolve_agent_for_message.
    destruct (Router.match_address (Py.strip raw)) as [[token rest]|] eqn:Hm;
      [|apply default_agent_least, Hne].
    destruct (Hno token rest eq_refl) as (Hid & Hteam & Hname).
    cbv beta iota zeta.
    assert (Router.agent_by_id db (Py.lower token) = None) as ->.
    { apply find_none_iff. intros a Ha. apply String.eqb_neq, Hid, Ha. }
    assert (Router.team_by_id db (Py.lower token) = None) as ->.
    { apply find_none_iff. intros t Ht. apply String.eqb_neq, Hteam, Ht. }
    assert (Router.agent_by_name db (Py.lower token) = None) as ->.
    { apply find_none_iff. intros a Ha. apply String.eqb_neq, Hname, Ha. }
    apply default_agent_least, Hne.
  - intros db raw Hnone Hno. unfold Router.resolve_agent_for_message.
    destruct (Router.match_address (Py.strip raw)) as [[token rest]|];
      [|apply default_agent_none, Hnone].
    cbv beta iota zeta. unfold Router.agent_by_name, Router.agent_by_id. rewrite Hnone. simpl.
    assert (Router.leader_of (Router.team_by_id db (Py.lower token)) = None) as ->.
    { unfold Router.leader_of, Router.team_by_id.
      destruct (List.find _ (teams db)) as [t|] eqn:Hfind; [|reflexivity].
      apply find_some in Hfind as [Hin Hid]. apply list_elem_of_In in Hin.
      apply String.eqb_eq in Hid.
      destruct (Team.leader_agent_id t) as [l|] eqn:Hl; [|reflexivity].
      rewrite (Hno token rest t l eq_refl Hin Hid Hl). reflexivity. }
    apply default_agent_none, Hnone.
  - intros db raw token rest t l Hnone Hm Hteam Hl Hne.
    unfold Router.resolve_agent_for_message. rewrite Hm. cbv beta iota zeta.
    unfold Router.agent_by_id. rewrite Hnone. cbn [List.find].
    rewrite Hteam. unfold Router.leader_of. rewrite Hl.
    destruct l; [contradiction|reflexivity].
Qed.

(* ================================================================== *)
(** * What a computation leaves untouched *)
(* ================================================================== *)

Section Frames.
Import Py Llm DbTools Runtime Invoker.

Context (R : World -> World -> Prop) `{!PreOrder R}.

Lemma preserves_ret {A} (a : A) : preserves R (ret a).
Proof. intros w. reflexivity. Qed.

Lemma preserves_raise {A} e : preserves R (@raise A e).
Proof. intros w. reflexivity. Qed.

Lemma preserves_gets {A} (f : World -> A) : preserves R (gets f).
Proof. intros w. reflexivity. Qed.

Lemma preserves_modify f : (forall w, R w (f w)) -> preserves R (modify f).
Proof. intros H w. apply H. Qed.

Lemma preserves_bind {A B} (c : M A) (k : A -> M B) :
  preserves R c -> (forall a, preserves R (k a)) -> preserves R (bind c k).
Proof.
  intros Hc Hk w. unfold bind. specialize (Hc w).
  destruct (c w) as [[a|e] w1]; [|exact Hc].
  transitivity w1; [exact Hc | apply Hk].
Qed.

Lemma preserves_attempt {A} (c : M A) : preserves R c -> preserves R (attempt c).
Proof.
  intros Hc w. unfold attempt. specialize (Hc w).
  destruct (c w) as [r w1]. exact Hc.
Qed.

Lemma preserves_try_except {A} (c : M A) h :
  preserves R c -> (forall e, preserves R (h e)) -> preserves R (try_except c h).
Proof.
  intros Hc Hh w. unfold try_except. specialize (Hc w).
  destruct (c w) as [[a|e] w1]; [exact Hc|].
  transitivity w1; [exact Hc | apply Hh].
Qed.

End Frames.

#[local] Instance quiet_preorder : PreOrder quiet.
Proof.
  split.
  - intros w. split; reflexivity.
  - intros w1 w2 w3 [] []. split; congruence.
Qed.

Section InvokerFrames.
Import Py Llm DbTools Runtime Invoker.
Variable E : Env.

Ltac quiet_step :=
  first
    [ apply (preserves_ret quiet) | apply (preserves_raise quiet)
    | apply (preserves_gets quiet)
    | apply (preserves_modify quiet); intros ?; split; reflexivity
    | intros ?; split; reflexivity ].

Lemma quiet_new_uuid : preserves quiet (new_uuid E).
Proof. quiet_step. Qed.

Lemma quiet_record_sql stmts : preserves quiet (record_sql stmts).
Proof. quiet_step. Qed.

Lemma quiet_get_or_create agent_id sender_id sender_name channel :
  preserves quiet
    (get_or_create_conversation E agent_id sender_id sender_name channel).
Proof.
  unfold get_or_create_conversation.
  apply (preserves_bind quiet); [quiet_step |].
  intros [|conv [|conv' rows]].
  - apply (preserves_bind quiet); [apply quiet_new_uuid |]. intros i.
    apply (preserves_bind quiet); [quiet_step | intros; quiet_step].
  - destruct (_ && _).
    + apply (preserves_bind quiet); [quiet_step | intros; quiet_step].
    + quiet_step.
  - quiet_step.
Qed.

Lemma quiet_run_tool dispatch tc : preserves quiet (run_tool E dispatch tc).
Proof.
  unfold run_tool. destruct (dispatch !! Llm.name tc) as [[url allowed]|];
    [|quiet_step].
  destruct (after_double_underscore _); [|quiet_step].
  destruct (execute_db_tool _ _ _ _ _) as [r stmts].
  apply (preserves_bind quiet); [apply quiet_record_sql |].
  intros _. destruct r; quiet_step.
Qed.

Lemma quiet_run_tools dispatch calls : preserves quiet (run_tools E dispatch calls).
Proof.
  induction calls as [|tc calls IH]; [quiet_step|].
  cbn [run_tools].
  apply (preserves_bind quiet); [apply quiet_run_tool |]. intros r.
  apply (preserves_bind quiet); [exact IH | intros; quiet_step].
Qed.

Lemma quiet_call_complete p model system msgs tools :
  preserves quiet (call_complete E p model system msgs tools).
Proof. quiet_step. Qed.

Lemma quiet_tool_use_loop p model system tools dispatch rounds msgs :
  preserves quiet (tool_use_loop E p model system tools dispatch rounds msgs).
Proof.
  revert msgs. induction rounds as [|rounds IH]; intros msgs; [quiet_step|].
  cbn [tool_use_loop].
  apply (preserves_bind quiet); [apply quiet_call_complete |]. intros result.
  destruct (tool_calls result); [quiet_step|].
  apply (preserves_bind quiet); [apply quiet_run_tools |]. intros rs. apply IH.
Qed.

Lemma quiet_lookup_provider n : preserves quiet (lookup_provider n).
Proof.
  intros w. unfold lookup_provider.
  destruct (get_provider n (_providers w)). split; reflexivity.
Qed.

End InvokerFrames.

Section InvokerShape.
Import Py Llm DbTools Runtime Invoker.
Variable E : Env.

Lemma persist_exchange_spec conv message reply w1 :
  exists w', persist_exchange E conv message reply w1 = (Returned tt, w')
             /\ persisted (Conversation.id conv) message reply w1 w'.
Proof.
  eexists. split; [reflexivity|].
  exists (uuid4 E (uuids w1)), (uuid4 E (S (uuids w1))). cbn.
  rewrite <- app_assoc. repeat split; reflexivity.
Qed.

Lemma get_or_create_cache agent_id sender_id sender_name channel w :
  _providers (get_or_create_conversation E agent_id sender_id sender_name
                channel w).2 = _providers w.
Proof.
  unfold get_or_create_conversation, bind, gets.
  destruct (List.filter _ _) as [|conv [|conv' rows]]; cbn; try reflexivity.
  destruct (_ && _); reflexivity.
Qed.

(** The three ways [invoke_agent] can end. *)
Lemma invoke_agent_cases agent sender_id sender_name message channel w :
  let selection :=
    (get_provider (provider_name_of agent) (_providers w)).1 in
  exists r w',
    invoke_agent E agent sender_id sender_name message channel w = (r, w')
    /\ ((exists e, r = Raised e /\ quiet w w')
        \/ (exists e, selection = Raised e
              /\ r = Returned ("[Configuration error: " +:+ e +:+ "]")
              /\ quiet w w')
        \/ (exists p final_text conversation_id w1,
              selection = Returned p /\ r = Returned final_text
              /\ quiet w w1
              /\ persisted conversation_id message final_text w1 w')).
Proof.
  intros selection. subst selection.
  pose proof (quiet_get_or_create E (Agent.id agent) sender_id sender_name
                channel w) as Q1.
  pose proof (get_or_create_cache (Agent.id agent) sender_id sender_name
                channel w) as C1.
  unfold invoke_agent. unfold bind at 1.
  destruct (get_or_create_conversation E (Agent.id agent) sender_id
              sender_name channel w) as [[conv|e] w1]; cbn [snd] in Q1, C1.
  2:{ eexists _, _. split; [reflexivity|]. left. eauto. }
  unfold bind at 1. unfold load_history at 1, gets at 1.
  unfold bind at 1. unfold _load_resources at 1, gets at 1.
  destruct (_collect_db_tools _) as [tool_defs dispatch].
  unfold bind at 1. unfold attempt, lookup_provider. rewrite C1.
  destruct (get_provider (provider_name_of agent) (_providers w))
    as [[p|e] cache]; cbn [fst].
  2:{ eexists _, _. split; [reflexivity|]. right. left. exists e.
      split; [reflexivity|]. split; [reflexivity|].
      destruct Q1. split; assumption. }
  set (w2 := mkWorld _ _ _ cache _ _ _ _ _ _).
  assert (Q2 : quiet w w2) by (destruct Q1; split; assumption).
  unfold bind at 1.
  match goal with
  | |- context [tool_use_loop E p ?m ?s ?t ?d ?n ?ms w2] =>
      pose proof (quiet_tool_use_loop E p m s t d n ms w2) as Q3;
      destruct (tool_use_loop E p m s t d n ms w2) as [[final_text|e] w3]
  end; cbn [snd] in Q3.
  2:{ eexists _, _. split; [reflexivity|]. left. exists e.
      split; [reflexivity|]. transitivity w2; assumption. }
  destruct (persist_exchange_spec conv message final_text w3) as [w4 [Hp Hw4]].
  unfold bind at 1. rewrite Hp.
  eexists _, _. split; [reflexivity|]. right. right.
  exists p, final_text, (Conversation.id conv), w3.
  split; [reflexivity|]. split; [reflexivity|].
  split; [transitivity w2; assumption | exact Hw4].
Qed.

End InvokerShape.

(* ================================================================== *)
(** * The tool-use loop *)
(* ================================================================== *)

Section ToolLoop.
Import Py Llm DbTools Runtime Invoker.
Variables (E : Env) (p : LLMProvider) (model system : string)
          (tools : list ToolDef) (dispatch : gmap string (string * list string)).

#[local] Abbreviation loop := (tool_use_loop E p model system tools dispatch).

Lemma run_tool_calls tc w :
  llm_calls (run_tool E dispatch tc w).2 = llm_calls w.
Proof.
  unfold run_tool. destruct (dispatch !! Llm.name tc) as [[url allowed]|];
    [|reflexivity].
  destruct (after_double_underscore _); [|reflexivity].
  destruct (execute_db_tool _ _ _ _ _) as [[r|e] stmts]; reflexivity.
Qed.

Lemma run_tools_calls calls w :
  llm_calls (run_tools E dispatch calls w).2 = llm_calls w.
Proof.
  revert w. induction calls as [|tc calls IH]; intros w; [reflexivity|].
  cbn [run_tools]. unfold bind at 1.
  pose proof (run_tool_calls tc w) as H1.
  destruct (run_tool E dispatch tc w) as [[r|e] w1]; cbn [snd] in H1;
    [|exact H1].
  unfold bind at 1. specialize (IH w1).
  destruct (run_tools E dispatch calls w1) as [[rs|e] w2]; cbn in *;
    congruence.
Qed.

(** The loop never asks for more completions than it has rounds. *)
Lemma loop_calls_bound rounds msgs w r w' :
  loop rounds msgs w = (r, w') ->
  llm_calls w <= llm_calls w' <= llm_calls w + rounds.
Proof.
  revert msgs w. induction rounds as [|rounds IH]; intros msgs w H.
  - cbn in H. injection H as <- <-. lia.
  - cbn [tool_use_loop] in H. unfold bind at 1, call_complete in H.
    destruct (complete E p model system msgs tools (llm_calls w))
      as [result|e]; [|injection H as <- <-; cbn; lia].
    destruct (tool_calls result) as [|tc calls] eqn:Hc;
      [cbn in H; injection H as <- <-; cbn; lia|].
    unfold bind at 1 in H.
    match type of H with
    | context [run_tools E dispatch ?cs ?w1] =>
        pose proof (run_tools_calls cs w1) as H1;
        destruct (run_tools E dispatch cs w1) as [[rs|e] w2]
    end; cbn [snd llm_calls] in H1;
      [|injection H as <- <-; lia].
    apply IH in H. lia.
Qed.

Lemma scripted_shift base rounds R :
  scripted E p model system tools dispatch base (S rounds) R -> scripted E p model system tools dispatch (S base) rounds (fun k => R (S k)).
Proof.
  intros [Hc Ht]. split.
  - intros k msgs Hk. replace (S base + k) with (base + S k) by lia.
    apply Hc. lia.
  - intros k w Hk. apply Ht. lia.
Qed.

Lemma loop_step rounds R msgs w :
  scripted E p model system tools dispatch (llm_calls w) (S rounds) R -> tool_calls (R 0) ≠ [] ->
  exists msgs' w1,
    loop (S rounds) msgs w = loop rounds msgs' w1
    /\ llm_calls w1 = S (llm_calls w).
Proof.
  intros [Hc Ht] Hne. cbn [tool_use_loop]. unfold bind at 1, call_complete.
  specialize (Hc 0 msgs ltac:(lia)). rewrite Nat.add_0_r in Hc. rewrite Hc.
  destruct (tool_calls (R 0)) as [|tc calls] eqn:Hcalls; [contradiction|].
  unfold bind at 1.
  match goal with
  | |- context [run_tools E dispatch ?cs ?w1] =>
      pose proof (run_tools_calls cs w1) as H1;
      destruct (Ht 0 w1 ltac:(lia)) as [rs Hrs];
      rewrite Hcalls in Hrs;
      destruct (run_tools E dispatch cs w1) as [[rs'|e] w2]
  end; cbn [fst snd llm_calls] in *; [|discriminate].
  eexists _, w2. split; [reflexivity | exact H1].
Qed.

Lemma loop_final_answer rounds R msgs w j :
  scripted E p model system tools dispatch (llm_calls w) rounds R -> j < rounds ->
  (forall k, k < j -> tool_calls (R k) ≠ []) -> tool_calls (R j) = [] ->
  exists w', loop rounds msgs w = (Returned (text (R j)), w')
             /\ llm_calls w' = llm_calls w + j + 1.
Proof.
  revert R msgs w j. induction rounds as [|rounds IH];
    intros R msgs w j Hs Hj Hbefore Hlast; [lia|].
  destruct j as [|j].
  - destruct Hs as [Hc _]. cbn [tool_use_loop]. unfold bind at 1, call_complete.
    specialize (Hc 0 msgs ltac:(lia)). rewrite Nat.add_0_r in Hc.
    rewrite Hc, Hlast. eexists. split; [reflexivity|]. cbn. lia.
  - destruct (loop_step rounds R msgs w Hs (Hbefore 0 ltac:(lia)))
      as (msgs' & w1 & -> & Hw1).
    apply scripted_shift in Hs. rewrite <- Hw1 in Hs.
    destruct (IH _ msgs' w1 j Hs ltac:(lia)) as [w' [Hrun Hcalls]].
    + intros k Hk. apply Hbefore. lia.
    + exact Hlast.
    + exists w'. split; [exact Hrun | lia].
Qed.

Lemma loop_exhausted rounds R msgs w :
  scripted E p model system tools dispatch (llm_calls w) rounds R ->
  (forall k, k < rounds -> tool_calls (R k) ≠ []) ->
  exists w', loop rounds msgs w = (Returned max_rounds_reply, w')
             /\ llm_calls w' = llm_calls w + rounds.
Proof.
  revert R msgs w. induction rounds as [|rounds IH]; intros R msgs w Hs Hall.
  - exists w. split; [reflexivity | lia].
  - destruct (loop_step rounds R msgs w Hs (Hall 0 ltac:(lia)))
      as (msgs' & w1 & -> & Hw1).
    apply scripted_shift in Hs. rewrite <- Hw1 in Hs.
    destruct (IH _ msgs' w1 Hs) as [w' [Hrun Hcalls]].
    + intros k Hk. apply Hall. lia.
    + exists w'. split; [exact Hrun | lia].
Qed.

End ToolLoop.

Section InvocationRuns.
Import Py Llm DbTools Runtime Invoker.
Variable E : Env.

Lemma get_or_create_frame agent_id sender_id sender_name channel w :
  let w1 := (get_or_create_conversation E agent_id sender_id sender_name
               channel w).2 in
  resources (view w1) = resources (view w)
  /\ llm_calls w1 = llm_calls w
  /\ _providers w1 = _providers w.
Proof.
  unfold get_or_create_conversation, bind, gets.
  destruct (List.filter _ _) as [|conv [|conv' rows]]; cbn;
    try (repeat split; reflexivity).
  destruct (_ && _); repeat split; reflexivity.
Qed.

(** Once the conversation is found and the provider selected, the
    invocation returns what the tool-use loop returns. *)
Lemma invoke_agent_runs_loop agent sender_id sender_name message channel
    w conv w1 p cache :
  get_or_create_conversation E (Agent.id agent) sender_id sender_name channel w
  = (Returned conv, w1) ->
  get_provider (provider_name_of agent) (_providers w) = (Returned p, cache) ->
  exists msgs w2,
    llm_calls w2 = llm_calls w
    /\ forall t w3,
         tool_use_loop E p (Agent.model agent) (system_prompt_of agent)
           (agent_tools agent (view w)).1 (agent_tools agent (view w)).2
           MAX_ROUNDS msgs w2 = (Returned t, w3) ->
         exists w', invoke_agent E agent sender_id sender_name message channel w
                    = (Returned t, w')
                    /\ llm_calls w' = llm_calls w3.
Proof.
  intros Hconv Hsel.
  pose proof (get_or_create_frame (Agent.id agent) sender_id sender_name
                channel w) as Hframe.
  rewrite Hconv in Hframe. cbn [snd] in Hframe.
  destruct Hframe as (Hres & Hcalls & Hcache).
  eexists _, _. split; cycle 1.
  - intros t w3 Hloop.
    destruct (invoke_agent E agent sender_id sender_name message channel w)
      as [r w'] eqn:Hinv.
    unfold invoke_agent in Hinv. unfold bind at 1 in Hinv. rewrite Hconv in Hinv.
    unfold bind at 1, load_history at 1, gets at 1 in Hinv.
    unfold bind at 1, _load_resources at 1, gets at 1 in Hinv.
    rewrite Hres in Hinv. unfold agent_tools in Hloop.
    destruct (_collect_db_tools _) as [tool_defs dispatch].
    cbn [fst snd] in Hloop.
    unfold bind at 1, attempt, lookup_provider in Hinv.
    rewrite Hcache, Hsel in Hinv. unfold bind at 1 in Hinv.
    rewrite Hloop in Hinv.
    destruct (persist_exchange_spec E conv message t w3) as (w4 & Hp & Hw4).
    unfold bind at 1 in Hinv. rewrite Hp in Hinv. injection Hinv as <- <-.
    exists w4. split; [reflexivity|].
    clear - Hp. unfold persist_exchange, bind, new_uuid, modify, commit in Hp.
    injection Hp as <-. reflexivity.
  - cbn. exact Hcalls.
Qed.

End InvocationRuns.

(** The rounds of the loop: it asks for at most ten completions, however
    the rounds end.  As long as the completions return and the tools they
    ask for return, it ends at the first round without tool calls, with
    the text of that round; and when each of the ten rounds asks for
    tools it returns the fixed reply, and so does the invocation around
    it. *)
Theorem tool_loop_rounds :
  Invoker.MAX_ROUNDS = 10
  /\ (forall E p model system tools dispatch msgs w,
        Runtime.llm_calls
          (Invoker.tool_use_loop E p model system tools dispatch
             Invoker.MAX_ROUNDS msgs w).2
        <= Runtime.llm_calls w + 10)
  /\ (forall E p model system tools dispatch msgs w R,
        scripted E p model system tools dispatch (Runtime.llm_calls w) 10 R ->
        (forall j, j < 10 ->
           (forall k, k < j -> Llm.tool_calls (R k) ≠ []) ->
           Llm.tool_calls (R j) = [] ->
           exists w',
             Invoker.tool_use_loop E p model system tools dispatch
               Invoker.MAX_ROUNDS msgs w = (Returned (Llm.text (R j)), w')
             /\ Runtime.llm_calls w' = Runtime.llm_calls w + j + 1)
        /\ ((forall k, k < 10 -> Llm.tool_calls (R k) ≠ []) ->
            exists w',
              Invoker.tool_use_loop E p model system tools dispatch
                Invoker.MAX_ROUNDS msgs w
              = (Returned "[Max tool rounds reached without a final answer]"%string, w')
              /\ Runtime.llm_calls w' = Runtime.llm_calls w + 10))
  /\ (forall E agent sender_id sender_name message channel w conv w1 p cache R,
        Invoker.get_or_create_conversation E (Agent.id agent) sender_id
          sender_name channel w = (Returned conv, w1) ->
        Llm.get_provider (Invoker.provider_name_of agent) (Runtime._providers w)
        = (Returned p, cache) ->
        scripted E p (Agent.model agent) (Invoker.system_prompt_of agent)
          (agent_tools agent (Runtime.view w)).1
          (agent_tools agent (Runtime.view w)).2 (Runtime.llm_calls w) 10 R ->
        (forall k, k < 10 -> Llm.tool_calls (R k) ≠ []) ->
        exists w',
          Invoker.invoke_agent E agent sender_id sender_name message channel w
          = (Returned "[Max tool rounds reached without a final answer]"%string, w')
          /\ Runtime.llm_calls w' = Runtime.llm_calls w + 10).
Proof.
  split; [reflexivity|]. split; [|split].
  - intros E p model system tools dispatch msgs w.
    destruct (Invoker.tool_use_loop _ _ _ _ _ _ _ _ _) as [r w'] eqn:Hrun.
    apply loop_calls_bound in Hrun. cbn [snd].
    unfold Invoker.MAX_ROUNDS in Hrun. lia.
  - intros E p model system tools dispatch msgs w R Hs. split.
    + intros j Hj Hbefore Hlast.
      apply (loop_final_answer _ _ _ _ _ _ _ R); assumption.
    + intros Hall. apply (loop_exhausted _ _ _ _ _ _ _ R); assumption.
  - intros E agent sender_id sender_name message channel w conv w1 p cache R
      Hconv Hsel Hs Hall.
    destruct (invoke_agent_runs_loop E agent sender_id sender_name message
                channel w conv w1 p cache Hconv Hsel)
      as (msgs & w2 & Hcalls & Hinv).
    rewrite <- Hcalls in Hs.
    destruct (loop_exhausted _ _ _ _ _ _ _ R msgs w2 Hs Hall) as (w3 & Hloop & H3).
    destruct (Hinv _ _ Hloop) as (w' & Hrun & Hw').
    exists w'. split; [exact Hrun | lia].
Qed.

(* ================================================================== *)
(** * Conversations *)
(* ================================================================== *)

Section ConversationFacts.
Import Py Llm Runtime Invoker.
Variable E : Env.

Lemma same_conversation_key agent_id sender_id channel c :
  same_conversation agent_id sender_id channel c = true <->
  Conversation.agent_id c = agent_id /\ Conversation.sender_id c = sender_id
  /\ Conversation.channel c = channel.
Proof.
  unfold same_conversation. rewrite !andb_true_iff, !String.eqb_eq. tauto.
Qed.

Lemma filter_replace_found {A} (f : A -> bool) (c' : A) (l : list A) :
  f c' = true ->
  List.filter f ((fun c => if f c then c' else c) <$> l)
  = (fun _ => c') <$> List.filter f l.
Proof.
  intros Hc. induction l as [|a l IH]; [reflexivity|].
  cbn [fmap list_fmap List.filter]. destruct (f a) eqn:Ha.
  - rewrite Hc. cbn [fmap list_fmap]. f_equal. exact IH.
  - rewrite Ha. exact IH.
Qed.

(** With at most one row for the key, the call returns a conversation
    and leaves exactly one row for the key, the one it returns. *)
Lemma get_or_create_returns agent_id sender_id sender_name channel w :
  length (List.filter (same_conversation agent_id sender_id channel)
            (conversations (view w))) <= 1 ->
  exists c w',
    get_or_create_conversation E agent_id sender_id sender_name channel w
    = (Returned c, w')
    /\ List.filter (same_conversation agent_id sender_id channel)
         (conversations (view w')) = [c].
Proof.
  intros Hrows. unfold get_or_create_conversation, bind, gets.
  destruct (List.filter _ _) as [|conv [|conv' rows]] eqn:Hf;
    [| |simpl in Hrows; lia].
  - eexists _, _. split; [reflexivity|]. cbn.
    rewrite List.filter_app, Hf. cbn.
    unfold same_conversation. cbn. rewrite !String.eqb_refl. reflexivity.
  - assert (Hconv : same_conversation agent_id sender_id channel conv = true).
    { assert (Hin : In conv (List.filter
                (same_conversation agent_id sender_id channel)
                (conversations (view w)))) by (rewrite Hf; left; reflexivity).
      apply filter_In in Hin. tauto. }
    destruct (_ && _).
    + eexists _, _. split; [reflexivity|]. cbn.
      rewrite filter_replace_found, Hf; [reflexivity|].
      apply same_conversation_key in Hconv.
      apply same_conversation_key. exact Hconv.
    + eexists _, _. split; [reflexivity | exact Hf].
Qed.

(** A later call with the same key finds that row again. *)
Lemma get_or_create_found agent_id sender_id sender_name channel row w :
  List.filter (same_conversation agent_id sender_id channel)
    (conversations (view w)) = [row] ->
  exists c w',
    get_or_create_conversation E agent_id sender_id sender_name channel w
    = (Returned c, w')
    /\ Conversation.id c = Conversation.id row
    /\ length (conversations (view w')) = length (conversations (view w)).
Proof.
  intros Hf. unfold get_or_create_conversation, bind, gets. rewrite Hf.
  destruct (_ && _).
  - eexists _, _. split; [reflexivity|]. cbn. split; [reflexivity|].
    apply length_fmap.
  - eexists _, _. split; [reflexivity|]. split; reflexivity.
Qed.

End ConversationFacts.

(* ================================================================== *)
(** * The task executor *)
(* ================================================================== *)

Section ProcessFacts.
Import Py Llm Runtime Invoker LQueue.
Variable E : Env.

Lemma route_mentions_spec item ms w :
  exists w', route_mentions E item ms w = (Returned tt, w')
             /\ view w' = view w /\ store w' = store w
             /\ commits w' = commits w /\ sent w' = sent w.
Proof.
  revert w. induction ms as [|m ms IH]; intros w.
  - exists w. repeat split; reflexivity.
  - destruct (route_mentions E item (m :: ms) w) as [r wf] eqn:Hrun.
    cbn [route_mentions] in Hrun.
    unfold bind at 1, hub_log at 1, broadcast at 1, modify at 1 in Hrun.
    unfold bind at 1, enqueue at 1, bind at 1, new_uuid at 1 in Hrun.
    unfold bind at 1, put_queue at 1, modify at 1 in Hrun.
    unfold bind at 1, hub_log at 1, broadcast at 1, modify at 1 in Hrun.
    unfold ret at 1 in Hrun.
    match type of Hrun with
    | route_mentions E item ms ?w1 = _ =>
        assert (Hw1 : view w1 = view w /\ store w1 = store w
                      /\ commits w1 = commits w /\ sent w1 = sent w)
          by (repeat split; reflexivity);
        remember w1 as wx eqn:Hwx in Hrun, Hw1; clear Hwx
    end.
    destruct (IH wx) as (w' & Hr & Hv & Hs & Hc & Hd).
    rewrite Hr in Hrun. injection Hrun as <- <-.
    exists w'. split; [reflexivity|].
    destruct Hw1 as (Hv1 & Hs1 & Hc1 & Hd1).
    rewrite Hv, Hs, Hc, Hd. tauto.
Qed.

(** The [try] branch when the invocation returns. *)
Lemma run_agent_returned item agent w reply w2 :
  invoke_agent E agent (conversation_key item) (sender_name item)
    (message item) (channel item) w = (Returned reply, w2) ->
  let team := team_agent_ids_of (agents (view w2)) (agent_id item) in
  exists wf,
    run_agent E item agent w = (Returned tt, wf)
    /\ let clean :=
         clean_reply_of reply
           (Router.extract_teammate_mentions reply (agent_id item) team) in
       tasks (view wf) = alter (mark_done clean) (task_id item) (tasks (view w2))
       /\ messages (view wf) = messages (view w2)
       /\ store wf = view wf
       /\ commits wf = commits w2 ++ [view wf]
       /\ sent wf = sent w2 ++ delivered E item clean.
Proof.
  intros Hinv team.
  assert (Hteam : _get_team_agent_ids (agent_id item) w2 = (Returned team, w2))
    by reflexivity.
  destruct (run_agent E item agent w) as [r wf] eqn:Hrun.
  unfold run_agent, try_except in Hrun. unfold bind at 1 in Hrun.
  rewrite Hinv in Hrun. unfold bind at 1 in Hrun. rewrite Hteam in Hrun.
  cbv zeta in Hrun.
  set (mentions := Router.extract_teammate_mentions reply (agent_id item) team) in *.
  set (clean := clean_reply_of reply mentions) in *.
  unfold bind at 1, update_task at 1, modify at 1 in Hrun.
  unfold bind at 1, commit at 1, modify at 1 in Hrun.
  unfold bind at 1, task_update at 1, bind at 1, gets at 1, broadcast at 1,
    modify at 1 in Hrun.
  unfold bind at 1, hub_log at 1, broadcast at 1, modify at 1 in Hrun.
  unfold bind at 1 in Hrun.
  match type of Hrun with
  | context [route_mentions E item mentions ?w1] =>
      destruct (route_mentions_spec item mentions w1)
        as (w3 & Hroute & Hv & Hs & Hc & Hd);
      rewrite Hroute in Hrun
  end.
  cbn [view store commits sent with_view] in Hv, Hs, Hc, Hd.
  unfold delivered, _send_reply in *.
  destruct (truthy_opt (parent_task_id item)).
  - injection Hrun as <- <-. eexists. split; [reflexivity|].
    rewrite Hv, Hs, Hc, Hd, app_nil_r. cbn. tauto.
  - destruct (bridge_post E _) as [e|]; injection Hrun as <- <-;
      eexists; (split; [reflexivity|]); cbn;
      rewrite Hv, Hs, Hc, Hd, ?app_nil_r; cbn; tauto.
Qed.

(** The [except] branch. *)
Lemma run_agent_raised item agent w e w2 :
  invoke_agent E agent (conversation_key item) (sender_name item)
    (message item) (channel item) w = (Raised e, w2) ->
  exists wf,
    run_agent E item agent w = (Returned tt, wf)
    /\ tasks (view wf) = alter (mark_failed e) (task_id item) (tasks (view w2))
    /\ messages (view wf) = messages (view w2)
    /\ store wf = view wf
    /\ commits wf = commits w2 ++ [view wf]
    /\ sent wf = sent w2.
Proof.
  intros Hinv. unfold run_agent, try_except. unfold bind at 1. rewrite Hinv.
  eexists. split; [reflexivity|]. cbn. tauto.
Qed.

End ProcessFacts.

Section ProcessShape.
Import Py Llm Runtime Invoker LQueue.
Variable E : Env.

(** The two ways through [_process]: the agent is missing, or the [try]
    statement runs in a state [w1] where the new row is committed. *)
Lemma process_shape item w :
  exists wf,
    _process E item w = (Returned tt, wf)
    /\ ((Router.agent_by_id (store w) (agent_id item) = None
         /\ commits wf = commits w ++ [registered item w; view wf]
         /\ tasks (view wf)
            = alter (mark_failed (not_found item)) (task_id item)
                (tasks (registered item w))
         /\ messages (view wf) = messages (store w)
         /\ store wf = view wf)
        \/ (exists agent w1,
              Router.agent_by_id (store w) (agent_id item) = Some agent
              /\ view w1 = registered item w
              /\ store w1 = registered item w
              /\ commits w1 = commits w ++ [registered item w]
              /\ _providers w1 = _providers w
              /\ sent w1 = sent w
              /\ run_agent E item agent w1 = (Returned tt, wf))).
Proof.
  destruct (_process E item w) as [r wf] eqn:Hrun. exists wf.
  unfold _process in Hrun. cbv zeta in Hrun.
  unfold bind at 1, open_session at 1, modify at 1 in Hrun.
  unfold bind at 1, add_task at 1, modify at 1 in Hrun.
  unfold bind at 1, commit at 1, modify at 1 in Hrun.
  unfold bind at 1, task_update at 1, bind at 1, gets at 1, broadcast at 1,
    modify at 1 in Hrun.
  unfold bind at 1, gets at 1 in Hrun.
  cbn [view store commits _providers uuids llm_calls sql_log events queue
         sent with_view] in Hrun.
  destruct (Router.agent_by_id _ (agent_id item)) as [agent|] eqn:Hagent
    in Hrun;
    [ change (Router.agent_by_id (store w) (agent_id item) = Some agent)
        in Hagent
    | change (Router.agent_by_id (store w) (agent_id item) = None)
        in Hagent ];
    rewrite Hagent.
  - unfold bind at 1, hub_log at 1, broadcast at 1, modify at 1 in Hrun.
    cbv beta in Hrun.
    cbn [view store commits _providers uuids llm_calls sql_log events queue
           sent] in Hrun.
    match type of Hrun with
    | run_agent E item agent ?w1 = _ =>
        destruct (invoke_agent_cases E agent (conversation_key item)
                    (sender_name item) (message item) (channel item) w1)
          as (ri & w2 & Hinv & _);
        assert (Hr : r = Returned tt);
        [ destruct ri as [reply|e];
          [ destruct (run_agent_returned E item agent w1 reply w2 Hinv)
              as (wf' & Hrun' & _)
          | destruct (run_agent_raised E item agent w1 e w2 Hinv)
              as (wf' & Hrun' & _) ];
          congruence
        | subst r; split; [reflexivity|]; right; exists agent, w1;
          repeat split; try reflexivity; exact Hrun ]
    end.
  - injection Hrun as <- <-. split; [reflexivity|]. left.
    split; [reflexivity|].
    split; [cbn; rewrite <- app_assoc; reflexivity|].
    repeat split; reflexivity.
Qed.

(** The invocation leaves the task rows alone, and commits at most one
    state, whose task rows are those of the session. *)
Lemma invoke_agent_tasks agent sender_id sender_name message channel w r w' :
  invoke_agent E agent sender_id sender_name message channel w = (r, w') ->
  tasks (view w') = tasks (view w)
  /\ (commits w' = commits w \/ commits w' = commits w ++ [view w']).
Proof.
  intros Hinv.
  destruct (invoke_agent_cases E agent sender_id sender_name message channel w)
    as (r0 & w0 & Hinv0 & Hcases).
  rewrite Hinv in Hinv0. injection Hinv0 as <- <-.
  destruct Hcases as [(e & _ & Q) | [(e & _ & _ & Q) | (p & t & cid & w1 & _ & _ & Q & P)]].
  - destruct Q. split; [assumption | left; assumption].
  - destruct Q. split; [assumption | left; assumption].
  - destruct Q, P as (i1 & i2 & Hm & Ht & Ha & Hs & Hc & _).
    split; [congruence | right; congruence].
Qed.

End ProcessShape.

(* ================================================================== *)
(** * The conversation of a task *)
(* ================================================================== *)

#[local] Instance same_rows_preorder : PreOrder Rows.same_rows.
Proof.
  split.
  - intros w. repeat split.
  - intros w1 w2 w3 (? & ? & ?) (? & ? & ?). repeat split; congruence.
Qed.

Section ConversationOfTask.
Import Py Llm DbTools Runtime Invoker LQueue Rows.
Variable E : Env.

Ltac rows_step :=
  first
    [ apply (preserves_ret same_rows) | apply (preserves_raise same_rows)
    | apply (preserves_gets same_rows)
    | apply (preserves_modify same_rows); intros ?; repeat split
    | intros ?; repeat split ].

Lemma rows_hub_log level text : preserves same_rows (hub_log level text).
Proof. rows_step. Qed.

Lemma rows_enqueue agent_id sender_id sender_name message channel parent group :
  preserves same_rows
    (enqueue E agent_id sender_id sender_name message channel parent group).
Proof.
  unfold enqueue.
  apply (preserves_bind same_rows); [rows_step | intros i].
  apply (preserves_bind same_rows); [rows_step | intros _].
  apply (preserves_bind same_rows); [apply rows_hub_log | intros; rows_step].
Qed.

Lemma rows_route_mentions item ms : preserves same_rows (route_mentions E item ms).
Proof.
  induction ms as [|m ms IH]; [rows_step|]. cbn [route_mentions].
  apply (preserves_bind same_rows); [apply rows_hub_log | intros _].
  apply (preserves_bind same_rows); [apply rows_enqueue | intros _]. exact IH.
Qed.

Lemma rows_run_tool dispatch tc : preserves same_rows (run_tool E dispatch tc).
Proof.
  unfold run_tool. destruct (dispatch !! Llm.name tc) as [[url allowed]|];
    [|rows_step].
  destruct (after_double_underscore _); [|rows_step].
  destruct (execute_db_tool _ _ _ _ _) as [r stmts].
  apply (preserves_bind same_rows); [rows_step |].
  intros _. destruct r; rows_step.
Qed.

Lemma rows_run_tools dispatch calls : preserves same_rows (run_tools E dispatch calls).
Proof.
  induction calls as [|tc calls IH]; [rows_step|]. cbn [run_tools].
  apply (preserves_bind same_rows); [apply rows_run_tool |]. intros r.
  apply (preserves_bind same_rows); [exact IH | intros; rows_step].
Qed.

Lemma rows_tool_use_loop p model system tools dispatch rounds msgs :
  preserves same_rows (tool_use_loop E p model system tools dispatch rounds msgs).
Proof.
  revert msgs. induction rounds as [|rounds IH]; intros msgs; [rows_step|].
  cbn [tool_use_loop].
  apply (preserves_bind same_rows); [rows_step |]. intros result.
  destruct (tool_calls result); [rows_step|].
  apply (preserves_bind same_rows); [apply rows_run_tools |]. intros rs. apply IH.
Qed.

Lemma rows_lookup_provider n : preserves same_rows (lookup_provider n).
Proof.
  intros w. unfold lookup_provider.
  destruct (get_provider n (_providers w)). repeat split.
Qed.

Lemma invoke_agent_rows agent sender_id sender_name message channel w c w1 :
  get_or_create_conversation E (Agent.id agent) sender_id sender_name channel w
  = (Returned c, w1) ->
  let w' := (invoke_agent E agent sender_id sender_name message channel w).2 in
  conversations (view w') = conversations (view w1)
  /\ agents (view w') = agents (view w)
  /\ exchange (Conversation.id c) message (messages (view w)) (messages (view w')).
Proof.
  intros Hconv w'. subst w'.
  pose proof (quiet_get_or_create E (Agent.id agent) sender_id sender_name
                channel w) as Q1.
  rewrite Hconv in Q1. cbn [snd] in Q1. destruct Q1 as [Qa Qm _ _ _ _ _ _].
  destruct (invoke_agent E agent sender_id sender_name message channel w)
    as [r w'] eqn:Hrun. cbn [snd].
  unfold invoke_agent in Hrun. unfold bind at 1 in Hrun. rewrite Hconv in Hrun.
  unfold bind at 1 in Hrun. unfold load_history at 1, gets at 1 in Hrun.
  unfold bind at 1 in Hrun. unfold _load_resources at 1, gets at 1 in Hrun.
  destruct (_collect_db_tools _) as [tool_defs dispatch].
  unfold bind at 1 in Hrun. unfold attempt in Hrun.
  pose proof (rows_lookup_provider (provider_name_of agent) w1) as Q2.
  destruct (lookup_provider (provider_name_of agent) w1) as [[p|e] w2];
    cbn [snd] in Q2; destruct Q2 as (Q2c & Q2m & Q2a).
  2:{ injection Hrun as <- <-. split; [exact Q2c|]. split; [congruence|].
      left. congruence. }
  unfold bind at 1 in Hrun.
  match type of Hrun with
  | context [tool_use_loop E p ?m ?s ?t ?d ?n ?ms w2] =>
      pose proof (rows_tool_use_loop p m s t d n ms w2) as Q3;
      destruct (tool_use_loop E p m s t d n ms w2) as [[final_text|e] w3]
  end; cbn [snd] in Q3; destruct Q3 as (Q3c & Q3m & Q3a).
  2:{ injection Hrun as <- <-. split; [congruence|]. split; [congruence|].
      left. congruence. }
  injection Hrun as <- <-. cbn.
  split; [congruence|]. split; [congruence|]. right.
  eexists _, _, final_text. rewrite Q3m, Q2m, Qm, <- app_assoc. reflexivity.
Qed.

(** [run_agent] once the invocation is over: only task rows change, and
    the session is committed. *)
Lemma run_agent_rows item agent w :
  let w2 := (invoke_agent E agent (conversation_key item) (sender_name item)
               (message item) (channel item) w).2 in
  let wf := (run_agent E item agent w).2 in
  same_rows w2 wf /\ store wf = view wf.
Proof.
  intros w2 wf. subst w2 wf.
  destruct (invoke_agent E agent (conversation_key item) (sender_name item)
              (message item) (channel item) w) as [[reply|e] w2] eqn:Hinv;
    cbn [snd].
  - destruct (run_agent_returned E item agent w reply w2 Hinv)
      as (wf & Hrun' & _ & _ & Hs & _).
    destruct (run_agent E item agent w) as [r wf'] eqn:Hrun.
    injection Hrun' as -> ->. cbn [snd]. split; [|exact Hs].
    unfold run_agent, try_except in Hrun. unfold bind at 1 in Hrun.
    rewrite Hinv in Hrun. unfold bind at 1, _get_team_agent_ids, gets in Hrun.
    cbv zeta in Hrun.
    unfold bind at 1, update_task at 1, modify at 1 in Hrun.
    unfold bind at 1, commit at 1, modify at 1 in Hrun.
    unfold bind at 1, task_update at 1, bind at 1, gets at 1, broadcast at 1,
      modify at 1 in Hrun.
    unfold bind at 1, hub_log at 1, broadcast at 1, modify at 1 in Hrun.
    unfold bind at 1 in Hrun.
    match type of Hrun with
    | context [route_mentions E item ?ms ?w1] =>
        pose proof (rows_route_mentions item ms w1) as Q;
        destruct (route_mentions_spec E item ms w1) as (w3 & Hroute & _);
        rewrite Hroute in Hrun, Q
    end.
    cbn [snd] in Q. destruct Q as (Qc & Qm & Qa). cbn in Qc, Qm, Qa.
    destruct (truthy_opt (parent_task_id item)).
    + injection Hrun as <-. repeat split; assumption.
    + unfold _send_reply in Hrun.
      destruct (bridge_post E _); injection Hrun as <-;
        repeat split; cbn; assumption.
  - destruct (run_agent_raised E item agent w e w2 Hinv)
      as (wf & Hrun & _ & _ & Hs & _).
    rewrite Hrun. cbn [snd]. split; [|exact Hs].
    unfold run_agent, try_except in Hrun. unfold bind at 1 in Hrun.
    rewrite Hinv in Hrun. injection Hrun as <-. repeat split.
Qed.

Lemma agent_by_id_id db i a : Router.agent_by_id db i = Some a -> Agent.id a = i.
Proof.
  unfold Router.agent_by_id. intros H. apply find_some in H as [_ H].
  apply String.eqb_eq in H. exact H.
Qed.

(** One run of [_process] for an agent that exists, with at most one
    stored row for the key of the task. *)
Lemma process_conversation item agent w :
  let same := same_conversation (agent_id item) (conversation_key item)
                (channel item) in
  let wf := (_process E item w).2 in
  Router.agent_by_id (store w) (agent_id item) = Some agent ->
  length (List.filter same (conversations (store w))) <= 1 ->
  exists c,
    List.filter same (conversations (store wf)) = [c]
    /\ agents (store wf) = agents (store w)
    /\ exchange (Conversation.id c) (message item)
         (messages (store w)) (messages (store wf))
    /\ (forall row, List.filter same (conversations (store w)) = [row] ->
          Conversation.id c = Conversation.id row
          /\ length (conversations (store wf)) = length (conversations (store w))).
Proof.
  intros same wf Hagent Hrows. subst wf.
  destruct (process_shape E item w) as (wf & Hrun & [(Hnone & _) | Hsome]);
    [congruence|].
  destruct Hsome as (agent' & w1 & Hagent' & Hv & Hs & _ & _ & _ & Hrun1).
  rewrite Hagent in Hagent'. injection Hagent' as <-.
  rewrite Hrun. cbn [snd].
  pose proof (agent_by_id_id _ _ _ Hagent) as Hid.
  assert (Hc1 : conversations (view w1) = conversations (store w))
    by (rewrite Hv; reflexivity).
  assert (Hm1 : messages (view w1) = messages (store w))
    by (rewrite Hv; reflexivity).
  assert (Ha1 : agents (view w1) = agents (store w))
    by (rewrite Hv; reflexivity).
  destruct (get_or_create_returns E (Agent.id agent) (conversation_key item)
              (sender_name item) (channel item) w1) as (c & w1' & Hget & Hrow).
  { rewrite Hc1, Hid. exact Hrows. }
  destruct (invoke_agent_rows agent (conversation_key item) (sender_name item)
              (message item) (channel item) w1 c w1' Hget) as (Ic & Ia & Im).
  destruct (run_agent_rows item agent w1) as ((Rc & Rm & Ra) & Rs).
  rewrite Hrun1 in Rc, Rm, Ra, Rs. cbn [snd] in Rc, Rm, Ra, Rs.
  exists c. rewrite Rs, Rc, Rm, Ra, Ic, Ia, Ha1. rewrite Hm1 in Im.
  rewrite Hid in Hrow. split; [exact Hrow|]. split; [reflexivity|].
  split; [exact Im|].
  intros row Hfound.
  destruct (get_or_create_found E (Agent.id agent) (conversation_key item)
              (sender_name item) (channel item) row w1)
    as (c' & w1'' & Hget' & Hsame & Hlen).
  { rewrite Hc1, Hid. exact Hfound. }
  rewrite Hget in Hget'. injection Hget' as <- <-.
  split; [exact Hsame|]. rewrite Hlen, Hc1. reflexivity.
Qed.

End ConversationOfTask.

(** C6: the conversation key of a task is its group id when it has one and
    its sender id otherwise, and [_process] hands that key to the
    invocation.  After a task of a group has been processed, the stored
    conversations hold exactly one row for the agent, the group and the
    channel, with the group id as its sender id; a second task of the
    group for that agent and channel, whoever its sender is, finds that
    row: the id stays, no row is added, and the messages that either task
    stores are messages of that one conversation.  A task without a group
    id gets the row of its sender in the same way. *)
Theorem group_tasks_share_conversation (E : Runtime.Env)
    (item1 item2 : Runtime.Item) (g : string) (agent : Agent.t)
    (w : Runtime.World) :
  Runtime.group_id item1 = Some g -> Runtime.group_id item2 = Some g ->
  g ≠ ""%string ->
  Runtime.agent_id item1 = Runtime.agent_id item2 ->
  Runtime.channel item1 = Runtime.channel item2 ->
  Router.agent_by_id (Runtime.store w) (Runtime.agent_id item1) = Some agent ->
  length (List.filter
            (Invoker.same_conversation (Runtime.agent_id item1) g
               (Runtime.channel item1))
            (conversations (Runtime.store w))) <= 1 ->
  let same := Invoker.same_conversation (Runtime.agent_id item1) g
                (Runtime.channel item1) in
  let w1 := (LQueue._process E item1 w).2 in
  let w2 := (LQueue._process E item2 w1).2 in
  LQueue.conversation_key item1 = g /\ LQueue.conversation_key item2 = g
  /\ (forall item, Py.truthy_opt (Runtime.group_id item) = false ->
        LQueue.conversation_key item = Runtime.sender_id item)
  /\ (exists c1 c2,
        List.filter same (conversations (Runtime.store w1)) = [c1]
        /\ List.filter same (conversations (Runtime.store w2)) = [c2]
        /\ Conversation.sender_id c1 = g
        /\ Conversation.id c2 = Conversation.id c1
        /\ length (conversations (Runtime.store w2))
           = length (conversations (Runtime.store w1))
        /\ Rows.exchange (Conversation.id c1) (Runtime.message item1)
             (messages (Runtime.store w)) (messages (Runtime.store w1))
        /\ Rows.exchange (Conversation.id c1) (Runtime.message item2)
             (messages (Runtime.store w1)) (messages (Runtime.store w2)))
  /\ (forall item agent' w',
        Py.truthy_opt (Runtime.group_id item) = false ->
        Router.agent_by_id (Runtime.store w') (Runtime.agent_id item)
        = Some agent' ->
        let same' := Invoker.same_conversation (Runtime.agent_id item)
                       (Runtime.sender_id item) (Runtime.channel item) in
        length (List.filter same' (conversations (Runtime.store w'))) <= 1 ->
        exists c,
          List.filter same'
            (conversations (Runtime.store (LQueue._process E item w').2)) = [c]
          /\ Rows.exchange (Conversation.id c) (Runtime.message item)
               (messages (Runtime.store w'))
               (messages (Runtime.store (LQueue._process E item w').2))).
Proof.
  intros Hg1 Hg2 Hne Hagent Hchannel Hfound Hrows same w1 w2.
  assert (Hk1 : LQueue.conversation_key item1 = g).
  { unfold LQueue.conversation_key. rewrite Hg1. destruct g; [contradiction|reflexivity]. }
  assert (Hk2 : LQueue.conversation_key item2 = g).
  { unfold LQueue.conversation_key. rewrite Hg2. destruct g; [contradiction|reflexivity]. }
  assert (Hk : forall item, Py.truthy_opt (Runtime.group_id item) = false ->
                 LQueue.conversation_key item = Runtime.sender_id item).
  { intros item Hno. unfold LQueue.conversation_key.
    destruct (Runtime.group_id item) as [[|c s]|]; [reflexivity|discriminate|reflexivity]. }
  split; [exact Hk1|]. split; [exact Hk2|]. split; [exact Hk|]. split.
  - destruct (process_conversation E item1 agent w Hfound) as (c1 & Hc1 & Ha1 & Hm1 & _).
    { rewrite Hk1. exact Hrows. }
    rewrite Hk1 in Hc1. fold w1 same in Hc1, Ha1, Hm1.
    assert (Hfound2 : Router.agent_by_id (Runtime.store w1) (Runtime.agent_id item2)
                      = Some agent).
    { unfold Router.agent_by_id in *. rewrite Ha1, <- Hagent. exact Hfound. }
    destruct (process_conversation E item2 agent w1 Hfound2)
      as (c2 & Hc2 & _ & Hm2 & Hsame).
    { rewrite Hk2, <- Hagent, <- Hchannel. fold same. rewrite Hc1. simpl. lia. }
    rewrite Hk2, <- Hagent, <- Hchannel in Hc2, Hsame. fold w2 same in Hc2, Hm2, Hsame.
    destruct (Hsame c1 Hc1) as [Hid Hlen].
    exists c1, c2. split; [exact Hc1|]. split; [exact Hc2|]. split.
    { assert (Hin : In c1 (List.filter same (conversations (Runtime.store w1))))
        by (rewrite Hc1; left; reflexivity).
      apply filter_In in Hin as [_ Hin].
      apply same_conversation_key in Hin. tauto. }
    split; [exact Hid|]. split; [exact Hlen|]. split; [exact Hm1|].
    rewrite <- Hid. exact Hm2.
  - intros item agent' w' Hno Hfound' same' Hrows'.
    destruct (process_conversation E item agent' w' Hfound') as (c & Hc & _ & Hm & _).
    { rewrite (Hk item Hno). exact Hrows'. }
    rewrite (Hk item Hno) in Hc. exists c. split; [exact Hc | exact Hm].
Qed.

Section LifecycleFacts.
Import Py Llm Runtime Invoker LQueue Lifecycle.
Variable E : Env.

Lemma history_app tid cs1 cs2 :
  task_history tid (cs1 ++ cs2) = task_history tid cs1 ++ task_history tid cs2.
Proof. apply omap_app. Qed.

(** The rows of a task that one run of [_process] commits: the new row,
    once more when the invocation commits its messages, and the row with
    its final status. *)
Lemma process_history item w :
  exists extra final,
    commits (_process E item w).2 = commits w ++ extra
    /\ ((exists clean, final = mark_done clean (new_task item))
        \/ (exists e, final = mark_failed e (new_task item)))
    /\ (task_history (task_id item) extra = [new_task item; final]
        \/ task_history (task_id item) extra
           = [new_task item; new_task item; final]).
Proof.
  destruct (process_shape E item w) as (wf & -> & Hcases). cbn [snd].
  assert (Hreg : tasks (registered item w) !! task_id item
                 = Some (new_task item)) by apply lookup_insert_eq.
  destruct Hcases as [(Hnone & Hc & Ht & _) | (agent & w1 & _ & Hv & Hs & Hc & _ & _ & Hrun)].
  - exists [registered item w; view wf], (mark_failed (not_found item) (new_task item)).
    split; [exact Hc|]. split; [right; eauto|]. left.
    unfold task_history. cbn [omap list_omap].
    rewrite Hreg, Ht, lookup_alter_eq, Hreg. reflexivity.
  - destruct (invoke_agent E agent (conversation_key item) (sender_name item)
                (message item) (channel item) w1) as [ri w2] eqn:Hinv.
    destruct (invoke_agent_tasks E _ _ _ _ _ _ _ _ Hinv) as [Ht2 Hc2].
    assert (Hrow2 : tasks (view w2) !! task_id item = Some (new_task item))
      by (rewrite Ht2, Hv; exact Hreg).
    assert (exists f,
              ((exists clean, f = mark_done clean) \/ (exists e, f = mark_failed e))
              /\ tasks (view wf) = alter f (task_id item) (tasks (view w2))
              /\ commits wf = commits w2 ++ [view wf])
      as (f & Hf & Htf & Hcf).
    { destruct ri as [reply|e].
      - destruct (run_agent_returned E item agent w1 reply w2 Hinv)
          as (wf' & Hrun' & Hprops).
        rewrite Hrun in Hrun'. injection Hrun' as <-.
        cbv zeta in Hprops. destruct Hprops as (Ht & _ & _ & Hcm & _).
        eexists. split; [left; eauto|]. split; [exact Ht | exact Hcm].
      - destruct (run_agent_raised E item agent w1 e w2 Hinv)
          as (wf' & Hrun' & Ht & _ & _ & Hcm & _).
        rewrite Hrun in Hrun'. injection Hrun' as <-.
        eexists. split; [right; eauto|]. split; [exact Ht | exact Hcm]. }
    assert (Hrowf : tasks (view wf) !! task_id item = Some (f (new_task item)))
      by (rewrite Htf, lookup_alter_eq, Hrow2; reflexivity).
    exists (drop (length (commits w)) (commits wf)), (f (new_task item)).
    assert (Hfinal : (exists clean, f (new_task item) = mark_done clean (new_task item))
                     \/ (exists e, f (new_task item) = mark_failed e (new_task item))).
    { destruct Hf as [[c ->] | [e ->]]; [left | right]; eauto. }
    destruct Hc2 as [Hc2 | Hc2]; rewrite Hcf, Hc2, Hc, <- ?app_assoc;
      rewrite drop_app_length; (split; [reflexivity|]); (split; [exact Hfinal|]).
    + left. unfold task_history. cbn [app omap list_omap].
      rewrite Hreg, Hrowf. reflexivity.
    + right. unfold task_history. cbn [app omap list_omap].
      rewrite Hreg, Hrow2, Hrowf. reflexivity.
Qed.

End LifecycleFacts.

(** C1, amended: the rows of a task that [_process] persists start with
    status [processing] (the status [queued] is never stored), move only
    forward to [done] or [failed], where they end, and at each commit
    [result] is set iff the status is [done] and [error] iff it is
    [failed]. *)
Theorem task_lifecycle (E : Runtime.Env) (item : Runtime.Item) (w : Runtime.World) :
  exists extra,
    Runtime.commits (LQueue._process E item w).2 = Runtime.commits w ++ extra
    /\ Lifecycle.lifecycle Task.processing
         (LQueue.task_history (Runtime.task_id item) extra)
    /\ Lifecycle.terminal (LQueue.task_history (Runtime.task_id item) extra).
Proof.
  destruct (process_history E item w) as (extra & final & Hc & Hfinal & Hh).
  exists extra. split; [exact Hc|].
  assert (Hnew : Lifecycle.consistent (LQueue.new_task item)).
  { split; cbn; split; intros H; try discriminate; destruct H; discriminate. }
  assert (Hst : Task.status final = Task.done \/ Task.status final = Task.failed).
  { destruct Hfinal as [[c ->] | [e ->]]; [left | right]; reflexivity. }
  assert (Hcons : Lifecycle.consistent final).
  { destruct Hfinal as [[c ->] | [e ->]]; split; cbn; split; intros H;
      try discriminate; try reflexivity; try (eexists; reflexivity);
      destruct H; discriminate. }
  assert (Hfw : Lifecycle.forward Task.processing (Task.status final)).
  { right. destruct Hst as [-> | ->]; cbn; lia. }
  destruct Hh as [-> | ->]; (split; [|eexists; split; [reflexivity | exact Hst]]).
  - split; [reflexivity|]. split; [cbn; tauto|].
    repeat (apply List.Forall_cons; [assumption|]). apply List.Forall_nil.
  - split; [reflexivity|]. split.
    + cbn. split; [left; reflexivity|]. tauto.
    + repeat (apply List.Forall_cons; [assumption|]). apply List.Forall_nil.
Qed.

(** The two branches of [clean_reply]: when the invocation returns a
    reply, the task is stored as [done] with the reply stripped of its
    tags if the scan found a delegation for a teammate, and with the reply
    as it came if the scan found none; a top-level task delivers that
    same text. *)
Theorem stored_result_is_clean_reply (E : Runtime.Env) (item : Runtime.Item)
    (agent : Agent.t) (w : Runtime.World) (reply : string) (w2 : Runtime.World) :
  Invoker.invoke_agent E agent (LQueue.conversation_key item)
    (Runtime.sender_name item) (Runtime.message item) (Runtime.channel item) w
  = (Returned reply, w2) ->
  is_Some (tasks (Runtime.view w) !! Runtime.task_id item) ->
  let mentions :=
    Router.extract_teammate_mentions reply (Runtime.agent_id item)
      (LQueue.team_agent_ids_of (agents (Runtime.view w2)) (Runtime.agent_id item)) in
  let clean := LQueue.clean_reply_of reply mentions in
  (mentions ≠ [] -> clean = Router.strip_teammate_tags reply)
  /\ (mentions = [] -> clean = reply)
  /\ exists wf t,
       LQueue.run_agent E item agent w = (Returned tt, wf)
       /\ tasks (Runtime.store wf) !! Runtime.task_id item = Some t
       /\ Task.status t = Task.done
       /\ Task.result t = Some clean
       /\ Runtime.sent wf = Runtime.sent w2 ++ delivered E item clean.
Proof.
  intros Hinv [t0 Ht0] mentions clean.
  split; [|split].
  - unfold clean, LQueue.clean_reply_of. destruct mentions; [contradiction|reflexivity].
  - unfold clean. intros ->. reflexivity.
  - destruct (run_agent_returned E item agent w reply w2 Hinv)
      as (wf & Hrun & Ht & _ & Hs & _ & Hsent).
    destruct (invoke_agent_tasks E _ _ _ _ _ _ _ _ Hinv) as [Ht2 _].
    exists wf, (LQueue.mark_done clean t0).
    split; [exact Hrun|]. split.
    { rewrite Hs, Ht, lookup_alter_eq, Ht2, Ht0. reflexivity. }
    split; [reflexivity|]. split; [reflexivity | exact Hsent].
Qed.

(* ================================================================== *)
(** * Provider selection *)
(* ================================================================== *)

Section ProviderFacts.
Import Py Llm Runtime Invoker LQueue ProviderSpec.

Lemma cache_ok_empty : cache_ok ∅.
Proof. intros k p H. rewrite lookup_empty in H. discriminate. Qed.

Lemma get_provider_cache_ok name cache :
  cache_ok cache -> cache_ok (get_provider name cache).2.
Proof.
  intros Hok. unfold get_provider.
  destruct (cache !! name) eqn:Hc; [exact Hok|].
  destruct (String.eqb name "anthropic") eqn:H1;
    [|destruct (String.eqb name "openai") eqn:H2;
      [|destruct (String.eqb name "google") eqn:H3; [|exact Hok]]];
    cbn [snd]; intros k p Hk;
    (destruct (decide (name = k)) as [<-|Hne];
     [|rewrite lookup_insert_ne in Hk by exact Hne; exact (Hok k p Hk)]);
    [apply String.eqb_eq in H1 | apply String.eqb_eq in H2
    | apply String.eqb_eq in H3]; subst name; unfold recognized; set_solver.
Qed.

Lemma get_provider_unknown name cache :
  name ∉ recognized -> cache_ok cache ->
  get_provider name cache = (Raised (unknown_provider name), cache).
Proof.
  intros Hn Hok. unfold get_provider.
  destruct (cache !! name) as [p|] eqn:Hc; [destruct Hn; exact (Hok _ _ Hc)|].
  destruct (String.eqb name "anthropic") eqn:H1;
    [apply String.eqb_eq in H1; subst; destruct Hn; unfold recognized; set_solver|].
  destruct (String.eqb name "openai") eqn:H2;
    [apply String.eqb_eq in H2; subst; destruct Hn; unfold recognized; set_solver|].
  destruct (String.eqb name "google") eqn:H3;
    [apply String.eqb_eq in H3; subst; destruct Hn; unfold recognized; set_solver|].
  reflexivity.
Qed.

(** With a key that [get_provider] refuses, the invocation returns the
    configuration error as its reply and persists nothing. *)
Lemma invoke_agent_config_error E agent sender_id sender_name message channel w e :
  length (List.filter (same_conversation (Agent.id agent) sender_id channel)
            (conversations (view w))) <= 1 ->
  (get_provider (provider_name_of agent) (_providers w)).1 = Raised e ->
  exists w', invoke_agent E agent sender_id sender_name message channel w
             = (Returned (config_error e), w')
             /\ quiet w w'.
Proof.
  intros Hrows Hsel.
  destruct (invoke_agent_cases E agent sender_id sender_name message channel w)
    as (r & w' & Hinv & Hcases).
  exists w'. cbv zeta in Hcases.
  destruct Hcases as [(e' & -> & Q) | [(e' & He & -> & Q) | (p & t & cid & w1 & He & _)]].
  - exfalso.
    destruct (get_or_create_returns E (Agent.id agent) sender_id sender_name
                channel w Hrows) as (c & w1 & Hg & _).
    pose proof (get_or_create_cache E (Agent.id agent) sender_id sender_name
                  channel w) as Hcache. rewrite Hg in Hcache. cbn [snd] in Hcache.
    unfold invoke_agent in Hinv. unfold bind at 1 in Hinv. rewrite Hg in Hinv.
    unfold bind at 1, load_history at 1, gets at 1 in Hinv.
    unfold bind at 1, _load_resources at 1, gets at 1 in Hinv.
    destruct (_collect_db_tools _) as [tool_defs dispatch].
    unfold bind at 1, attempt, lookup_provider in Hinv. rewrite Hcache in Hinv.
    destruct (get_provider (provider_name_of agent) (_providers w)) as [sel cache].
    cbn [fst] in Hsel. subst sel. discriminate.
  - rewrite Hsel in He. injection He as <-. split; [exact Hinv | exact Q].
  - rewrite Hsel in He. discriminate.
Qed.

End ProviderFacts.

(** C8: a provider key that is none of the three names is refused by
    [get_provider] with the [ValueError], whatever the cache holds, and no
    provider is substituted; the invocation returns the error as its reply,
    and the task is stored as [done] with that reply as result and no
    error.  The key is the agent's provider, or [anthropic] when the agent
    has none. *)
Theorem unknown_provider_is_reported :
  (forall name cache,
     name ∉ ProviderSpec.recognized -> ProviderSpec.cache_ok cache ->
     Llm.get_provider name cache = (Raised (Llm.unknown_provider name), cache))
  /\ (forall name cache,
        ProviderSpec.cache_ok cache ->
        ProviderSpec.cache_ok (Llm.get_provider name cache).2)
  /\ (forall (E : Runtime.Env) (item : Runtime.Item) (agent : Agent.t)
             (w : Runtime.World),
        let name := Invoker.provider_name_of agent in
        let reply := ProviderSpec.config_error (Llm.unknown_provider name) in
        name ∉ ProviderSpec.recognized ->
        ProviderSpec.cache_ok (Runtime._providers w) ->
        Router.agent_by_id (Runtime.store w) (Runtime.agent_id item) = Some agent ->
        length (List.filter
                  (Invoker.same_conversation (Agent.id agent)
                     (LQueue.conversation_key item) (Runtime.channel item))
                  (conversations (Runtime.store w))) <= 1 ->
        exists wf t,
          LQueue._process E item w = (Returned tt, wf)
          /\ tasks (Runtime.store wf) !! Runtime.task_id item = Some t
          /\ Task.status t = Task.done
          /\ Task.error t = None
          /\ Task.result t
             = Some (LQueue.clean_reply_of reply
                       (Router.extract_teammate_mentions reply
                          (Runtime.agent_id item)
                          (LQueue.team_agent_ids_of (agents (Runtime.store w))
                             (Runtime.agent_id item))))).
Proof.
  split; [exact get_provider_unknown|]. split; [exact get_provider_cache_ok|].
  intros E item agent w name reply Hname Hok Hagent Hrows.
  destruct (process_shape E item w) as (wf & Hproc & Hcases).
  destruct Hcases as [(Hnone & _) | (agent' & w1 & Hagent' & Hv & Hs & Hc & Hp & _ & Hrun)];
    [congruence|].
  rewrite Hagent in Hagent'. injection Hagent' as <-.
  destruct (invoke_agent_config_error E agent (LQueue.conversation_key item)
              (Runtime.sender_name item) (Runtime.message item)
              (Runtime.channel item) w1 (Llm.unknown_provider name))
    as (w2 & Hinv & Q).
  { rewrite Hv. exact Hrows. }
  { rewrite Hp. unfold name. rewrite get_provider_unknown by assumption. reflexivity. }
  destruct (run_agent_returned E item agent w1 _ w2 Hinv)
    as (wf' & Hrun' & Ht & _ & Hst & _).
  rewrite Hrun in Hrun'. injection Hrun' as <-.
  destruct Q as [Qa _ Qt _ _ _ _ _].
  eexists wf, _. split; [exact Hproc|]. split.
  { rewrite Hst, Ht, lookup_alter_eq, Qt, Hv. unfold registered. cbn.
    rewrite lookup_insert_eq. reflexivity. }
  split; [reflexivity|]. split; [reflexivity|].
  cbn. rewrite Qa, Hv. reflexivity.
Qed.

(* ================================================================== *)
(** * Messages and failures *)
(* ================================================================== *)

Section PersistenceFacts.
Import Py Llm Runtime Invoker LQueue.
Variable E : Env.

Lemma invoke_agent_raised_quiet agent sender_id sender_name message channel w e w' :
  invoke_agent E agent sender_id sender_name message channel w = (Raised e, w') ->
  quiet w w'.
Proof.
  intros Hinv.
  destruct (invoke_agent_cases E agent sender_id sender_name message channel w)
    as (r & w0 & Hinv0 & Hcases).
  rewrite Hinv in Hinv0. injection Hinv0 as <- <-.
  destruct Hcases as [(e' & _ & Q) | [(e' & _ & Hr & _) | (p & t & cid & w1 & _ & Hr & _)]];
    [exact Q | discriminate | discriminate].
Qed.

(** A task that ends as [failed] has stored no message. *)
Lemma failed_task_stores_no_message item w wf t :
  _process E item w = (Returned tt, wf) ->
  tasks (store wf) !! task_id item = Some t ->
  Task.status t = Task.failed ->
  messages (store wf) = messages (store w).
Proof.
  intros Hproc Ht Hfailed.
  destruct (process_shape E item w) as (wf' & Hproc' & Hcases).
  rewrite Hproc in Hproc'. injection Hproc' as <-.
  destruct Hcases as [(_ & _ & _ & Hm & Hs) | (agent & w1 & _ & Hv & _ & _ & _ & _ & Hrun)].
  - rewrite Hs. exact Hm.
  - destruct (invoke_agent E agent (conversation_key item) (sender_name item)
                (message item) (channel item) w1) as [[reply|e] w2] eqn:Hinv.
    + exfalso.
      destruct (run_agent_returned E item agent w1 reply w2 Hinv)
        as (wf' & Hrun' & Htf & _ & Hst & _).
      rewrite Hrun in Hrun'. injection Hrun' as <-.
      destruct (invoke_agent_tasks E _ _ _ _ _ _ _ _ Hinv) as [Ht2 _].
      rewrite Hst, Htf, lookup_alter_eq, Ht2, Hv in Ht.
      unfold registered in Ht. cbn in Ht. rewrite lookup_insert_eq in Ht.
      injection Ht as <-. discriminate.
    + destruct (run_agent_raised E item agent w1 e w2 Hinv)
        as (wf' & Hrun' & _ & Hm & Hst & _).
      rewrite Hrun in Hrun'. injection Hrun' as <-.
      apply invoke_agent_raised_quiet in Hinv. destruct Hinv as [_ Qm _ _ _ _ _ _].
      rewrite Hst, Hm, Qm, Hv. reflexivity.
Qed.

End PersistenceFacts.

(** C10, amended: an invocation that raises, and one whose provider key
    is refused, leave the messages, the stored rows and the commits as
    they were; an invocation that returns the answer of the tool-use loop,
    the fixed reply for ten rounds included, has added the user message
    and that answer to the conversation and committed them; and a task
    that ends as [failed] has stored no message. *)
Theorem messages_follow_the_final_answer :
  (forall (E : Runtime.Env) agent sender_id sender_name message channel w r w',
     Invoker.invoke_agent E agent sender_id sender_name message channel w
     = (r, w') ->
     let selection :=
       (Llm.get_provider (Invoker.provider_name_of agent)
          (Runtime._providers w)).1 in
     let unchanged :=
       messages (Runtime.view w') = messages (Runtime.view w)
       /\ Runtime.store w' = Runtime.store w
       /\ Runtime.commits w' = Runtime.commits w in
     ((exists e, r = Raised e) -> unchanged)
     /\ ((exists e, selection = Raised e) -> unchanged)
     /\ (forall p final_text,
           selection = Returned p -> r = Returned final_text ->
           exists conversation_id i1 i2,
             messages (Runtime.view w') =
               messages (Runtime.view w) ++
               [Message.mk i1 conversation_id "user" message;
                Message.mk i2 conversation_id "assistant" final_text]
             /\ Runtime.store w' = Runtime.view w'
             /\ Runtime.commits w' = Runtime.commits w ++ [Runtime.view w']))
  /\ (forall (E : Runtime.Env) item w wf t,
        LQueue._process E item w = (Returned tt, wf) ->
        tasks (Runtime.store wf) !! Runtime.task_id item = Some t ->
        Task.status t = Task.failed ->
        messages (Runtime.store wf) = messages (Runtime.store w)).
Proof.
  split; [|exact failed_task_stores_no_message].
  intros E agent sender_id sender_name message channel w r w' Hinv selection unchanged.
  destruct (invoke_agent_cases E agent sender_id sender_name message channel w)
    as (r0 & w0 & Hinv0 & Hcases).
  rewrite Hinv in Hinv0. injection Hinv0 as <- <-. fold selection in Hcases.
  assert (Hq : quiet w w' -> unchanged).
  { intros [_ Qm _ Qs Qc _ _ _]. unfold unchanged. tauto. }
  destruct Hcases as [(e & Hr & Q) | [(e & Hsel & Hr & Q) | (p & t & cid & w1 & Hsel & Hr & Q & P)]].
  - split; [auto|]. split; [auto|]. intros p t _ Ht. congruence.
  - split; [auto|]. split; [auto|]. intros p t Hp _. congruence.
  - split; [intros [e He]; congruence|]. split; [intros [e He]; congruence|].
    intros p' t' _ Ht'. rewrite Hr in Ht'. injection Ht' as <-.
    destruct P as (i1 & i2 & Hm & _ & _ & Hs & Hc & _).
    destruct Q as [_ Qm _ _ Qc _ _ _].
    exists cid, i1, i2. rewrite Hm, Qm, Hc, Qc. tauto.
Qed.

(* ================================================================== *)
(** * The read-only guard *)
(* ================================================================== *)

Section GuardFacts.
Import Py DbTools.
Variable eng : Engine.

Lemma upper_lower_char c : upper_char (lower_char c) = upper_char c.
Proof. destruct c as [[] [] [] [] [] [] [] []]; reflexivity. Qed.

Lemma upper_lower s : upper (lower s) = upper s.
Proof.
  induction s as [|c s IH]; [reflexivity|].
  cbn. rewrite upper_lower_char. f_equal. exact IH.
Qed.

(** A statement that does not start with SELECT never reaches the
    engine. *)
Lemma run_query_refuses_non_select db_url sql allowed :
  startswith "SELECT" (upper (strip sql)) = false ->
  _run_query eng db_url sql allowed
  = (Returned (JsonError "Only SELECT statements are allowed."), []).
Proof. intros H. unfold _run_query. rewrite H. reflexivity. Qed.

(** Nor does one with a blocked keyword among its white-space separated
    words. *)
Lemma run_query_refuses_blocked_word db_url sql allowed kw :
  kw ∈ blocked -> kw ∈ split_ws (upper (strip sql)) ->
  exists r, _run_query eng db_url sql allowed = (Returned r, [])
            /\ forall payload, r ≠ JsonRows payload.
Proof.
  intros Hb Hw. unfold _run_query.
  destruct (startswith "SELECT" (upper (strip sql))); cbn [negb];
    [|eexists; split; [reflexivity | discriminate]].
  rewrite bool_decide_eq_true_2.
  - eexists. split; [reflexivity | discriminate].
  - intros Hempty.
    assert (kw ∈ (list_to_set (split_ws (upper (strip sql))) ∩ blocked : gset string))
      by (apply elem_of_intersection; split; [apply elem_of_list_to_set|]; assumption).
    rewrite Hempty in H. set_solver.
Qed.

(** The statement [DROP TABLE x] itself, in any casing and with any
    white space around it, is refused. *)
Lemma drop_table_alone_is_refused db_url sql allowed :
  lower (strip sql) = "drop table x"%string ->
  _run_query eng db_url sql allowed
  = (Returned (JsonError "Only SELECT statements are allowed."), []).
Proof.
  intros H. apply run_query_refuses_non_select.
  rewrite <- upper_lower, H. reflexivity.
Qed.

End GuardFacts.

(** C2, where the code departs from the claim: a statement that starts
    with SELECT and holds [DROP TABLE x] right after a semicolon has no
    blocked keyword among its white-space separated words, and is handed
    to the engine. *)
Theorem run_query_executes_stacked_drop (eng : DbTools.Engine)
    (db_url : string) (allowed_tables : list string) :
  DbTools._run_query eng db_url "SELECT 1;DROP TABLE x" allowed_tables
  = (DbTools.engine_run eng db_url "SELECT 1;DROP TABLE x",
     ["SELECT 1;DROP TABLE x"%string]).
Proof.
  unfold DbTools._run_query.
  change (negb (Py.startswith "SELECT" (Py.upper (Py.strip "SELECT 1;DROP TABLE x"))))
    with false. cbv iota.
  rewrite bool_decide_eq_false_2; [reflexivity|].
  intros H. apply H. vm_compute. reflexivity.
Qed.

(** C1, as the claim has it, fails: the first row that [_process] commits
    has the status [processing], not [queued]. *)
Lemma first_row_is_not_queued :
  ~ Lifecycle.lifecycle Task.queued
      (LQueue.task_history "task-1"
         (Runtime.commits
            (LQueue._process Scenario.env_tagged Scenario.item Scenario.world).2)).
Proof. intros [H _]. vm_compute in H. discriminate. Qed.

(** C3, where the code departs from the claim: a reply whose only tag
    names no teammate is stored and delivered with the tag in it, since
    [clean_reply] is the stripped reply only [if mentions].  When the
    reply also names a teammate, the same tag is removed with the
    others. *)
Theorem stored_reply_keeps_tags :
  let wf := (LQueue._process Scenario.env_tagged Scenario.item Scenario.world).2 in
  let wf' := (LQueue._process Demo.env_mixed Scenario.item Scenario.world).2 in
  Scenario.tagged_reply = "See [@zed: do it]"%string
  /\ (tasks (Runtime.store wf) !! "task-1") ≫= Task.result
     = Some Scenario.tagged_reply
  /\ Runtime.reply_text <$> Runtime.sent wf = [Scenario.tagged_reply]
  /\ Router.has_tag Scenario.tagged_reply = true
  /\ Router.strip_teammate_tags Scenario.tagged_reply = "See"%string
  /\ Demo.mixed_reply = "See [@zed: do it] [@bob: check it]"%string
  /\ (tasks (Runtime.store wf') !! "task-1") ≫= Task.result = Some "See"%string
  /\ Runtime.reply_text <$> Runtime.sent wf' = ["See"%string].
Proof. repeat split; vm_compute; reflexivity. Qed.

(** C7, where the code departs from the claim: each of the ten rounds
    returns a tool call, and the invocation ends with the exception of a
    tool, not with the fixed reply.  The database cannot be reached:
    [query_database] answers with the error as a tool result, the way an
    unknown tool is answered, while [list_tables] raises; nothing in
    [execute_db_tool] or in the loop catches it, no message is stored and
    the task ends as [failed]. *)
Theorem tool_failure_ends_the_invocation :
  let url := "postgresql://db.internal/sales"%string in
  let run := Invoker.invoke_agent Demo.env_tenth Scenario.alice "u1"
               (Some "Ann"%string) "hello" "whatsapp" Demo.world_sales in
  let wf := (LQueue._process Demo.env_tenth Scenario.item Demo.world_sales).2 in
  (forall n, Llm.tool_calls (Demo.tenth_asks_schema n) ≠ [])
  /\ DbTools.execute_db_tool Demo.engine_unreachable "query_database"
       {[ "sql"%string := "SELECT 1"%string ]} url []
     = (Returned (JsonError "connection refused"), ["SELECT 1"%string])
  /\ DbTools.execute_db_tool Demo.engine_unreachable "list_tables" ∅ url []
     = (Raised "connection refused", [])
  /\ run.1 = Raised "connection refused"
  /\ run.1 ≠ Returned Invoker.max_rounds_reply
  /\ Runtime.llm_calls run.2 = 10
  /\ messages (Runtime.view run.2) = []
  /\ (tasks (Runtime.store wf) !! "task-1") ≫= (Some ∘ Task.status)
     = Some Task.failed
  /\ (tasks (Runtime.store wf) !! "task-1") ≫= Task.error
     = Some "connection refused"%string
  /\ Runtime.sent wf = [].
Proof.
  intros url run wf. split.
  { intros n. unfold Demo.tenth_asks_schema. destruct (n <? 9)%nat; discriminate. }
  split; [vm_compute; reflexivity|]. split; [vm_compute; reflexivity|].
  assert (Hrun : run.1 = Raised "connection refused") by (vm_compute; reflexivity).
  split; [exact Hrun|]. split; [rewrite Hrun; discriminate|].
  repeat split; vm_compute; reflexivity.
Qed.

(** C9, as the claim has it, fails: without any agent, a message
    addressed to a team gets the stored leader of the team as its target,
    whether or not that id is the id of an agent. *)
Lemma leader_without_agents_is_a_target :
  agents Demo.db_ghost = []
  /\ Router.resolve_agent_for_message "@dev hello" Demo.db_ghost
     = (Some "ghost"%string, "hello"%string)
  /\ (Router.resolve_agent_for_message "@dev hello" Demo.db_ghost).1 ≠ None.
Proof.
  split; [reflexivity|]. split; [vm_compute; reflexivity|].
  vm_compute. discriminate.
Qed.

(** C10, as the claim has it, fails: the configuration-error reply is
    returned, and stored as the result of the task, without any message
    being added to the conversation. *)
Lemma config_error_reply_is_not_persisted :
  let wf := (LQueue._process Scenario.env_tagged Scenario.item_solo
               Scenario.world).2 in
  (tasks (Runtime.store wf) !! "task-2") ≫= Task.result
  = Some "[Configuration error: Unknown provider: 'bogus'. Use anthropic, openai, or google.]"%string
  /\ (tasks (Runtime.store wf) !! "task-2") ≫= (Some ∘ Task.status)
     = Some Task.done
  /\ messages (Runtime.store wf) = [].
Proof. repeat split; vm_compute; reflexivity. Qed.

(* ================================================================== *)
(** * The theorems at work on the small installation *)
(* ================================================================== *)

(** The branch of a reply whose tag names no teammate. *)
Lemma stored_result_witness :
  let w2 := (Invoker.invoke_agent Scenario.env_tagged Scenario.alice "u1"
               (Some "Ann"%string) "hello" "whatsapp"
               Scenario.world_registered).2 in
  Invoker.invoke_agent Scenario.env_tagged Scenario.alice
    (LQueue.conversation_key Scenario.item)
    (Runtime.sender_name Scenario.item) (Runtime.message Scenario.item)
    (Runtime.channel Scenario.item) Scenario.world_registered
  = (Returned Scenario.tagged_reply, w2)
  /\ is_Some (tasks (Runtime.view Scenario.world_registered) !! "task-1")
  /\ exists wf t,
       LQueue.run_agent Scenario.env_tagged Scenario.item Scenario.alice
         Scenario.world_registered = (Returned tt, wf)
       /\ tasks (Runtime.store wf) !! "task-1" = Some t
       /\ Task.status t = Task.done
       /\ Task.result t = Some Scenario.tagged_reply.
Proof.
  intros w2.
  assert (H1 : Invoker.invoke_agent Scenario.env_tagged Scenario.alice
                 (LQueue.conversation_key Scenario.item)
                 (Runtime.sender_name Scenario.item)
                 (Runtime.message Scenario.item)
                 (Runtime.channel Scenario.item) Scenario.world_registered
               = (Returned Scenario.tagged_reply, w2))
    by (vm_compute; reflexivity).
  assert (H2 : is_Some (tasks (Runtime.view Scenario.world_registered) !! "task-1"))
    by (eexists; vm_compute; reflexivity).
  split; [exact H1|]. split; [exact H2|].
  destruct (stored_result_is_clean_reply Scenario.env_tagged Scenario.item
              Scenario.alice Scenario.world_registered Scenario.tagged_reply
              w2 H1 H2)
    as (_ & Hnone & wf & t & Hrun & Ht & Hst & Hres & _).
  exists wf, t. split; [exact Hrun|]. split; [exact Ht|]. split; [exact Hst|].
  rewrite Hres. apply (f_equal Some). apply Hnone. vm_compute. reflexivity.
Defined.

(** C6 on two members of the group [g1], served one after the other. *)
Lemma group_tasks_witness :
  let w1 := (LQueue._process Scenario.env_tagged Scenario.item_ann
               Scenario.world).2 in
  let w2 := (LQueue._process Scenario.env_tagged Scenario.item_ben w1).2 in
  Runtime.sender_id Scenario.item_ann ≠ Runtime.sender_id Scenario.item_ben
  /\ length (List.filter
               (Invoker.same_conversation "alice" "g1" "whatsapp")
               (conversations (Runtime.store Scenario.world))) <= 1
  /\ (exists c1 c2,
        List.filter (Invoker.same_conversation "alice" "g1" "whatsapp")
          (conversations (Runtime.store w1)) = [c1]
        /\ List.filter (Invoker.same_conversation "alice" "g1" "whatsapp")
             (conversations (Runtime.store w2)) = [c2]
        /\ Conversation.id c2 = Conversation.id c1)
  /\ Conversation.sender_id <$> conversations (Runtime.store w2) = ["g1"%string]
  /\ (fun m => (Message.conversation_id m, Message.content m))
       <$> messages (Runtime.store w2)
     = [("uuid-0", "hi all"); ("uuid-0", Scenario.tagged_reply);
        ("uuid-0", "hi too"); ("uuid-0", Scenario.tagged_reply)]%string.
Proof.
  intros w1 w2.
  assert (Hrows : length (List.filter
                    (Invoker.same_conversation "alice" "g1" "whatsapp")
                    (conversations (Runtime.store Scenario.world))) <= 1)
    by (vm_compute; lia).
  split; [discriminate|]. split; [exact Hrows|].
  destruct (group_tasks_share_conversation Scenario.env_tagged
              Scenario.item_ann Scenario.item_ben "g1" Scenario.alice
              Scenario.world eq_refl eq_refl ltac:(discriminate) eq_refl
              eq_refl eq_refl Hrows)
    as (_ & _ & _ & (c1 & c2 & Hc1 & Hc2 & _ & Hid & _) & _).
  split; [exists c1, c2; split; [exact Hc1|]; split; [exact Hc2 | exact Hid]|].
  split; vm_compute; reflexivity.
Defined.

(** The rounds of a model that always asks for a tool, and of one that
    answers in its third round. *)
Lemma tool_loop_witness :
  (scripted Scenario.env_tools Llm.AnthropicProvider "m" "s" [] ∅ 0 10
     (fun _ => Scenario.asks_tool)
   /\ exists w',
        Invoker.tool_use_loop Scenario.env_tools Llm.AnthropicProvider "m" "s"
          [] ∅ Invoker.MAX_ROUNDS [] Scenario.world
        = (Returned "[Max tool rounds reached without a final answer]"%string, w')
        /\ Runtime.llm_calls w' = 10)
  /\ (scripted Scenario.env_third Llm.AnthropicProvider "m" "s" [] ∅ 0 10
        Scenario.third_round
      /\ exists w',
           Invoker.tool_use_loop Scenario.env_third Llm.AnthropicProvider "m"
             "s" [] ∅ Invoker.MAX_ROUNDS [] Scenario.world
           = (Returned "the answer"%string, w')
           /\ Runtime.llm_calls w' = 3)
  /\ (Llm.get_provider (Invoker.provider_name_of Scenario.alice)
        (Runtime._providers Scenario.world)
      = (Returned Llm.AnthropicProvider, {[ "anthropic"%string := Llm.AnthropicProvider ]})
      /\ exists w',
           Invoker.invoke_agent Scenario.env_tools Scenario.alice "u1"
             (Some "Ann"%string) "hello" "whatsapp" Scenario.world
           = (Returned "[Max tool rounds reached without a final answer]"%string, w')
           /\ Runtime.llm_calls w' = 10).
Proof.
  assert (H1 : scripted Scenario.env_tools Llm.AnthropicProvider "m" "s" [] ∅
                 0 10 (fun _ => Scenario.asks_tool)).
  { split; [intros; reflexivity | intros; eexists; reflexivity]. }
  assert (H2 : scripted Scenario.env_third Llm.AnthropicProvider "m" "s" [] ∅
                 0 10 Scenario.third_round).
  { split; [intros; reflexivity|]. intros k w _. unfold Scenario.third_round.
    destruct (k <? 2)%nat; eexists; reflexivity. }
  assert (H3 : Llm.get_provider (Invoker.provider_name_of Scenario.alice)
                 (Runtime._providers Scenario.world)
               = (Returned Llm.AnthropicProvider,
                  {[ "anthropic"%string := Llm.AnthropicProvider ]}))
    by (vm_compute; reflexivity).
  assert (H4 : Invoker.get_or_create_conversation Scenario.env_tools
                 (Agent.id Scenario.alice) "u1" (Some "Ann"%string) "whatsapp"
                 Scenario.world
               = (Returned (Conversation.mk "uuid-0" "alice" "u1"
                              (Some "Ann"%string) "whatsapp"),
                  (Invoker.get_or_create_conversation Scenario.env_tools
                     "alice" "u1" (Some "Ann"%string) "whatsapp"
                     Scenario.world).2))
    by (vm_compute; reflexivity).
  assert (H5 : scripted Scenario.env_tools Llm.AnthropicProvider
                 (Agent.model Scenario.alice)
                 (Invoker.system_prompt_of Scenario.alice)
                 (agent_tools Scenario.alice (Runtime.view Scenario.world)).1
                 (agent_tools Scenario.alice (Runtime.view Scenario.world)).2
                 (Runtime.llm_calls Scenario.world) 10
                 (fun _ => Scenario.asks_tool)).
  { split; [intros; reflexivity | intros; eexists; reflexivity]. }
  destruct tool_loop_rounds as (_ & _ & Hloop & Hinvoke).
  split; [|split]; (split; [assumption|]).
  - destruct (Hloop Scenario.env_tools Llm.AnthropicProvider "m"%string
                "s"%string [] ∅ [] Scenario.world _ H1) as [_ Hall].
    apply Hall. intros k _. discriminate.
  - destruct (Hloop Scenario.env_third Llm.AnthropicProvider "m"%string
                "s"%string [] ∅ [] Scenario.world _ H2) as [Hfirst _].
    apply (Hfirst 2); [lia | | reflexivity].
    intros k Hk. destruct k as [|[|k]]; [discriminate | discriminate | lia].
  - apply (Hinvoke Scenario.env_tools Scenario.alice "u1"%string
             (Some "Ann"%string) "hello"%string "whatsapp"%string
             Scenario.world _ _ _ _ _ H4 H3 H5).
    intros k _. discriminate.
Defined.

(** C8 on the agent whose provider is [bogus]. *)
Lemma unknown_provider_witness :
  (("bogus"%string ∉ ProviderSpec.recognized)
   /\ ProviderSpec.cache_ok ∅
   /\ Llm.get_provider "bogus" ∅
      = (Raised "Unknown provider: 'bogus'. Use anthropic, openai, or google."%string, ∅))
  /\ (Router.agent_by_id (Runtime.store Scenario.world) "solo" = Some Scenario.solo
      /\ length (List.filter
                   (Invoker.same_conversation "solo" "u1" "whatsapp")
                   (conversations (Runtime.store Scenario.world))) <= 1
      /\ exists wf t,
           LQueue._process Scenario.env_tagged Scenario.item_solo Scenario.world
           = (Returned tt, wf)
           /\ tasks (Runtime.store wf) !! "task-2" = Some t
           /\ Task.status t = Task.done
           /\ Task.error t = None
           /\ Task.result t
              = Some "[Configuration error: Unknown provider: 'bogus'. Use anthropic, openai, or google.]"%string).
Proof.
  assert (Hname : "bogus"%string ∉ ProviderSpec.recognized).
  { apply (bool_decide_unpack _). vm_compute. exact I. }
  assert (Hagent : Router.agent_by_id (Runtime.store Scenario.world) "solo"
                   = Some Scenario.solo) by reflexivity.
  assert (Hrows : length (List.filter
                    (Invoker.same_conversation "solo" "u1" "whatsapp")
                    (conversations (Runtime.store Scenario.world))) <= 1)
    by (vm_compute; lia).
  destruct unknown_provider_is_reported as (Hget & _ & Hprocess).
  split.
  - split; [exact Hname|]. split; [exact cache_ok_empty|].
    exact (Hget "bogus"%string ∅ Hname cache_ok_empty).
  - split; [exact Hagent|]. split; [exact Hrows|].
    destruct (Hprocess Scenario.env_tagged Scenario.item_solo Scenario.solo
                Scenario.world Hname cache_ok_empty Hagent Hrows)
      as (wf & t & Hrun & Ht & Hst & Herr & Hres).
    exists wf, t. repeat (split; [assumption|]). exact Hres.
Defined.

(** C9 on five small tables. *)
Lemma resolve_target_witness :
  (Scenario.coder ∈ agents Scenario.db_coder
   /\ Router.resolve_agent_for_message "@coder fix the bug" Scenario.db_coder
      = (Some "coder"%string, "fix the bug"%string))
  /\ (Agent.id <$> agents Scenario.db_two ≡ₚ ["alice"; "bob"]%string
      /\ Router.resolve_agent_for_message "no prefix here" Scenario.db_two
         = (Some "alice"%string, "no prefix here"%string))
  /\ (agents Scenario.db ≠ []
      /\ exists m,
           Router.resolve_agent_for_message " @zzz what now " Scenario.db
           = (Some (Agent.id m), "@zzz what now"%string)
           /\ m ∈ agents Scenario.db
           /\ forall b, b ∈ agents Scenario.db ->
                String.le (Agent.id m) (Agent.id b))
  /\ (agents Scenario.db_empty = []
      /\ Router.resolve_agent_for_message "@dev hello" Scenario.db_empty
         = (None, "@dev hello"%string))
  /\ (agents Demo.db_ghost = []
      /\ Router.resolve_agent_for_message " @Dev  hello there" Demo.db_ghost
         = (Some "ghost"%string, "hello there"%string)).
Proof.
  destruct resolve_target_spec as (H1 & H2 & H3 & H4 & H5).
  split; [|split; [|split; [|split]]].
  - assert (Hin : Scenario.coder ∈ agents Scenario.db_coder) by left.
    split; [exact Hin|]. exact (H1 Scenario.db_coder Scenario.coder Hin eq_refl).
  - assert (Hperm : Agent.id <$> agents Scenario.db_two ≡ₚ ["alice"; "bob"]%string)
      by apply perm_swap.
    split; [exact Hperm|]. exact (H2 Scenario.db_two Hperm).
  - assert (Hne : agents Scenario.db ≠ []) by discriminate.
    split; [exact Hne|].
    apply (H3 Scenario.db " @zzz what now "%string Hne).
    intros token rest Hm. vm_compute in Hm. injection Hm as <- <-.
    split; [|split].
    + apply Forall_forall.
      repeat (apply List.Forall_cons; [vm_compute; discriminate|]).
      apply List.Forall_nil.
    + apply Forall_forall.
      repeat (apply List.Forall_cons; [vm_compute; discriminate|]).
      apply List.Forall_nil.
    + apply Forall_forall.
      repeat (apply List.Forall_cons; [vm_compute; discriminate|]).
      apply List.Forall_nil.
  - split; [reflexivity|].
    apply (H4 Scenario.db_empty "@dev hello"%string eq_refl).
    intros token rest t l _ Ht _ Hl. apply list_elem_of_singleton in Ht.
    subst t. discriminate.
  - split; [reflexivity|].
    apply (H5 Demo.db_ghost " @Dev  hello there"%string "Dev"%string
             "hello there"%string (Team.mk "dev" "Dev" (Some "ghost"%string))
             "ghost"%string); try reflexivity.
    discriminate.
Defined.

(** C10 on a provider that is down. *)
Lemma messages_witness :
  let run := Invoker.invoke_agent Scenario.env_down Scenario.alice "u1"
               (Some "Ann"%string) "hello" "whatsapp" Scenario.world in
  run.1 = Raised "provider down"
  /\ messages (Runtime.view run.2) = messages (Runtime.view Scenario.world)
  /\ Runtime.store run.2 = Runtime.store Scenario.world
  /\ Runtime.commits run.2 = Runtime.commits Scenario.world.
Proof.
  intros run.
  assert (H1 : run = (Raised "provider down", run.2))
    by (vm_compute; reflexivity).
  split; [rewrite H1; reflexivity|].
  destruct messages_follow_the_final_answer as [Hinvoke _].
  destruct (Hinvoke Scenario.env_down Scenario.alice "u1"%string
              (Some "Ann"%string) "hello"%string "whatsapp"%string
              Scenario.world _ _ H1) as (Hraised & _).
  apply Hraised. eexists. reflexivity.
Defined.

(* ================================================================== *)
(** * More on the delegation scan *)
(* ================================================================== *)

Section ScanFacts.
Import Py Router DelegationSpec.

Lemma finditer_go_no_tag fuel s : has_tag s = false -> finditer_go fuel s = [].
Proof.
  revert s. induction fuel as [|fuel IH]; intros s H; [reflexivity|].
  destruct s as [|c s]; [reflexivity|].
  cbn [finditer_go]. cbn [has_tag] in H.
  pose proof (match_tag_after (String c s)) as Ha.
  destruct (match_strip_tag (String c s)) eqn:Hm; [discriminate|].
  destruct (match_tag (String c s)); [discriminate|].
  apply IH. exact H.
Qed.

Lemma extract_is_emit response acting team :
  extract_teammate_mentions response acting team
  = emit_first_seen [] (List.filter (eligible acting team) (candidates response)).
Proof.
  unfold extract_teammate_mentions.
  rewrite visit_tags_candidates.
  rewrite (visit_candidates_spec acting team _ [] ∅ []); [reflexivity|].
  intros a. split; intros H; [set_solver | inversion H].
Qed.

End ScanFacts.

(** X1: a reply in which the tag pattern matches nowhere yields no
    delegation, whoever the acting agent and the teammates are; it is then
    stored as it is, and stripping it would only trim it. *)
Theorem reply_without_tag_delegates_nothing (reply acting : string)
    (team : list string) :
  Router.has_tag reply = false ->
  Router.extract_teammate_mentions reply acting team = []
  /\ LQueue.clean_reply_of reply
       (Router.extract_teammate_mentions reply acting team) = reply
  /\ Router.strip_teammate_tags reply = Py.strip reply.
Proof.
  intros H.
  assert (Hnone : Router.extract_teammate_mentions reply acting team = []).
  { unfold Router.extract_teammate_mentions, Router.finditer.
    rewrite finditer_go_no_tag by exact H. reflexivity. }
  rewrite Hnone. split; [reflexivity|]. split; [reflexivity|].
  apply strip_tags_without_tag. exact H.
Qed.

Lemma reply_without_tag_witness :
  Router.has_tag "All done [no tag here]." = false
  /\ Router.extract_teammate_mentions "All done [no tag here]." "alice"
       ["bob"%string] = [].
Proof.
  assert (H : Router.has_tag "All done [no tag here]." = false)
    by (vm_compute; reflexivity).
  split; [exact H|].
  exact (proj1 (reply_without_tag_delegates_nothing
                  "All done [no tag here]." "alice" ["bob"%string] H)).
Defined.

(** X2: the message of every delegation is built from a tag of the reply
    that names the teammate: it is the directed text of the tag, trimmed,
    preceded by the reply without its tags and the header
    [Directed to you:] when that text is not empty. *)
Theorem delegation_message_format (reply acting : string) (team : list string)
    (d : Router.Mention) :
  d ∈ Router.extract_teammate_mentions reply acting team ->
  exists t,
    t ∈ Router.finditer reply
    /\ Router.agent_id d
         ∈ Py.strip <$> Py.split_on "," (Py.lower (Router.group1 t))
    /\ Router.message d =
       (if Py.truthy (Router.strip_teammate_tags reply)
        then Router.strip_teammate_tags reply +:+ Router.directed_header
             +:+ Py.strip (Router.group2 t)
        else Py.strip (Router.group2 t)).
Proof.
  intros Hd. rewrite extract_is_emit in Hd.
  apply emit_first_seen_elem in Hd as [Hd _].
  apply elem_of_bool_filter in Hd as [Hd _].
  unfold DelegationSpec.candidates in Hd.
  apply list_elem_of_bind in Hd as (t & Hd & Ht).
  apply list_elem_of_fmap in Hd as (raw & Heq & Hraw).
  injection Heq as Hid Hmsg.
  exists t. split; [exact Ht|]. split.
  - rewrite Hid. apply list_elem_of_fmap. exists raw. split; [reflexivity | exact Hraw].
  - rewrite Hmsg, shared_context_is_stripped. reflexivity.
Qed.

Lemma delegation_message_witness :
  let reply := ("Shared note." +:+ String "010" "[@bob: please review]")%string in
  let d := Router.mkMention "bob"
             ("Shared note." +:+ String "010" (String "010" ("---" +:+ String "010"
                ("Directed to you:" +:+ String "010" "please review")))) in
  d ∈ Router.extract_teammate_mentions reply "alice" ["bob"; "carol"]%string
  /\ exists t,
       t ∈ Router.finditer reply
       /\ Router.message d =
          (if Py.truthy (Router.strip_teammate_tags reply)
           then Router.strip_teammate_tags reply +:+ Router.directed_header
                +:+ Py.strip (Router.group2 t)
           else Py.strip (Router.group2 t)).
Proof.
  intros reply d.
  assert (H : d ∈ Router.extract_teammate_mentions reply "alice"
                    ["bob"; "carol"]%string)
    by (vm_compute; left).
  split; [exact H|].
  destruct (delegation_message_format reply "alice" ["bob"; "carol"]%string d H)
    as (t & Ht & _ & Hm).
  exists t. split; [exact Ht | exact Hm].
Defined.

(* ================================================================== *)
(** * More on the address resolver *)
(* ================================================================== *)

Section AddressFacts.
Import Py Router.

Lemma append_cons (x : ascii) (a b : string) :
  String x a +:+ b = String x (a +:+ b).
Proof. reflexivity. Qed.

Lemma append_assoc (a b c : string) : (a +:+ b) +:+ c = a +:+ (b +:+ c).
Proof.
  induction a as [|x a IH]; [reflexivity|].
  rewrite !append_cons. f_equal. exact IH.
Qed.

Lemma append_length (a b : string) :
  String.length (a +:+ b) = String.length a + String.length b.
Proof.
  induction a as [|x a IH]; [reflexivity|].
  rewrite append_cons. cbn [String.length]. rewrite IH. reflexivity.
Qed.

Lemma span_app p s run rest :
  span p s = (run, rest) -> s = run +:+ rest.
Proof.
  revert run rest. induction s as [|c s IH]; intros run rest H; cbn in H.
  - injection H as <- <-. reflexivity.
  - destruct (p c).
    + destruct (span p s) as [run' rest']. injection H as <- <-.
      rewrite append_cons. f_equal. apply IH. reflexivity.
    + injection H as <- <-. reflexivity.
Qed.

Lemma span_isspace_no_lead s run rest :
  span isspace s = (run, rest) -> no_lead rest.
Proof.
  revert run rest. induction s as [|c s IH]; intros run rest H; cbn in H.
  - injection H as <- <-. exact I.
  - destruct (isspace c) eqn:Hc.
    + destruct (span isspace s) as [run' rest'] eqn:Hs. injection H as <- <-.
      eapply IH. reflexivity.
    + injection H as <- <-. exact Hc.
Qed.

Lemma match_address_suffix s token rest :
  match_address s = Some (token, rest) ->
  no_lead rest /\ exists pre, s = pre +:+ rest.
Proof.
  unfold match_address. destruct s as [|c0 s1]; [discriminate|].
  destruct (span (fun c => negb (isspace c)) s1) as [tok s2] eqn:H1.
  destruct (span isspace s2) as [blanks s3] eqn:H2.
  destruct (Ascii.eqb c0 "@" && truthy tok && truthy blanks); [|discriminate].
  intros H. injection H as <- <-.
  split; [eapply span_isspace_no_lead; exact H2|].
  exists (String c0 (tok +:+ blanks)).
  apply span_app in H1, H2. subst s1 s2. rewrite append_cons. f_equal.
  symmetry. apply append_assoc.
Qed.

Lemma rstrip_fixed_suffix pre s :
  rstrip (pre +:+ s) = pre +:+ s -> rstrip s = s.
Proof.
  induction pre as [|c pre IH]; [trivial|].
  rewrite append_cons, rstrip_cons. intros H.
  destruct (rstrip (pre +:+ s)) as [|c' r] eqn:Hr.
  - destruct (isspace c); [discriminate|].
    injection H as H. apply IH. rewrite <- H. reflexivity.
  - injection H as H. apply IH. exact H.
Qed.

Lemma default_agent_message raw db : (default_agent raw db).2 = strip raw.
Proof. unfold default_agent. destruct (head _); reflexivity. Qed.

Lemma default_agent_target raw1 raw2 db :
  (default_agent raw1 db).1 = (default_agent raw2 db).1.
Proof. unfold default_agent. destruct (head _); reflexivity. Qed.

Lemma find_some_elem {A} (f : A -> bool) (l : list A) (x : A) :
  List.find f l = Some x -> x ∈ l /\ f x = true.
Proof.
  intros H. apply List.find_some in H as [H1 H2].
  split; [apply list_elem_of_In; exact H1 | exact H2].
Qed.

End AddressFacts.

(** X3: the message that the resolver hands on is always trimmed, and it
    is a suffix of the trimmed input: the whole of it, or what follows the
    address token and its blanks. *)
Theorem resolved_message_is_trimmed (raw : string) (db : Db) :
  let message := (Router.resolve_agent_for_message raw db).2 in
  Py.strip message = message /\ exists pre, Py.strip raw = pre +:+ message.
Proof.
  intros message.
  assert (Hdefault : Py.strip (Py.strip raw) = Py.strip raw
                     /\ exists pre, Py.strip raw = pre +:+ Py.strip raw)
    by (split; [apply strip_idem | exists ""%string; reflexivity]).
  assert (Hcases : message = Py.strip raw
                   \/ exists token, Router.match_address (Py.strip raw)
                                    = Some (token, message)).
  { unfold message, Router.resolve_agent_for_message.
    destruct (Router.match_address (Py.strip raw)) as [[g1 m]|] eqn:Hm;
      [|left; apply default_agent_message].
    destruct (Router.agent_by_id db (Py.lower g1)); [right; eauto|].
    destruct (Router.leader_of _); [right; eauto|].
    destruct (Router.agent_by_name db (Py.lower g1)); [right; eauto|].
    left. apply default_agent_message. }
  destruct Hcases as [-> | [token Hm]]; [exact Hdefault|].
  apply match_address_suffix in Hm as [Hlead [pre Hpre]].
  split; [|exists pre; exact Hpre].
  unfold Py.strip. rewrite (lstrip_fixed _ Hlead).
  apply (rstrip_fixed_suffix pre). rewrite <- Hpre.
  unfold Py.strip. apply rstrip_idem.
Qed.

(** X4: as soon as one agent exists every message gets a target, and the
    target is the id of an agent of the table or the leader that a team
    of the table names. *)
Theorem resolve_always_finds_target (raw : string) (db : Db) :
  agents db ≠ [] ->
  exists target,
    (Router.resolve_agent_for_message raw db).1 = Some target
    /\ (target ∈ Agent.id <$> agents db
        \/ exists team, team ∈ teams db
                        /\ Team.leader_agent_id team = Some target).
Proof.
  intros Hne.
  assert (Hdefault : exists target,
            (Router.default_agent raw db).1 = Some target
            /\ (target ∈ Agent.id <$> agents db
                \/ exists team, team ∈ teams db
                                /\ Team.leader_agent_id team = Some target)).
  { destruct (default_agent_least raw db Hne) as (m & -> & Hm & _).
    exists (Agent.id m). split; [reflexivity|]. left.
    apply list_elem_of_fmap. exists m. split; [reflexivity | exact Hm]. }
  unfold Router.resolve_agent_for_message.
  destruct (Router.match_address (Py.strip raw)) as [[g1 m]|]; [|exact Hdefault].
  destruct (Router.agent_by_id db (Py.lower g1)) as [a|] eqn:Ha.
  { apply find_some_elem in Ha as [Ha _]. exists (Agent.id a).
    split; [reflexivity|]. left.
    apply list_elem_of_fmap. exists a. split; [reflexivity | exact Ha]. }
  destruct (Router.leader_of _) as [leader|] eqn:Hl.
  { unfold Router.leader_of in Hl.
    destruct (Router.team_by_id db (Py.lower g1)) as [t|] eqn:Ht; [|discriminate].
    destruct (Py.truthy_opt (Team.leader_agent_id t)); [|discriminate].
    apply find_some_elem in Ht as [Ht _]. exists leader.
    split; [reflexivity|]. right. exists t. split; [exact Ht | exact Hl]. }
  destruct (Router.agent_by_name db (Py.lower g1)) as [a|] eqn:Hn; [|exact Hdefault].
  apply find_some_elem in Hn as [Hn _]. exists (Agent.id a).
  split; [reflexivity|]. left.
  apply list_elem_of_fmap. exists a. split; [reflexivity | exact Hn].
Qed.

Lemma resolve_finds_target_witness :
  agents Scenario.db ≠ []
  /\ exists target,
       (Router.resolve_agent_for_message "@dev ship it" Scenario.db).1
       = Some target.
Proof.
  assert (H : agents Scenario.db ≠ []) by discriminate.
  split; [exact H|].
  destruct (resolve_always_finds_target "@dev ship it" Scenario.db H)
    as (target & Ht & _).
  exists target. exact Ht.
Defined.

(** X5: the target depends on the address token only through its lower
    case: two messages whose tokens agree up to the case of their letters,
    or that both have no address prefix, get the same target. *)
Theorem resolve_ignores_case (raw1 raw2 : string) (db : Db) :
  (Py.lower ∘ fst) <$> Router.match_address (Py.strip raw1)
  = (Py.lower ∘ fst) <$> Router.match_address (Py.strip raw2) ->
  (Router.resolve_agent_for_message raw1 db).1
  = (Router.resolve_agent_for_message raw2 db).1.
Proof.
  unfold Router.resolve_agent_for_message.
  destruct (Router.match_address (Py.strip raw1)) as [[g1 m1]|],
           (Router.match_address (Py.strip raw2)) as [[g2 m2]|];
    cbn; intros H; try discriminate; [|apply default_agent_target].
  injection H as ->.
  destruct (Router.agent_by_id db (Py.lower g2)); [reflexivity|].
  destruct (Router.leader_of _); [reflexivity|].
  destruct (Router.agent_by_name db (Py.lower g2)); [reflexivity|].
  apply default_agent_target.
Qed.

Lemma resolve_ignores_case_witness :
  (Router.resolve_agent_for_message "@CODER fix the bug" Scenario.db).1
  = (Router.resolve_agent_for_message "  @Coder   and this too " Scenario.db).1.
Proof.
  apply resolve_ignores_case. vm_compute. reflexivity.
Defined.

(* ================================================================== *)
(** * More on the database tools *)
(* ================================================================== *)

(** X6: the guard of [_run_query] decides alone what becomes of a
    statement.  When the trimmed upper-case form of the statement starts
    with SELECT and none of its white-space separated words is a blocked
    keyword, the result is what creating the engine and executing the
    text as it came gives, whatever the allowed tables.  Any other
    statement gets one and the same answer for every engine, database and
    list of allowed tables: an error, never rows, and the statement is
    not passed on. *)
Theorem run_query_guard_decides (sql : string) :
  let normalized := Py.upper (Py.strip sql) in
  let passes :=
    Py.startswith "SELECT" normalized = true
    /\ forall kw, kw ∈ Py.split_ws normalized -> kw ∉ DbTools.blocked in
  (passes ->
     forall eng db_url allowed,
       (DbTools._run_query eng db_url sql allowed).1
       = DbTools.engine_run eng db_url sql)
  /\ (~ passes ->
      exists r,
        (forall payload, r ≠ JsonRows payload)
        /\ (forall text, r ≠ SchemaText text)
        /\ forall eng db_url allowed,
             DbTools._run_query eng db_url sql allowed = (Returned r, [])).
Proof.
  intros normalized passes. unfold passes, normalized, DbTools._run_query.
  split.
  - intros [Hs Hw] eng db_url allowed. rewrite Hs. cbn [negb].
    rewrite bool_decide_eq_false_2; [reflexivity|].
    intros Hne. apply Hne. apply elem_of_equiv_empty_L. intros x Hx.
    apply elem_of_intersection in Hx as [H1 H2].
    apply elem_of_list_to_set in H1. exact (Hw x H1 H2).
  - intros Hnot.
    destruct (Py.startswith "SELECT" (Py.upper (Py.strip sql))) eqn:Hs; cbn [negb];
      [|eexists; repeat split; discriminate].
    destruct (bool_decide _) eqn:Hb;
      [eexists; repeat split; discriminate|].
    exfalso. apply Hnot. split; [reflexivity|].
    intros kw Hkw Hblocked.
    apply bool_decide_eq_false in Hb. apply Hb. intros Hempty.
    assert (kw ∈ (list_to_set (Py.split_ws (Py.upper (Py.strip sql)))
                  ∩ DbTools.blocked : gset string))
      by (apply elem_of_intersection; split;
          [apply elem_of_list_to_set|]; assumption).
    rewrite Hempty in H. set_solver.
Qed.

Lemma run_query_guard_witness :
  (DbTools._run_query Scenario.engine "sqlite://" " select name from t "
     ["t"%string]).1
  = DbTools.engine_run Scenario.engine "sqlite://" " select name from t ".
Proof.
  apply (proj1 (run_query_guard_decides " select name from t ")).
  split; [reflexivity|].
  intros kw Hkw Hblocked.
  change (Py.split_ws (Py.upper (Py.strip " select name from t ")))
    with ["SELECT"; "NAME"; "FROM"; "T"]%string in Hkw.
  unfold DbTools.blocked in Hblocked. apply elem_of_list_to_set in Hblocked.
  rewrite !elem_of_cons, elem_of_nil in Hkw.
  destruct Hkw as [->|[->|[->|[->|[]]]]];
    repeat (apply elem_of_cons in Hblocked as [Hblocked|Hblocked];
            [discriminate|]); inversion Hblocked.
Defined.

(** X7: whatever the tool and its arguments, the only statement that a
    tool call can hand to the engine is the [sql] argument of a call of
    [query_database], and that statement passes the guard.  A call without
    the argument, [list_tables] and an unknown tool execute nothing. *)
Theorem tool_call_executes_only_its_select (eng : DbTools.Engine)
    (tool_name : string) (tool_input : gmap string string) (db_url : string)
    (allowed : list string) (stmt : string) :
  stmt ∈ (DbTools.execute_db_tool eng tool_name tool_input db_url allowed).2 ->
  tool_name = "query_database"%string
  /\ tool_input !! "sql"%string = Some stmt
  /\ Py.startswith "SELECT" (Py.upper (Py.strip stmt)) = true.
Proof.
  unfold DbTools.execute_db_tool.
  destruct (String.eqb tool_name "list_tables"); [intros H; inversion H|].
  destruct (String.eqb tool_name "query_database") eqn:Hq;
    [|intros H; inversion H].
  apply String.eqb_eq in Hq. unfold DbTools._run_query.
  destruct (Py.startswith "SELECT" _) eqn:Hs; cbn [negb];
    [|intros H; inversion H].
  destruct (bool_decide _); cbn [snd]; [intros H; inversion H|].
  intros H. apply list_elem_of_singleton in H. subst stmt.
  split; [exact Hq|]. split; [|exact Hs].
  destruct (tool_input !! "sql"%string) as [s|]; [reflexivity|].
  cbn in Hs. discriminate.
Qed.

Lemma tool_call_witness :
  let input : gmap string string := {[ "sql"%string := "select 1"%string ]} in
  "select 1"%string
    ∈ (DbTools.execute_db_tool Scenario.engine "query_database" input
         "sqlite://" []).2
  /\ input !! "sql"%string = Some "select 1"%string.
Proof.
  intros input.
  assert (H : "select 1"%string
                ∈ (DbTools.execute_db_tool Scenario.engine "query_database"
                     input "sqlite://" []).2)
    by (vm_compute; left).
  split; [exact H|].
  exact (proj1 (proj2 (tool_call_executes_only_its_select Scenario.engine
                         "query_database" input "sqlite://" []
                         "select 1" H))).
Defined.

Section ToolTableFacts.
Import Py Llm DbTools Runtime Invoker.

(** The resources that [_collect_db_tools] turns into tools. *)
Lemma collect_snoc rs res :
  (tool_name <$> (_collect_db_tools (rs ++ [res])).1, (_collect_db_tools (rs ++ [res])).2)
  = (if negb (String.eqb (AgentResource.kind res) "database")
        || negb (truthy_opt (AgentResource.db_url res))
     then (tool_name <$> (_collect_db_tools rs).1, (_collect_db_tools rs).2)
     else
       let url := default "" (AgentResource.db_url res) in
       let allowed := default [] (AgentResource.db_tables res) in
       let prefix := blanks_to_underscores (lower (AgentResource.name res)) in
       ((tool_name <$> (_collect_db_tools rs).1)
        ++ [prefix +:+ "__" +:+ "list_tables";
            prefix +:+ "__" +:+ "query_database"],
        <[prefix +:+ "__" +:+ "query_database" := (url, allowed)]>
          (<[prefix +:+ "__" +:+ "list_tables" := (url, allowed)]>
             (_collect_db_tools rs).2))).
Proof.
  unfold _collect_db_tools at 1 2. rewrite foldl_snoc.
  fold (_collect_db_tools rs).
  destruct (_collect_db_tools rs) as [tool_defs dispatch].
  destruct (negb _ || negb _); [reflexivity|].
  cbn. rewrite !fmap_app, <- app_assoc. reflexivity.
Qed.

End ToolTableFacts.


(** X8: [_collect_db_tools] offers two tools for each database resource
    that has a connection string, in the order of the resources and under
    the names [<prefix>__list_tables] and [<prefix>__query_database], the
    prefix being the resource name in lower case with its blanks turned to
    underscores; other resources add nothing.  The dispatch table has an
    entry for exactly the names that are offered. *)
Theorem offered_tools_are_dispatchable (rs : list AgentResource.t) :
  let tool_defs := (Invoker._collect_db_tools rs).1 in
  let dispatch := (Invoker._collect_db_tools rs).2 in
  let is_db := fun res =>
    String.eqb (AgentResource.kind res) "database"
    && Py.truthy_opt (AgentResource.db_url res) in
  let prefix := fun res =>
    Invoker.blanks_to_underscores (Py.lower (AgentResource.name res)) in
  DbTools.tool_name <$> tool_defs
  = List.filter is_db rs ≫= (fun res =>
      [prefix res +:+ "__list_tables"; prefix res +:+ "__query_database"])
  /\ forall n, n ∈ DbTools.tool_name <$> tool_defs <-> is_Some (dispatch !! n).
Proof.
  intros tool_defs dispatch is_db prefix. unfold tool_defs, dispatch.
  induction rs as [|res rs [IH1 IH2]] using rev_ind.
  - split; [reflexivity|]. intros n. cbn. rewrite lookup_empty. split.
    + intros H. inversion H.
    + intros [x H]. discriminate.
  - pose proof (collect_snoc rs res) as Hstep.
    assert (Hcond : negb (String.eqb (AgentResource.kind res) "database")
                    || negb (Py.truthy_opt (AgentResource.db_url res))
                    = negb (is_db res)).
    { unfold is_db. destruct (String.eqb _ _), (Py.truthy_opt _); reflexivity. }
    rewrite Hcond in Hstep. rewrite List.filter_app, bind_app. cbn [List.filter].
    destruct (is_db res); cbn [negb] in Hstep; cbv zeta in Hstep;
      injection Hstep as -> ->.
    + split.
      * rewrite IH1. reflexivity.
      * intros n. rewrite elem_of_app, !lookup_insert_is_Some, <- IH2.
        rewrite !elem_of_cons, elem_of_nil.
        destruct (decide (prefix res +:+ "__query_database" = n)) as [<-|H1];
          [tauto|].
        destruct (decide (prefix res +:+ "__list_tables" = n)) as [<-|H2];
          [tauto|].
        intuition congruence.
    + split; [rewrite IH1; cbn; rewrite app_nil_r; reflexivity | exact IH2].
Qed.

Lemma append_nil_l (s : string) : "" +:+ s = s.
Proof. reflexivity. Qed.

Lemma after_double_underscore_cons (c d : ascii) (rest : string) :
  Invoker.after_double_underscore (String c (String d rest))
  = if Ascii.eqb c "_" && Ascii.eqb d "_" then Some rest
    else Invoker.after_double_underscore (String d rest).
Proof. reflexivity. Qed.

(** X9: a namespaced tool name gives back the name of the tool: when the
    prefix followed by one underscore has no double underscore, the text
    after the first double underscore of [<prefix>__<tool>] is [<tool>]. *)
Theorem namespaced_name_round_trip (prefix raw : string) :
  Invoker.after_double_underscore (prefix +:+ "_") = None ->
  Invoker.after_double_underscore (prefix +:+ "__" +:+ raw) = Some raw.
Proof.
  induction prefix as [|c p IH]; [reflexivity|].
  rewrite !append_cons. intros H.
  destruct p as [|d p'].
  - rewrite !append_nil_l in *.
    rewrite after_double_underscore_cons in H |- *.
    destruct (Ascii.eqb c "_"); [vm_compute in H; discriminate | reflexivity].
  - rewrite !append_cons in *.
    rewrite after_double_underscore_cons in H |- *.
    destruct (Ascii.eqb c "_" && Ascii.eqb d "_"); [discriminate|].
    apply IH. exact H.
Qed.

Lemma namespaced_name_witness :
  Invoker.after_double_underscore ("sales_db" +:+ "_") = None
  /\ Invoker.after_double_underscore ("sales_db" +:+ "__" +:+ "query_database")
     = Some "query_database"%string.
Proof.
  assert (H : Invoker.after_double_underscore ("sales_db" +:+ "_") = None)
    by (vm_compute; reflexivity).
  split; [exact H|].
  exact (namespaced_name_round_trip "sales_db" "query_database" H).
Defined.

(** X10: a round whose calls all name tools that are not in the dispatch
    table does not fail: each call is answered with the error
    [Unknown tool: <name>], in order, and the state is as it was. *)
Theorem unknown_tools_do_not_fail (E : Runtime.Env)
    (dispatch : gmap string (string * list string))
    (calls : list Llm.ToolCall) (w : Runtime.World) :
  (forall tc, tc ∈ calls -> dispatch !! Llm.name tc = None) ->
  Invoker.run_tools E dispatch calls w
  = (Returned ((fun tc => JsonError ("Unknown tool: " +:+ Llm.name tc)) <$> calls),
     w).
Proof.
  induction calls as [|tc calls IH]; intros H; [reflexivity|].
  cbn [Invoker.run_tools]. unfold Runtime.bind at 1, Invoker.run_tool at 1.
  rewrite (H tc) by left. unfold Runtime.ret at 1.
  unfold Runtime.bind at 1. rewrite IH by (intros tc' Htc; apply H; right; exact Htc).
  reflexivity.
Qed.

Lemma unknown_tools_witness :
  Invoker.run_tools Scenario.env_tools ∅ (Llm.tool_calls Scenario.asks_tool)
    Scenario.world
  = (Returned [JsonError "Unknown tool: nope"], Scenario.world).
Proof.
  apply (unknown_tools_do_not_fail Scenario.env_tools ∅
           (Llm.tool_calls Scenario.asks_tool) Scenario.world).
  intros tc _. apply lookup_empty.
Defined.

Section ToolRoundFacts.
Import Py Llm DbTools Runtime Invoker.

Lemma run_tools_length E dispatch calls w rs w' :
  run_tools E dispatch calls w = (Returned rs, w') -> length rs = length calls.
Proof.
  revert w rs w'. induction calls as [|tc calls IH]; intros w rs w' H.
  - injection H as <- <-. reflexivity.
  - cbn [run_tools] in H. unfold bind at 1 in H.
    destruct (run_tool E dispatch tc w) as [[r|e] w1]; [|discriminate].
    unfold bind at 1 in H.
    destruct (run_tools E dispatch calls w1) as [[rs'|e] w2] eqn:Hrest;
      [|discriminate].
    injection H as <- <-. cbn. f_equal. eapply IH. exact Hrest.
Qed.

Lemma zip_fst_same_length {A B} (l : list A) (k : list B) :
  length k = length l -> (zip l k).*1 = l /\ (zip l k).*2 = k.
Proof.
  revert k. induction l as [|a l IH]; intros [|b k] H; try discriminate;
    [split; reflexivity|].
  cbn. destruct (IH k) as [-> ->]; [cbn in H; lia|]. split; reflexivity.
Qed.

End ToolRoundFacts.

(** X11: when the tools of a round return, there is one result for each
    call, and the history gets every result under the id of its call, in
    the order of the calls: nothing is dropped by the pairing. *)
Theorem every_tool_call_is_answered (E : Runtime.Env)
    (dispatch : gmap string (string * list string))
    (calls : list Llm.ToolCall) (w : Runtime.World)
    (results : list ToolReply) (w' : Runtime.World)
    (p : Llm.LLMProvider) (msgs : list Llm.ChatMsg) :
  Invoker.run_tools E dispatch calls w = (Returned results, w') ->
  length results = length calls
  /\ Llm.tool_result_blocks calls results
     = zip (Llm.call_id <$> calls) results
  /\ (Llm.tool_result_blocks calls results).*1 = Llm.call_id <$> calls
  /\ (Llm.tool_result_blocks calls results).*2 = results
  /\ Llm.append_tool_results p msgs calls results
     = msgs ++ match p with
               | Llm.OpenAIProvider =>
                   (fun '(i, r) => Llm.ToolMsg i r)
                   <$> zip (Llm.call_id <$> calls) results
               | _ => [Llm.ToolResultBlocks
                         (zip (Llm.call_id <$> calls) results)]
               end.
Proof.
  intros Hrun. apply run_tools_length in Hrun.
  assert (Hzip : forall (cs : list Llm.ToolCall) (rs : list ToolReply),
            Llm.tool_result_blocks cs rs = zip (Llm.call_id <$> cs) rs).
  { unfold Llm.tool_result_blocks. induction cs as [|c cs IH]; intros [|r rs];
      try reflexivity. cbn. f_equal. apply IH. }
  split; [exact Hrun|]. split; [apply Hzip|].
  rewrite Hzip.
  destruct (zip_fst_same_length (Llm.call_id <$> calls) results) as [H1 H2];
    [rewrite length_fmap; exact Hrun|].
  split; [exact H1|]. split; [exact H2|].
  unfold Llm.append_tool_results. destruct p; rewrite ?Hzip; try reflexivity.
  f_equal. clear. revert results.
  induction calls as [|c cs IH]; intros [|r rs]; try reflexivity.
  cbn. f_equal. apply IH.
Qed.

Lemma every_tool_call_witness :
  let calls := [Llm.mkToolCall "c1" "nope" ∅; Llm.mkToolCall "c2" "nada" ∅] in
  exists results,
    Invoker.run_tools Scenario.env_tools ∅ calls Scenario.world
    = (Returned results, Scenario.world)
    /\ length results = 2
    /\ (Llm.tool_result_blocks calls results).*1 = ["c1"; "c2"]%string.
Proof.
  intros calls.
  assert (H : Invoker.run_tools Scenario.env_tools ∅ calls Scenario.world
              = (Returned [JsonError "Unknown tool: nope";
                           JsonError "Unknown tool: nada"], Scenario.world))
    by reflexivity.
  eexists. split; [exact H|].
  destruct (every_tool_call_is_answered Scenario.env_tools ∅ calls
              Scenario.world _ Scenario.world Llm.OpenAIProvider [] H)
    as (Hlen & _ & Hids & _).
  split; [exact Hlen | exact Hids].
Defined.

(* ================================================================== *)
(** * More on the provider cache *)
(* ================================================================== *)

(** X12: a provider that [get_provider] returns is in the cache under the
    name that was asked for, the entries of the other names are as they
    were, and a second call gives the same provider and leaves the cache
    alone. *)
Theorem get_provider_caches (provider_name : string)
    (cache : gmap string Llm.LLMProvider) (p : Llm.LLMProvider)
    (cache' : gmap string Llm.LLMProvider) :
  Llm.get_provider provider_name cache = (Returned p, cache') ->
  cache' !! provider_name = Some p
  /\ (forall k, k ≠ provider_name -> cache' !! k = cache !! k)
  /\ Llm.get_provider provider_name cache' = (Returned p, cache').
Proof.
  intros H.
  assert (Hin : cache' !! provider_name = Some p
                /\ forall k, k ≠ provider_name -> cache' !! k = cache !! k).
  { unfold Llm.get_provider in H.
    destruct (cache !! provider_name) as [q|] eqn:Hc.
    - injection H as <- <-. split; [exact Hc | reflexivity].
    - destruct (String.eqb provider_name "anthropic");
        [|destruct (String.eqb provider_name "openai");
          [|destruct (String.eqb provider_name "google"); [|discriminate]]];
        injection H as <- <-;
        (split; [apply lookup_insert_eq
                | intros k Hk; apply lookup_insert_ne; congruence]). }
  destruct Hin as [H1 H2]. split; [exact H1|]. split; [exact H2|].
  unfold Llm.get_provider. rewrite H1. reflexivity.
Qed.

Lemma get_provider_caches_witness :
  Llm.get_provider "openai" ∅
  = (Returned Llm.OpenAIProvider, {[ "openai"%string := Llm.OpenAIProvider ]})
  /\ Llm.get_provider "openai" {[ "openai"%string := Llm.OpenAIProvider ]}
     = (Returned Llm.OpenAIProvider, {[ "openai"%string := Llm.OpenAIProvider ]}).
Proof.
  assert (H : Llm.get_provider "openai" ∅
              = (Returned Llm.OpenAIProvider,
                 {[ "openai"%string := Llm.OpenAIProvider ]}))
    by reflexivity.
  split; [exact H|].
  exact (proj2 (proj2 (get_provider_caches "openai" ∅ _ _ H))).
Defined.

(* ================================================================== *)
(** * More on conversations and the prompt *)
(* ================================================================== *)

Section ConversationUpkeep.
Import Py Llm Runtime Invoker Upkeep.

Lemma filter_length_fmap {A} (p : A -> bool) (f : A -> A) (l : list A) :
  (forall a, a ∈ l -> p (f a) = p a) ->
  length (List.filter p (f <$> l)) = length (List.filter p l).
Proof.
  induction l as [|a l IH]; intros H; [reflexivity|].
  cbn [fmap list_fmap List.filter]. rewrite (H a) by left.
  destruct (p a); cbn [length]; rewrite IH; auto; intros; apply H; right; auto.
Qed.

Lemma filter_singleton_holds {A} (p : A -> bool) (l : list A) (a : A) :
  List.filter p l = [a] -> a ∈ l /\ p a = true.
Proof.
  intros H.
  assert (Hin : In a (List.filter p l)) by (rewrite H; left; reflexivity).
  apply filter_In in Hin as [H1 H2]. split; [apply list_elem_of_In; exact H1 | exact H2].
Qed.

End ConversationUpkeep.

(** X13: [get_or_create_conversation] keeps the table at one conversation
    per agent, sender and channel at most: from such a table it returns a
    conversation of the key that was asked for, which is a row of the
    table it leaves, and that table has the property again. *)
Theorem conversations_stay_unique (E : Runtime.Env) (agent_id sender_id : string)
    (sender_name : option string) (channel : string) (w : Runtime.World) :
  Upkeep.one_conversation_per_key (conversations (Runtime.view w)) ->
  exists c w',
    Invoker.get_or_create_conversation E agent_id sender_id sender_name channel w
    = (Returned c, w')
    /\ Upkeep.one_conversation_per_key (conversations (Runtime.view w'))
    /\ c ∈ conversations (Runtime.view w')
    /\ Conversation.agent_id c = agent_id
    /\ Conversation.sender_id c = sender_id
    /\ Conversation.channel c = channel.
Proof.
  intros Huniq.
  unfold Invoker.get_or_create_conversation, Runtime.bind, Runtime.gets.
  destruct (List.filter _ _) as [|conv [|conv' rows]] eqn:Hf.
  - eexists _, _. split; [reflexivity|]. cbn.
    split; [|split; [apply elem_of_app; right; left | tauto]].
    intros a s c. rewrite List.filter_app, length_app. cbn [List.filter].
    destruct (Invoker.same_conversation a s c _) eqn:Hsame; cbn [length];
      [|specialize (Huniq a s c); lia].
    apply same_conversation_key in Hsame. cbn in Hsame.
    destruct Hsame as (<- & <- & <-). rewrite Hf. cbn. lia.
  - apply filter_singleton_holds in Hf as [Hin Hconv].
    apply same_conversation_key in Hconv as Hkey.
    destruct (_ && _).
    + eexists _, _. split; [reflexivity|]. cbn.
      split; [|split; [|tauto]].
      * intros a s c. rewrite filter_length_fmap; [apply Huniq|].
        intros x _.
        destruct (Invoker.same_conversation agent_id sender_id channel x) eqn:Hx;
          [|reflexivity].
        apply same_conversation_key in Hx.
        unfold Invoker.same_conversation. cbn.
        destruct Hkey as (-> & -> & ->), Hx as (-> & -> & ->). reflexivity.
      * apply list_elem_of_fmap. exists conv. rewrite Hconv. split; [reflexivity | exact Hin].
    + eexists _, _. split; [reflexivity|].
      split; [exact Huniq|]. split; [exact Hin | exact Hkey].
  - exfalso. specialize (Huniq agent_id sender_id channel).
    rewrite Hf in Huniq. cbn in Huniq. lia.
Qed.

Lemma conversations_stay_unique_witness :
  Upkeep.one_conversation_per_key (conversations (Runtime.view Scenario.world))
  /\ exists c w',
       Invoker.get_or_create_conversation Scenario.env_tagged "alice" "u1"
         (Some "Ann"%string) "whatsapp" Scenario.world = (Returned c, w')
       /\ Upkeep.one_conversation_per_key (conversations (Runtime.view w')).
Proof.
  assert (H : Upkeep.one_conversation_per_key
                (conversations (Runtime.view Scenario.world)))
    by (intros a s c; cbn; lia).
  split; [exact H|].
  destruct (conversations_stay_unique Scenario.env_tagged "alice" "u1"
              (Some "Ann"%string) "whatsapp" Scenario.world H)
    as (c & w' & Hrun & Huniq & _).
  exists c, w'. split; [exact Hrun | exact Huniq].
Defined.

(** X14: when the conversation exists, its id is kept, and the name of the
    sender is written only into a row that has none: a stored name is
    never replaced, and a missing one is filled by the first name that
    comes with a message. *)
Theorem sender_name_is_filled_once (E : Runtime.Env) (agent_id sender_id : string)
    (sender_name : option string) (channel : string) (row : Conversation.t)
    (w : Runtime.World) :
  List.filter (Invoker.same_conversation agent_id sender_id channel)
    (conversations (Runtime.view w)) = [row] ->
  exists c w',
    Invoker.get_or_create_conversation E agent_id sender_id sender_name channel w
    = (Returned c, w')
    /\ Conversation.id c = Conversation.id row
    /\ Conversation.sender_name c
       = (if Py.truthy_opt (Conversation.sender_name row)
          then Conversation.sender_name row
          else if Py.truthy_opt sender_name then sender_name
               else Conversation.sender_name row)
    /\ c ∈ conversations (Runtime.view w')
    /\ (Py.truthy_opt (Conversation.sender_name row) = true -> w' = w).
Proof.
  intros Hf.
  unfold Invoker.get_or_create_conversation, Runtime.bind, Runtime.gets.
  rewrite Hf. apply filter_singleton_holds in Hf as [Hin Hrow].
  destruct (Py.truthy_opt sender_name) eqn:Hs,
           (Py.truthy_opt (Conversation.sender_name row)) eqn:Hr; cbn [andb negb].
  - eexists _, _. split; [reflexivity|]. repeat split; auto.
  - eexists _, _. split; [reflexivity|]. cbn.
    split; [reflexivity|]. split; [reflexivity|]. split; [|discriminate].
    apply list_elem_of_fmap. exists row. rewrite Hrow.
    split; [reflexivity | exact Hin].
  - eexists _, _. split; [reflexivity|]. repeat split; auto.
  - eexists _, _. split; [reflexivity|]. repeat split; auto.
Qed.

Lemma sender_name_witness :
  let row := Conversation.mk "c1" "alice" "u1" (Some "Ann"%string) "whatsapp" in
  let w := Runtime.with_view (Invoker.set_conversations [row]) Scenario.world in
  List.filter (Invoker.same_conversation "alice" "u1" "whatsapp")
    (conversations (Runtime.view w)) = [row]
  /\ exists c w',
       Invoker.get_or_create_conversation Scenario.env_tagged "alice" "u1"
         (Some "Bob"%string) "whatsapp" w = (Returned c, w')
       /\ Conversation.sender_name c = Some "Ann"%string.
Proof.
  intros row w.
  assert (H : List.filter (Invoker.same_conversation "alice" "u1" "whatsapp")
                (conversations (Runtime.view w)) = [row]) by reflexivity.
  split; [exact H|].
  destruct (sender_name_is_filled_once Scenario.env_tagged "alice" "u1"
              (Some "Bob"%string) "whatsapp" row w H)
    as (c & w' & Hrun & _ & Hname & _).
  exists c, w'. split; [exact Hrun | exact Hname].
Defined.

Section HistoryFacts.
Import Runtime Invoker History.

Lemma filter_fmap_commute {A B} (f : B -> bool) (g : A -> B) (l : list A) :
  List.filter f (g <$> l) = g <$> List.filter (fun a => f (g a)) l.
Proof.
  induction l as [|a l IH]; [reflexivity|]. cbn [fmap list_fmap List.filter].
  fold (fmap g l). rewrite IH. destruct (f (g a)); reflexivity.
Qed.

Lemma strongly_sorted_weaken {A} (R R' : relation A) (l : list A) :
  (forall a b, R a b -> R' a b) -> StronglySorted R l -> StronglySorted R' l.
Proof.
  intros Himpl. induction 1 as [|a l Hl IH Ha]; constructor; [exact IH|].
  eapply Forall_impl; [exact Ha | exact (Himpl a)].
Qed.

Lemma strongly_sorted_reverse {A} (R : relation A) (l : list A) :
  StronglySorted R l -> StronglySorted (flip R) (reverse l).
Proof.
  induction 1 as [|a l Hl IH Ha]; [constructor|].
  rewrite reverse_cons. apply StronglySorted_app_2.
  - intros x1 x2 Hx1 Hx2. apply list_elem_of_singleton in Hx2. subst x2.
    rewrite elem_of_reverse in Hx1. rewrite Forall_forall in Ha. exact (Ha x1 Hx1).
  - exact IH.
  - repeat constructor.
Qed.

Lemma distinct_stamps (l : list Stamped) x y :
  StronglySorted (fun a b => a.1 < b.1) l ->
  x ∈ l -> y ∈ l -> x.1 = y.1 -> x = y.
Proof.
  induction 1 as [|a l Hl IH Ha]; intros Hx Hy Heq; [inversion Hx|].
  rewrite Forall_forall in Ha.
  apply elem_of_cons in Hx as [->|Hx]; apply elem_of_cons in Hy as [->|Hy].
  - reflexivity.
  - specialize (Ha y Hy). lia.
  - specialize (Ha x Hx). lia.
  - apply IH; assumption.
Qed.

(** With distinct creation times the query has one answer: the rows of
    the conversation, newest first. *)
Lemma query_answer_unique conv table res :
  created_in_order conv table -> answers_query conv table res ->
  res = reverse (rows_of conv table).
Proof.
  intros Hord [Hperm Hsorted]. symmetry.
  apply (StronglySorted_unique_strong (fun a b : Stamped => b.1 <= a.1)).
  - intros x1 x2 Hx1 Hx2 H12 H21.
    apply (distinct_stamps (rows_of conv table)); [exact Hord | | | lia].
    + rewrite elem_of_reverse in Hx1. exact Hx1.
    + rewrite <- Hperm. exact Hx2.
  - apply (strongly_sorted_weaken (flip (fun a b : Stamped => a.1 < b.1))).
    + unfold flip. intros a b. lia.
    + apply strongly_sorted_reverse, Hord.
  - apply Sorted.Sorted_StronglySorted; [|exact Hsorted].
    intros a b c. lia.
  - rewrite reverse_Permutation. symmetry. exact Hperm.
Qed.

End HistoryFacts.

(** X15: the history query of [invoke_agent], on rows that carry their
    [created_at].  When the messages of the conversation were created at
    distinct times, in the order of the table, then whatever answer the
    database gives to the ordered query, the first fifty rows of it,
    reversed, are the last fifty messages of the conversation in the order
    of their creation (all of them when there are fewer), which is what
    [load_history] returns; the state is not changed. *)
Theorem history_is_the_last_fifty (conv : Conversation.t) (w : Runtime.World)
    (table res : list History.Stamped) :
  messages (Runtime.view w) = snd <$> table ->
  History.created_in_order conv table ->
  History.answers_query conv table res ->
  let all := snd <$> History.rows_of conv table in
  Invoker.load_history conv w = (Returned (History.history_of res), w)
  /\ History.history_of res = drop (length all - 50) all
  /\ length (History.history_of res) = Nat.min (length all) 50
  /\ (forall m, m ∈ History.history_of res ->
        Message.conversation_id m = Conversation.id conv).
Proof.
  intros Hview Hord Hans all.
  assert (Hres : History.history_of res = drop (length all - 50) all).
  { rewrite (query_answer_unique conv table res Hord Hans).
    unfold History.history_of, Invoker.MAX_HISTORY.
    rewrite take_reverse, reverse_involutive, fmap_drop.
    unfold all. rewrite length_fmap. reflexivity. }
  split; [|split; [exact Hres|split]].
  - unfold Invoker.load_history, Runtime.gets. rewrite Hview, Hres.
    rewrite filter_fmap_commute. reflexivity.
  - rewrite Hres, length_drop. lia.
  - intros m Hm. rewrite Hres in Hm. apply (subseteq_drop _ _ m) in Hm.
    unfold all in Hm. apply list_elem_of_fmap in Hm as (r & -> & Hr).
    unfold History.rows_of in Hr.
    apply elem_of_bool_filter in Hr as [_ Hr]. apply String.eqb_eq in Hr. exact Hr.
Qed.

(** With rows of equal [created_at] the database may answer in either
    order, and the history follows its answer. *)
Lemma equal_stamps_leave_the_order_open :
  let table := [(7, Demo.first_message); (7, Demo.second_message)] in
  History.answers_query Demo.chat table table
  /\ History.answers_query Demo.chat table (reverse table)
  /\ History.history_of (reverse table)
     = [Demo.first_message; Demo.second_message]
  /\ History.history_of table = [Demo.second_message; Demo.first_message].
Proof.
  intros table. split; [|split; [|split; reflexivity]].
  - split; [reflexivity|]. repeat constructor.
  - split; [apply perm_swap|]. repeat constructor.
Qed.

Lemma history_witness :
  let w := Runtime.with_view
             (fun d => mkDb (agents d) (teams d) (conversations d)
                         (snd <$> Demo.stamped_table) (tasks d) (resources d))
             Scenario.world in
  let res := [(5, Demo.second_message); (3, Demo.first_message)] in
  History.created_in_order Demo.chat Demo.stamped_table
  /\ History.answers_query Demo.chat Demo.stamped_table res
  /\ Invoker.load_history Demo.chat w
     = (Returned [Demo.first_message; Demo.second_message], w).
Proof.
  intros w res.
  assert (Hord : History.created_in_order Demo.chat Demo.stamped_table).
  { unfold History.created_in_order.
    change (History.rows_of Demo.chat Demo.stamped_table)
      with [(3, Demo.first_message); (5, Demo.second_message)].
    repeat constructor. }
  assert (Hans : History.answers_query Demo.chat Demo.stamped_table res).
  { split; [apply perm_swap|]. repeat constructor. }
  split; [exact Hord|]. split; [exact Hans|].
  destruct (history_is_the_last_fifty Demo.chat w Demo.stamped_table res
              eq_refl Hord Hans) as (Hload & _).
  exact Hload.
Defined.

(* ================================================================== *)
(** * More on the task executor: the queue and the deliveries *)
(* ================================================================== *)

Section OutboxFacts.
Import Py Llm Runtime Invoker LQueue Upkeep.
Variable E : Env.

Lemma sub_tasks_cons item base m ms :
  sub_tasks E item base (m :: ms)
  = sub_task E item base m :: sub_tasks E item (S base) ms.
Proof.
  unfold sub_tasks. rewrite imap_cons, Nat.add_0_r. f_equal.
  apply imap_ext. intros k x _. cbn. f_equal. lia.
Qed.

(** What [route_mentions] does to the queue. *)
Lemma route_mentions_queue item ms w :
  exists w', route_mentions E item ms w = (Returned tt, w')
             /\ queue w' = queue w ++ sub_tasks E item (uuids w) ms
             /\ uuids w' = uuids w + length ms
             /\ llm_calls w' = llm_calls w.
Proof.
  revert w. induction ms as [|m ms IH]; intros w.
  - exists w. cbn. rewrite app_nil_r, Nat.add_0_r. repeat split; reflexivity.
  - destruct (route_mentions E item (m :: ms) w) as [r wf] eqn:Hrun.
    cbn [route_mentions] in Hrun.
    unfold bind at 1, hub_log at 1, broadcast at 1, modify at 1 in Hrun.
    unfold bind at 1, enqueue at 1, bind at 1, new_uuid at 1 in Hrun.
    unfold bind at 1, put_queue at 1, modify at 1 in Hrun.
    unfold bind at 1, hub_log at 1, broadcast at 1, modify at 1 in Hrun.
    unfold ret at 1 in Hrun.
    match type of Hrun with
    | route_mentions E item ms ?w1 = _ =>
        assert (Hw1 : queue w1 = queue w ++ [sub_task E item (uuids w) m]
                      /\ uuids w1 = S (uuids w)
                      /\ llm_calls w1 = llm_calls w)
          by (repeat split; reflexivity);
        remember w1 as wx eqn:Hwx in Hrun, Hw1; clear Hwx
    end.
    destruct (IH wx) as (w' & Hr & Hq & Hu & Hl).
    rewrite Hr in Hrun. injection Hrun as <- <-.
    exists w'. split; [reflexivity|].
    destruct Hw1 as (Hq1 & Hu1 & Hl1).
    rewrite Hq, Hu, Hl, Hq1, Hu1, Hl1, sub_tasks_cons, <- app_assoc.
    repeat split; cbn; lia.
Qed.

(** The queue after the [try] branch, when the invocation returns. *)
Lemma run_agent_returned_queue item agent w reply w2 :
  invoke_agent E agent (conversation_key item) (sender_name item)
    (message item) (channel item) w = (Returned reply, w2) ->
  let team := team_agent_ids_of (agents (view w2)) (agent_id item) in
  let mentions := Router.extract_teammate_mentions reply (agent_id item) team in
  queue (run_agent E item agent w).2
  = queue w2 ++ sub_tasks E item (uuids w2) mentions
  /\ llm_calls (run_agent E item agent w).2 = llm_calls w2.
Proof.
  intros Hinv team mentions.
  assert (Hteam : _get_team_agent_ids (agent_id item) w2 = (Returned team, w2))
    by reflexivity.
  destruct (run_agent E item agent w) as [r wf] eqn:Hrun.
  unfold run_agent, try_except in Hrun. unfold bind at 1 in Hrun.
  rewrite Hinv in Hrun. unfold bind at 1 in Hrun. rewrite Hteam in Hrun.
  cbv zeta in Hrun. fold mentions in Hrun.
  set (clean := clean_reply_of reply mentions) in *.
  unfold bind at 1, update_task at 1, modify at 1 in Hrun.
  unfold bind at 1, commit at 1, modify at 1 in Hrun.
  unfold bind at 1, task_update at 1, bind at 1, gets at 1, broadcast at 1,
    modify at 1 in Hrun.
  unfold bind at 1, hub_log at 1, broadcast at 1, modify at 1 in Hrun.
  unfold bind at 1 in Hrun.
  match type of Hrun with
  | context [route_mentions E item mentions ?w1] =>
      destruct (route_mentions_queue item mentions w1)
        as (w3 & Hroute & Hq & _ & Hl);
      rewrite Hroute in Hrun
  end.
  cbn [queue uuids llm_calls with_view] in Hq, Hl.
  unfold _send_reply in Hrun.
  destruct (truthy_opt (parent_task_id item)).
  - injection Hrun as <- <-. cbn [snd]. split; [exact Hq | exact Hl].
  - destruct (bridge_post E _) as [e|]; injection Hrun as <- <-; cbn [snd];
      (split; [exact Hq | exact Hl]).
Qed.

(** The queue after the [except] branch. *)
Lemma run_agent_raised_queue item agent w e w2 :
  invoke_agent E agent (conversation_key item) (sender_name item)
    (message item) (channel item) w = (Raised e, w2) ->
  queue (run_agent E item agent w).2 = queue w2
  /\ llm_calls (run_agent E item agent w).2 = llm_calls w2.
Proof.
  intros Hinv. destruct (run_agent E item agent w) as [r wf] eqn:Hrun.
  unfold run_agent, try_except in Hrun. unfold bind at 1 in Hrun.
  rewrite Hinv in Hrun. injection Hrun as <- <-. split; reflexivity.
Qed.

(** [_process] up to the lookup of the agent, when there is none. *)
Lemma process_without_agent item w :
  Router.agent_by_id (store w) (agent_id item) = None ->
  exists wf,
    _process E item w = (Returned tt, wf)
    /\ store wf = view wf
    /\ tasks (view wf)
       = alter (mark_failed (not_found item)) (task_id item)
           (tasks (registered item w))
    /\ messages (view wf) = messages (store w)
    /\ queue wf = queue w /\ sent wf = sent w
    /\ llm_calls wf = llm_calls w /\ sql_log wf = sql_log w.
Proof.
  intros Hnone.
  destruct (_process E item w) as [r wf] eqn:Hrun. exists wf.
  unfold _process in Hrun. cbv zeta in Hrun.
  unfold bind at 1, open_session at 1, modify at 1 in Hrun.
  unfold bind at 1, add_task at 1, modify at 1 in Hrun.
  unfold bind at 1, commit at 1, modify at 1 in Hrun.
  unfold bind at 1, task_update at 1, bind at 1, gets at 1, broadcast at 1,
    modify at 1 in Hrun.
  unfold bind at 1, gets at 1 in Hrun.
  cbn [view store commits _providers uuids llm_calls sql_log events queue
         sent with_view] in Hrun.
  destruct (Router.agent_by_id _ (agent_id item)) as [agent|] eqn:Hagent
    in Hrun;
    [ change (Router.agent_by_id (store w) (agent_id item) = Some agent)
        in Hagent; congruence |].
  injection Hrun as <- <-. repeat split; reflexivity.
Qed.

(** [_process] up to the [try] statement, when the agent is found. *)
Lemma process_with_agent item w agent :
  Router.agent_by_id (store w) (agent_id item) = Some agent ->
  exists w1,
    _process E item w = run_agent E item agent w1
    /\ view w1 = registered item w
    /\ store w1 = registered item w
    /\ queue w1 = queue w /\ sent w1 = sent w
    /\ uuids w1 = uuids w /\ llm_calls w1 = llm_calls w
    /\ _providers w1 = _providers w.
Proof.
  intros Hsome.
  destruct (_process E item w) as [r wf] eqn:Hrun.
  unfold _process in Hrun. cbv zeta in Hrun.
  unfold bind at 1, open_session at 1, modify at 1 in Hrun.
  unfold bind at 1, add_task at 1, modify at 1 in Hrun.
  unfold bind at 1, commit at 1, modify at 1 in Hrun.
  unfold bind at 1, task_update at 1, bind at 1, gets at 1, broadcast at 1,
    modify at 1 in Hrun.
  unfold bind at 1, gets at 1 in Hrun.
  cbn [view store commits _providers uuids llm_calls sql_log events queue
         sent with_view] in Hrun.
  destruct (Router.agent_by_id _ (agent_id item)) as [agent'|] eqn:Hagent
    in Hrun;
    [ change (Router.agent_by_id (store w) (agent_id item) = Some agent')
        in Hagent
    | change (Router.agent_by_id (store w) (agent_id item) = None)
        in Hagent; congruence ].
  rewrite Hsome in Hagent. injection Hagent as <-.
  unfold bind at 1, hub_log at 1, broadcast at 1, modify at 1 in Hrun.
  cbv beta in Hrun.
  cbn [view store commits _providers uuids llm_calls sql_log events queue
         sent] in Hrun.
  eexists. split; [symmetry; exact Hrun|]. repeat split; reflexivity.
Qed.

(** The invocation leaves the queue, the deliveries and the agent rows
    alone. *)
Lemma invoke_agent_outbox agent sender_id sender_name message channel w :
  let w' := (invoke_agent E agent sender_id sender_name message channel w).2 in
  queue w' = queue w /\ sent w' = sent w
  /\ agents (view w') = agents (view w).
Proof.
  intros w'.
  destruct (invoke_agent_cases E agent sender_id sender_name message channel w)
    as (r & w0 & Hinv & Hcases).
  unfold w'. rewrite Hinv. cbn [snd].
  destruct Hcases as [(e & _ & Q) | [(e & _ & _ & Q) | (p & t & cid & w1 & _ & _ & Q & P)]].
  - destruct Q. tauto.
  - destruct Q. tauto.
  - destruct Q, P as (i1 & i2 & _ & _ & Ha & _ & _ & _ & Hq & Hs).
    repeat split; congruence.
Qed.

Lemma extract_outside_team reply acting :
  Router.extract_teammate_mentions reply acting [] = [].
Proof.
  destruct (Router.extract_teammate_mentions reply acting []) as [|d ds] eqn:H;
    [reflexivity|].
  assert (Hd : d ∈ Router.extract_teammate_mentions reply acting [])
    by (rewrite H; left).
  rewrite extract_is_emit in Hd.
  apply emit_first_seen_elem in Hd as [Hd _].
  apply elem_of_bool_filter in Hd as [_ Hd].
  apply eligible_spec in Hd as (_ & _ & Hd). inversion Hd.
Qed.

End OutboxFacts.

Section ProcessOutcome.
Import Py Llm Runtime Invoker LQueue Upkeep.
Variable E : Env.

Lemma registered_row item w :
  tasks (registered item w) !! task_id item = Some (new_task item).
Proof. apply lookup_insert_eq. Qed.

(** The two ends of [_process].  The task is stored as [failed], with
    the queue and the deliveries as they were; or the agent is found, its
    invocation returns a reply, and the task is stored as [done] with the
    clean reply, the delegations are enqueued and the reply is handed to
    [_send_reply]. *)
Lemma process_outcome item w :
  exists wf,
    _process E item w = (Returned tt, wf)
    /\ ((exists e,
           tasks (store wf) !! task_id item
           = Some (mark_failed e (new_task item))
           /\ (Router.agent_by_id (store w) (agent_id item) = None ->
               e = not_found item /\ llm_calls wf = llm_calls w)
           /\ queue wf = queue w /\ sent wf = sent w)
        \/ (exists agent w1 reply w2,
              Router.agent_by_id (store w) (agent_id item) = Some agent
              /\ invoke_agent E agent (conversation_key item) (sender_name item)
                   (message item) (channel item) w1 = (Returned reply, w2)
              /\ uuids w1 = uuids w
              /\ let mentions :=
                   Router.extract_teammate_mentions reply (agent_id item)
                     (team_agent_ids_of (agents (store w)) (agent_id item)) in
                 let clean := clean_reply_of reply mentions in
                 tasks (store wf) !! task_id item
                 = Some (mark_done clean (new_task item))
                 /\ queue wf = queue w ++ sub_tasks E item (uuids w2) mentions
                 /\ sent wf = sent w ++ delivered E item clean)).
Proof.
  destruct (Router.agent_by_id (store w) (agent_id item)) as [agent|] eqn:Hagent.
  - destruct (process_with_agent E item w agent Hagent)
      as (w1 & Hproc & Hv & Hs & Hq & Hd & Hu & _).
    destruct (invoke_agent E agent (conversation_key item) (sender_name item)
                (message item) (channel item) w1) as [[reply|e] w2] eqn:Hinv.
    + destruct (run_agent_returned E item agent w1 reply w2 Hinv)
        as (wf & Hrun & Ht & _ & Hst & _ & Hsent).
      destruct (run_agent_returned_queue E item agent w1 reply w2 Hinv)
        as [Hqueue _].
      rewrite Hrun in Hqueue. cbn [snd] in Hqueue.
      pose proof (invoke_agent_outbox E agent (conversation_key item)
                    (sender_name item) (message item) (channel item) w1) as Hout.
      rewrite Hinv in Hout. cbn [snd] in Hout. destruct Hout as (Hq2 & Hd2 & Ha2).
      destruct (invoke_agent_tasks E _ _ _ _ _ _ _ _ Hinv) as [Ht2 _].
      assert (Hagents : agents (view w2) = agents (store w))
        by (rewrite Ha2, Hv; reflexivity).
      rewrite Hagents in Ht, Hsent, Hqueue.
      exists wf. split; [rewrite Hproc; exact Hrun|]. right.
      exists agent, w1, reply, w2. split; [reflexivity|].
      split; [exact Hinv|]. split; [exact Hu|]. cbv zeta.
      split; [|split].
      * rewrite Hst, Ht, lookup_alter_eq, Ht2, Hv, registered_row. reflexivity.
      * rewrite Hqueue, Hq2, Hq. reflexivity.
      * rewrite Hsent, Hd2, Hd. reflexivity.
    + destruct (run_agent_raised E item agent w1 e w2 Hinv)
        as (wf & Hrun & Ht & _ & Hst & _ & Hsent).
      destruct (run_agent_raised_queue E item agent w1 e w2 Hinv) as [Hqueue _].
      rewrite Hrun in Hqueue. cbn [snd] in Hqueue.
      pose proof (invoke_agent_outbox E agent (conversation_key item)
                    (sender_name item) (message item) (channel item) w1) as Hout.
      rewrite Hinv in Hout. cbn [snd] in Hout. destruct Hout as (Hq2 & Hd2 & _).
      destruct (invoke_agent_tasks E _ _ _ _ _ _ _ _ Hinv) as [Ht2 _].
      exists wf. split; [rewrite Hproc; exact Hrun|]. left. exists e.
      split; [rewrite Hst, Ht, lookup_alter_eq, Ht2, Hv, registered_row;
              reflexivity|].
      split; [discriminate|].
      split; [rewrite Hqueue, Hq2, Hq | rewrite Hsent, Hd2, Hd]; reflexivity.
  - destruct (process_without_agent E item w Hagent)
      as (wf & Hproc & Hst & Ht & _ & Hq & Hd & Hl & _).
    exists wf. split; [exact Hproc|]. left. exists (not_found item).
    split; [rewrite Hst, Ht, lookup_alter_eq, registered_row; reflexivity|].
    split; [intros _; split; [reflexivity | exact Hl]|].
    split; [exact Hq | exact Hd].
Qed.

Lemma sub_tasks_parent item base ms :
  Forall (fun c => parent_task_id c = Some (task_id item)
                   /\ sender_id c = sender_id item
                   /\ channel c = channel item
                   /\ group_id c = group_id item)
    (sub_tasks E item base ms).
Proof.
  revert base. induction ms as [|m ms IH]; intros base; [constructor|].
  rewrite sub_tasks_cons. constructor; [repeat split|apply IH].
Qed.

End ProcessOutcome.

(** X16: [_process] lets no exception out of a task whose id is not
    stored yet (the id is a fresh [uuid4] of [enqueue], the primary key of
    the row that [_process] adds): whatever the rest of the state and the
    behaviour of the provider, the tools and the bridge, it returns. *)
Theorem process_never_raises (E : Runtime.Env) (item : Runtime.Item)
    (w : Runtime.World) :
  tasks (Runtime.store w) !! Runtime.task_id item = None ->
  (LQueue._process E item w).1 = Returned tt.
Proof.
  intros _. destruct (process_outcome E item w) as (wf & -> & _). reflexivity.
Qed.

Lemma process_never_raises_witness :
  tasks (Runtime.store Scenario.world) !! Runtime.task_id Scenario.item = None
  /\ (LQueue._process Scenario.env_down Scenario.item Scenario.world).1
     = Returned tt.
Proof.
  split; [reflexivity|].
  apply (process_never_raises Scenario.env_down Scenario.item Scenario.world).
  reflexivity.
Defined.

(** X17: a task that ends as [failed] is silent: nothing is posted to
    the bridge and no sub-task is enqueued. *)
Theorem failed_task_is_silent (E : Runtime.Env) (item : Runtime.Item)
    (w : Runtime.World) (t : Task.t) :
  tasks (Runtime.store (LQueue._process E item w).2) !! Runtime.task_id item
  = Some t ->
  Task.status t = Task.failed ->
  Runtime.sent (LQueue._process E item w).2 = Runtime.sent w
  /\ Runtime.queue (LQueue._process E item w).2 = Runtime.queue w.
Proof.
  destruct (process_outcome E item w) as (wf & -> & Hcases). cbn [snd].
  intros Ht Hfailed.
  destruct Hcases as [(e & _ & _ & Hq & Hs) | (agent & w1 & reply & w2 & _ & _ & _ & Hdone)];
    [split; assumption|].
  cbv zeta in Hdone. destruct Hdone as (Hrow & _).
  rewrite Hrow in Ht. injection Ht as <-. discriminate.
Qed.

Lemma failed_task_witness :
  let run := LQueue._process Scenario.env_down Scenario.item Scenario.world in
  (tasks (Runtime.store run.2) !! "task-1"%string) ≫= (Some ∘ Task.status)
  = Some Task.failed
  /\ Runtime.sent run.2 = [] /\ Runtime.queue run.2 = [].
Proof.
  intros run.
  assert (H : tasks (Runtime.store run.2) !! Runtime.task_id Scenario.item
              = Some (LQueue.mark_failed "provider down"
                        (LQueue.new_task Scenario.item)))
    by (vm_compute; reflexivity).
  split; [change ("task-1"%string) with (Runtime.task_id Scenario.item);
          rewrite H; reflexivity|].
  exact (failed_task_is_silent Scenario.env_down Scenario.item Scenario.world
           _ H eq_refl).
Defined.

(** X18: when the invocation returns, one sub-task is enqueued for each
    delegation of the reply, in the order of the delegations and behind
    the items that were waiting.  A sub-task names the teammate and
    carries the message of the delegation, the sender, the channel and
    the group of the task at hand, and the id of that task as its
    parent. *)
Theorem delegations_are_enqueued (E : Runtime.Env) (item : Runtime.Item)
    (agent : Agent.t) (w : Runtime.World) (reply : string) (w2 : Runtime.World) :
  Invoker.invoke_agent E agent (LQueue.conversation_key item)
    (Runtime.sender_name item) (Runtime.message item) (Runtime.channel item) w
  = (Returned reply, w2) ->
  let mentions :=
    Router.extract_teammate_mentions reply (Runtime.agent_id item)
      (LQueue.team_agent_ids_of (agents (Runtime.view w2))
         (Runtime.agent_id item)) in
  Runtime.queue (LQueue.run_agent E item agent w).2
  = Runtime.queue w
    ++ imap (fun k m =>
         Runtime.mkItem (Runtime.uuid4 E (Runtime.uuids w2 + k))
           (Router.agent_id m) (Runtime.sender_id item)
           (Runtime.sender_name item) (Router.message m)
           (Runtime.channel item) (Some (Runtime.task_id item))
           (Runtime.group_id item)) mentions.
Proof.
  intros Hinv mentions.
  destruct (run_agent_returned_queue E item agent w reply w2 Hinv) as [Hq _].
  pose proof (invoke_agent_outbox E agent (LQueue.conversation_key item)
                (Runtime.sender_name item) (Runtime.message item)
                (Runtime.channel item) w) as Hout.
  rewrite Hinv in Hout. cbn [snd] in Hout. destruct Hout as (Hq2 & _).
  rewrite Hq, Hq2. reflexivity.
Qed.

Lemma delegations_witness :
  let w2 := (Invoker.invoke_agent Demo.env_delegating Scenario.alice "u1"
               (Some "Ann"%string) "hello" "whatsapp"
               Scenario.world_registered).2 in
  Invoker.invoke_agent Demo.env_delegating Scenario.alice
    (LQueue.conversation_key Scenario.item)
    (Runtime.sender_name Scenario.item) (Runtime.message Scenario.item)
    (Runtime.channel Scenario.item) Scenario.world_registered
  = (Returned Demo.delegating_reply, w2)
  /\ Runtime.queue
       (LQueue.run_agent Demo.env_delegating Scenario.item Scenario.alice
          Scenario.world_registered).2
     = [Runtime.mkItem "uuid-3" "bob" "u1" (Some "Ann"%string)
          ("Plan ready." +:+ Router.directed_header +:+ "please review")
          "whatsapp" (Some "task-1"%string) None].
Proof.
  intros w2.
  assert (H : Invoker.invoke_agent Demo.env_delegating Scenario.alice
                (LQueue.conversation_key Scenario.item)
                (Runtime.sender_name Scenario.item)
                (Runtime.message Scenario.item)
                (Runtime.channel Scenario.item) Scenario.world_registered
              = (Returned Demo.delegating_reply, w2))
    by (vm_compute; reflexivity).
  split; [exact H|].
  rewrite (delegations_are_enqueued Demo.env_delegating Scenario.item
             Scenario.alice Scenario.world_registered Demo.delegating_reply
             w2 H).
  vm_compute. reflexivity.
Defined.

(** X19: a sub-task never answers the sender: whatever happens while it
    is processed, nothing is posted to the bridge. *)
Theorem sub_tasks_never_reply (E : Runtime.Env) (item : Runtime.Item)
    (w : Runtime.World) :
  Py.truthy_opt (Runtime.parent_task_id item) = true ->
  Runtime.sent (LQueue._process E item w).2 = Runtime.sent w.
Proof.
  intros Hparent.
  destruct (process_outcome E item w) as (wf & -> & Hcases). cbn [snd].
  destruct Hcases as [(e & _ & _ & _ & Hs) | (agent & w1 & reply & w2 & _ & _ & _ & Hdone)];
    [exact Hs|].
  cbv zeta in Hdone. destruct Hdone as (_ & _ & Hs).
  rewrite Hs. unfold delivered. rewrite Hparent. apply app_nil_r.
Qed.

Lemma sub_tasks_never_reply_witness :
  Py.truthy_opt (Runtime.parent_task_id Demo.item_child) = true
  /\ Runtime.sent
       (LQueue._process Scenario.env_tagged Demo.item_child Scenario.world).2
     = [].
Proof.
  split; [reflexivity|].
  exact (sub_tasks_never_reply Scenario.env_tagged Demo.item_child
           Scenario.world eq_refl).
Defined.

(** X20: an agent that belongs to no team never delegates: whatever its
    reply holds, processing its task enqueues nothing. *)
Theorem teamless_agent_never_delegates (E : Runtime.Env) (item : Runtime.Item)
    (w : Runtime.World) (agent : Agent.t) :
  Router.agent_by_id (Runtime.store w) (Runtime.agent_id item) = Some agent ->
  Py.truthy_opt (Agent.team_id agent) = false ->
  Runtime.queue (LQueue._process E item w).2 = Runtime.queue w.
Proof.
  intros Hagent Hteam.
  destruct (process_outcome E item w) as (wf & -> & Hcases). cbn [snd].
  destruct Hcases as [(e & _ & _ & Hq & _) | (agent' & w1 & reply & w2 & Ha & _ & _ & Hdone)];
    [exact Hq|].
  cbv zeta in Hdone. destruct Hdone as (_ & Hq & _). rewrite Hq.
  assert (Hnone : LQueue.team_agent_ids_of (agents (Runtime.store w))
                    (Runtime.agent_id item) = []).
  { unfold LQueue.team_agent_ids_of.
    change (List.find _ (agents (Runtime.store w)))
      with (Router.agent_by_id (Runtime.store w) (Runtime.agent_id item)).
    rewrite Hagent. destruct (Agent.team_id agent) as [team|]; [|reflexivity].
    cbn in Hteam. rewrite Hteam. reflexivity. }
  rewrite Hnone, extract_outside_team. apply app_nil_r.
Qed.

Lemma teamless_agent_witness :
  Router.agent_by_id (Runtime.store Scenario.world)
    (Runtime.agent_id Demo.item_coder) = Some Scenario.coder
  /\ Runtime.queue
       (LQueue._process
          (Scenario.env (fun _ => Scenario.final_answer "[@bob: do it]"))
          Demo.item_coder Scenario.world).2 = [].
Proof.
  split; [reflexivity|].
  exact (teamless_agent_never_delegates
           (Scenario.env (fun _ => Scenario.final_answer "[@bob: do it]"))
           Demo.item_coder Scenario.world Scenario.coder eq_refl eq_refl).
Defined.

(** X21: a task for an agent that does not exist is stored as [failed]
    with the error [Agent '<id>' not found] and no result; no provider is
    called, nothing is posted and nothing is enqueued. *)
Theorem unknown_agent_fails_task (E : Runtime.Env) (item : Runtime.Item)
    (w : Runtime.World) :
  Router.agent_by_id (Runtime.store w) (Runtime.agent_id item) = None ->
  exists wf t,
    LQueue._process E item w = (Returned tt, wf)
    /\ tasks (Runtime.store wf) !! Runtime.task_id item = Some t
    /\ Task.status t = Task.failed
    /\ Task.error t = Some ("Agent '" +:+ Runtime.agent_id item +:+ "' not found")
    /\ Task.result t = None
    /\ Runtime.llm_calls wf = Runtime.llm_calls w
    /\ Runtime.sent wf = Runtime.sent w
    /\ Runtime.queue wf = Runtime.queue w.
Proof.
  intros Hnone.
  destruct (process_outcome E item w) as (wf & Hproc & Hcases).
  destruct Hcases as [(e & Hrow & He & Hq & Hs) | (agent & w1 & reply & w2 & Ha & _)];
    [|congruence].
  destruct (He Hnone) as [-> Hl].
  exists wf, (LQueue.mark_failed (not_found item) (LQueue.new_task item)).
  split; [exact Hproc|]. split; [exact Hrow|].
  repeat split; assumption.
Qed.

Lemma unknown_agent_witness :
  Router.agent_by_id (Runtime.store Scenario.world)
    (Runtime.agent_id Demo.item_ghost) = None
  /\ exists wf t,
       LQueue._process Scenario.env_tagged Demo.item_ghost Scenario.world
       = (Returned tt, wf)
       /\ tasks (Runtime.store wf) !! "task-6"%string = Some t
       /\ Task.error t = Some "Agent 'ghost' not found"%string.
Proof.
  split; [reflexivity|].
  destruct (unknown_agent_fails_task Scenario.env_tagged Demo.item_ghost
              Scenario.world eq_refl)
    as (wf & t & Hrun & Ht & _ & He & _).
  exists wf, t. split; [exact Hrun|]. split; [exact Ht | exact He].
Defined.

Section WorkerFacts.
Import Py Llm Runtime Invoker LQueue Upkeep Worker.
Variable E : Env.

(** One turn of the worker. *)
Lemma worker_turn_outcome w :
  match queue w with
  | [] => worker_turn E w = (Returned tt, w)
  | item :: rest =>
      exists wf children t,
        worker_turn E w = (Returned tt, wf)
        /\ queue wf = rest ++ children
        /\ Forall (fun c => parent_task_id c = Some (task_id item)) children
        /\ tasks (store wf) !! task_id item = Some t
        /\ (Task.status t = Task.done \/ Task.status t = Task.failed)
  end.
Proof.
  unfold worker_turn, try_except, bind, get_item.
  destruct (queue w) as [|item rest] eqn:Hqueue; [reflexivity|].
  match goal with
  | |- context [_process E item ?w0] =>
      destruct (process_outcome E item w0) as (wf & Hproc & Hcases);
      rewrite Hproc
  end.
  cbn [queue] in Hcases.
  destruct Hcases as [(e & Hrow & _ & Hq & _) | (agent & w1 & reply & w2 & _ & _ & _ & Hdone)].
  - exists wf, [], (mark_failed e (new_task item)).
    split; [reflexivity|]. rewrite app_nil_r.
    split; [exact Hq|]. split; [constructor|]. split; [exact Hrow|].
    right. reflexivity.
  - cbv zeta in Hdone. destruct Hdone as (Hrow & Hq & _).
    eexists wf, _, _. split; [reflexivity|]. split; [exact Hq|].
    split; [|split; [exact Hrow | left; reflexivity]].
    eapply Forall_impl; [apply sub_tasks_parent|]. cbn. tauto.
Qed.

Lemma worker_turn_returns w : (worker_turn E w).1 = Returned tt.
Proof.
  pose proof (worker_turn_outcome w) as H.
  destruct (queue w) as [|item rest]; [rewrite H; reflexivity|].
  destruct H as (wf & children & t & -> & _). reflexivity.
Qed.

End WorkerFacts.

(** X22: the worker serves the queue in order and never stops on an
    exception.  A turn on an empty queue changes nothing.  A turn on a
    queue with items takes the oldest one, stores its task as [done] or
    [failed], and leaves the other items in their order, followed by the
    sub-tasks that the turn has enqueued, each of which has the task of
    the turn as its parent.  Any number of turns returns. *)
Theorem worker_turn_serves_the_oldest (E : Runtime.Env) (w : Runtime.World) :
  match Runtime.queue w with
  | [] => Worker.worker_turn E w = (Returned tt, w)
  | item :: rest =>
      exists wf children t,
        Worker.worker_turn E w = (Returned tt, wf)
        /\ Runtime.queue wf = rest ++ children
        /\ Forall (fun c => Runtime.parent_task_id c
                            = Some (Runtime.task_id item)) children
        /\ tasks (Runtime.store wf) !! Runtime.task_id item = Some t
        /\ (Task.status t = Task.done \/ Task.status t = Task.failed)
  end
  /\ forall turns, (Worker._worker E turns w).1 = Returned tt.
Proof.
  split; [apply worker_turn_outcome|].
  intros turns. revert w. induction turns as [|turns IH]; intros w; [reflexivity|].
  cbn [Worker._worker]. unfold Runtime.bind.
  pose proof (worker_turn_returns E w) as Hturn.
  destruct (Worker.worker_turn E w) as [r w1]. cbn [fst] in Hturn. subst r.
  apply IH.
Qed.

(* ================================================================== *)
(** * Incoming messages and the groups *)
(* ================================================================== *)

Section GroupFacts.
Import Py Runtime LQueue Groups Messages.

Lemma filter_nil_iff {A} (p : A -> bool) (l : list A) :
  List.filter p l = [] <-> forall a, a ∈ l -> p a = false.
Proof.
  induction l as [|a l IH]; cbn.
  - split; [intros _ x H; inversion H | reflexivity].
  - destruct (p a) eqn:Ha.
    + split; [discriminate|]. intros H. specialize (H a ltac:(left)). congruence.
    + rewrite IH. split.
      * intros H x Hx. apply elem_of_cons in Hx as [->|Hx]; auto.
      * intros H x Hx. apply H. right. exact Hx.
Qed.

Lemma enabled_rows_allowed gid groups :
  enabled_rows gid groups = [] <-> gid ∉ allowed_groups groups.
Proof.
  unfold enabled_rows, allowed_groups. rewrite filter_nil_iff. split.
  - intros H Hin. apply list_elem_of_fmap in Hin as (g & -> & Hg).
    apply elem_of_bool_filter in Hg as [Hg He].
    specialize (H g Hg). rewrite String.eqb_refl, He in H. discriminate.
  - intros H g Hg.
    destruct (String.eqb (WhatsAppGroup.group_id g) gid) eqn:Hid; [|reflexivity].
    destruct (WhatsAppGroup.enabled g) eqn:He; [|reflexivity].
    exfalso. apply H. apply String.eqb_eq in Hid. subst gid.
    apply list_elem_of_fmap. exists g. split; [reflexivity|].
    apply elem_of_bool_filter. split; [exact Hg | exact He].
Qed.

(** The guard refuses a message of a group that has no enabled row. *)
Lemma guard_refuses E groups payload w gid :
  Messages.group_id payload = Some gid -> gid ≠ ""%string ->
  gid ∉ allowed_groups groups ->
  incoming_message E groups payload w
  = (Returned (Ok (Ignored "group not enabled")), w).
Proof.
  intros Hg Hne Hnot. unfold incoming_message. rewrite Hg. cbn [truthy_opt default].
  destruct gid as [|c gid]; [congruence|]. cbn [truthy].
  apply enabled_rows_allowed in Hnot. unfold id. rewrite Hnot. reflexivity.
Qed.

End GroupFacts.

(** X23: a message that carries a group id is ignored unless the table
    has an enabled row for that group: for a group that is unknown or
    disabled the answer is [ignored], no agent is looked up and the state,
    the queue included, is as it was. *)
Theorem message_of_a_group_not_enabled_is_ignored (E : Runtime.Env)
    (groups : list WhatsAppGroup.t) (payload : Messages.IncomingMessage)
    (w : Runtime.World) (gid : string) :
  Messages.group_id payload = Some gid -> gid ≠ ""%string ->
  (forall g, g ∈ groups -> WhatsAppGroup.group_id g = gid ->
             WhatsAppGroup.enabled g = false) ->
  Messages.incoming_message E groups payload w
  = (Returned (Ok (Messages.Ignored "group not enabled")), w).
Proof.
  intros Hg Hne Hrows. apply (guard_refuses E groups payload w gid Hg Hne).
  intros Hin. apply list_elem_of_fmap in Hin as (g & Hid & Hin).
  apply elem_of_bool_filter in Hin as [Hin He].
  rewrite (Hrows g Hin (eq_sym Hid)) in He. discriminate.
Qed.

(** X24: a message that passes the guard (it has no group, or its group
    has one enabled row) and for which the resolver finds a target is
    enqueued once, behind the items that wait: the item has a new task id,
    the target, the sender, the channel and the group of the message, the
    message without its address prefix, and no parent.  The answer names
    the task and the target; nothing is stored yet. *)
Theorem accepted_message_is_enqueued (E : Runtime.Env)
    (groups : list WhatsAppGroup.t) (payload : Messages.IncomingMessage)
    (w : Runtime.World) (target clean : string) :
  (Py.truthy_opt (Messages.group_id payload) = true ->
   exists row,
     Messages.enabled_rows (default ""%string (Messages.group_id payload)) groups
     = [row]) ->
  Router.resolve_agent_for_message (Messages.message payload) (Runtime.store w)
  = (Some target, clean) ->
  target ≠ ""%string ->
  exists w',
    Messages.incoming_message E groups payload w
    = (Returned (Ok (Messages.Queued (Runtime.uuid4 E (Runtime.uuids w)) target)),
       w')
    /\ Runtime.queue w'
       = Runtime.queue w
         ++ [Runtime.mkItem (Runtime.uuid4 E (Runtime.uuids w)) target
               (Messages.sender_id payload) (Messages.sender_name payload)
               clean (Messages.channel payload) None
               (Messages.group_id payload)]
    /\ Runtime.store w' = Runtime.store w
    /\ Runtime.sent w' = Runtime.sent w.
Proof.
  intros Hguard Hres Hne.
  unfold Messages.incoming_message.
  assert (Hpass : (if Py.truthy_opt (Messages.group_id payload)
                   then match Groups.scalar_one_or_none
                                (Messages.enabled_rows
                                   (default ""%string (Messages.group_id payload))
                                   groups) with
                        | Returned None => Returned false
                        | Returned (Some _) => Returned true
                        | Raised e => Raised e
                        end
                   else Returned true) = Returned true).
  { destruct (Py.truthy_opt (Messages.group_id payload)); [|reflexivity].
    destruct (Hguard eq_refl) as [row ->]. reflexivity. }
  rewrite Hpass. unfold Runtime.bind at 1, Runtime.gets at 1. rewrite Hres.
  destruct target as [|c target]; [congruence|]. cbn [Py.truthy_opt Py.truthy].
  eexists. split; [reflexivity|]. repeat split; reflexivity.
Qed.

Lemma accepted_message_witness :
  let payload :=
    Messages.mkIncoming "u9" (Some "Zoe"%string) "@bob check this" "whatsapp"
      (Some "fam@g.us"%string) in
  let groups := [WhatsAppGroup.mk "g-1" "fam@g.us" None true] in
  exists w',
    Messages.incoming_message Scenario.env_tagged groups payload Scenario.world
    = (Returned (Ok (Messages.Queued "uuid-0" "bob")), w')
    /\ Runtime.queue w'
       = [Runtime.mkItem "uuid-0" "bob" "u9" (Some "Zoe"%string) "check this"
            "whatsapp" None (Some "fam@g.us"%string)].
Proof.
  intros payload groups.
  destruct (accepted_message_is_enqueued Scenario.env_tagged groups payload
              Scenario.world "bob" "check this")
    as (w' & Hrun & Hq & _).
  - intros _. eexists. reflexivity.
  - vm_compute. reflexivity.
  - discriminate.
  - exists w'. split; [exact Hrun | exact Hq].
Defined.

Lemma ignored_message_witness :
  let payload :=
    Messages.mkIncoming "u9" (Some "Zoe"%string) "@bob check this" "whatsapp"
      (Some "fam@g.us"%string) in
  let groups := [WhatsAppGroup.mk "g-1" "fam@g.us" None false] in
  Messages.incoming_message Scenario.env_tagged groups payload Scenario.world
  = (Returned (Ok (Messages.Ignored "group not enabled")), Scenario.world).
Proof.
  intros payload groups.
  apply (message_of_a_group_not_enabled_is_ignored Scenario.env_tagged groups
           payload Scenario.world "fam@g.us" eq_refl).
  - discriminate.
  - intros g Hg _. apply list_elem_of_singleton in Hg. subst g. reflexivity.
Defined.

(* ================================================================== *)
(** * The table of the groups *)
(* ================================================================== *)

Section GroupTableFacts.
Import Py Groups Messages.

Lemma allowed_update_rows gid f groups :
  (forall g, WhatsAppGroup.enabled (f g) = WhatsAppGroup.enabled g
             /\ WhatsAppGroup.group_id (f g) = WhatsAppGroup.group_id g) ->
  allowed_groups (update_rows gid f groups) = allowed_groups groups
  /\ WhatsAppGroup.group_id <$> update_rows gid f groups
     = WhatsAppGroup.group_id <$> groups.
Proof.
  intros Hf. unfold allowed_groups, update_rows.
  induction groups as [|g groups [IH1 IH2]]; [split; reflexivity|].
  cbn [fmap list_fmap List.filter].
  assert (Hg : WhatsAppGroup.enabled
                 (if String.eqb (WhatsAppGroup.group_id g) gid then f g else g)
               = WhatsAppGroup.enabled g
               /\ WhatsAppGroup.group_id
                    (if String.eqb (WhatsAppGroup.group_id g) gid then f g else g)
                  = WhatsAppGroup.group_id g).
  { destruct (String.eqb _ _); [apply Hf | split; reflexivity]. }
  destruct Hg as [-> Hid]. split.
  - destruct (WhatsAppGroup.enabled g); [|exact IH1].
    cbn [fmap list_fmap]. rewrite Hid. f_equal. exact IH1.
  - rewrite Hid. f_equal. exact IH2.
Qed.

Lemma update_rows_length gid f groups :
  length (update_rows gid f groups) = length groups.
Proof. apply length_fmap. Qed.

Lemma rows_of_nil gid groups :
  rows_of gid groups = [] <-> gid ∉ WhatsAppGroup.group_id <$> groups.
Proof.
  unfold rows_of. rewrite filter_nil_iff. split.
  - intros H Hin. apply list_elem_of_fmap in Hin as (g & -> & Hg).
    specialize (H g Hg). rewrite String.eqb_refl in H. discriminate.
  - intros H g Hg. destruct (String.eqb _ _) eqn:Hid; [|reflexivity].
    exfalso. apply H. apply String.eqb_eq in Hid. subst gid.
    apply list_elem_of_fmap. exists g. split; [reflexivity | exact Hg].
Qed.

Lemma rows_of_unique gid groups :
  NoDup (WhatsAppGroup.group_id <$> groups) -> length (rows_of gid groups) <= 1.
Proof.
  induction groups as [|g groups IH]; intros Hnd; [cbn; lia|].
  cbn [fmap list_fmap] in Hnd. apply NoDup_cons in Hnd as [Hg Hnd].
  unfold rows_of. cbn [List.filter].
  destruct (String.eqb (WhatsAppGroup.group_id g) gid) eqn:Hid;
    [|apply IH; exact Hnd].
  apply String.eqb_eq in Hid. subst gid.
  apply rows_of_nil in Hg. unfold rows_of in Hg. rewrite Hg. cbn. lia.
Qed.

(** One entry of the bridge: the switches stay, the ids stay unique, and
    a row is added exactly when [added] grows. *)
Lemma sync_one_spec uuid4 groups uuids added bg :
  (forall st', sync_one uuid4 (groups, uuids, added) bg = Returned st' ->
     allowed_groups st'.1.1 = allowed_groups groups
     /\ (exists new, WhatsAppGroup.group_id <$> st'.1.1
                     = (WhatsAppGroup.group_id <$> groups) ++ new)
     /\ length st'.1.1 + added = length groups + st'.2
     /\ (NoDup (WhatsAppGroup.group_id <$> groups) ->
         NoDup (WhatsAppGroup.group_id <$> st'.1.1))
     /\ (forall gid, bg.1 = Some gid -> endswith "@g.us" gid = true ->
         gid ∈ WhatsAppGroup.group_id <$> st'.1.1))
  /\ (NoDup (WhatsAppGroup.group_id <$> groups) ->
      exists st', sync_one uuid4 (groups, uuids, added) bg = Returned st').
Proof.
  destruct bg as [gid gname]. unfold sync_one. cbv beta iota zeta.
  cbn [fst snd].
  destruct (negb (truthy_opt gid) || negb (endswith "@g.us" (default "" gid)))
    eqn:Hskip.
  { split; [|eauto]. intros st' H. injection H as <-. cbn [fst snd].
    split; [reflexivity|]. split; [exists []; rewrite app_nil_r; reflexivity|].
    split; [lia|]. split; [tauto|].
    intros g Hg He. subst gid. change (default ""%string (Some g)) with g in Hskip.
    rewrite He in Hskip. destruct g; cbn in Hskip; discriminate. }
  assert (Hgid : forall g, gid = Some g -> default ""%string gid = g)
    by (intros g ->; reflexivity).
  set (k := default ""%string gid) in *.
  destruct (rows_of k groups) as [|existing [|row2 rows]] eqn:Hrows;
    cbn [scalar_one_or_none].
  - split; [|eauto]. intros st' H. injection H as <-. cbn [fst snd].
    split; [unfold allowed_groups; rewrite List.filter_app, fmap_app;
            cbn; apply app_nil_r|].
    split; [eexists; apply fmap_app|].
    split; [rewrite length_app; cbn; lia|].
    split.
    + intros Hnd. rewrite fmap_app. apply NoDup_app. split; [exact Hnd|].
      split; [|apply NoDup_singleton].
      intros x Hx Hx'. apply list_elem_of_singleton in Hx'. subst x.
      apply rows_of_nil in Hrows. contradiction.
    + intros g Hg _. rewrite (Hgid g Hg), fmap_app. apply elem_of_app. right. left.
  - assert (Hex : existing ∈ groups
                  /\ String.eqb (WhatsAppGroup.group_id existing) k = true)
      by exact (filter_singleton_holds
                  (fun g => String.eqb (WhatsAppGroup.group_id g) k)
                  groups existing Hrows).
    destruct Hex as [Hin Hid]. apply String.eqb_eq in Hid.
    assert (Hk : k ∈ WhatsAppGroup.group_id <$> groups)
      by (apply list_elem_of_fmap; exists existing; split; [symmetry|]; assumption).
    destruct (allowed_update_rows k (set_name gname) groups) as [Ha Hi];
      [intros g; split; reflexivity|].
    split; [|destruct (_ && _); eauto]. intros st' H.
    destruct (_ && _); injection H as <-; cbn [fst snd].
    + rewrite Ha, Hi, update_rows_length.
      split; [reflexivity|]. split; [exists []; rewrite app_nil_r; reflexivity|].
      split; [lia|]. split; [tauto|].
      intros g Hg _. rewrite <- (Hgid g Hg). exact Hk.
    + split; [reflexivity|]. split; [exists []; rewrite app_nil_r; reflexivity|].
      split; [lia|]. split; [tauto|].
      intros g Hg _. rewrite <- (Hgid g Hg). exact Hk.
  - split; [intros st' H; discriminate|]. intros Hnd. exfalso.
    pose proof (rows_of_unique k groups Hnd) as Hlen.
    rewrite Hrows in Hlen. cbn in Hlen. lia.
Qed.

Lemma sync_loop_spec uuid4 bridge_groups groups uuids added :
  (forall st', sync_loop uuid4 (groups, uuids, added) bridge_groups = Returned st' ->
     allowed_groups st'.1.1 = allowed_groups groups
     /\ (exists new, WhatsAppGroup.group_id <$> st'.1.1
                     = (WhatsAppGroup.group_id <$> groups) ++ new)
     /\ length st'.1.1 + added = length groups + st'.2
     /\ (NoDup (WhatsAppGroup.group_id <$> groups) ->
         NoDup (WhatsAppGroup.group_id <$> st'.1.1))
     /\ (forall gid name, (Some gid, name) ∈ bridge_groups ->
         endswith "@g.us" gid = true ->
         gid ∈ WhatsAppGroup.group_id <$> st'.1.1))
  /\ (NoDup (WhatsAppGroup.group_id <$> groups) ->
      exists st', sync_loop uuid4 (groups, uuids, added) bridge_groups
                  = Returned st').
Proof.
  revert groups uuids added.
  induction bridge_groups as [|bg rest IH]; intros groups uuids added.
  - cbn [sync_loop]. split; [|eauto]. intros st' H. injection H as <-.
    cbn [fst snd]. split; [reflexivity|].
    split; [exists []; rewrite app_nil_r; reflexivity|].
    split; [lia|]. split; [tauto|]. intros gid name H. inversion H.
  - cbn [sync_loop].
    destruct (sync_one_spec uuid4 groups uuids added bg) as [Hone Hruns].
    destruct (sync_one uuid4 (groups, uuids, added) bg)
      as [[[groups1 uuids1] added1]|e] eqn:Hstep.
    + destruct (Hone _ eq_refl) as (Ha1 & [new1 Hi1] & Hl1 & Hn1 & Hb1).
      cbn [fst snd] in Ha1, Hi1, Hl1, Hn1, Hb1.
      destruct (IH groups1 uuids1 added1) as [Hrest Hrestruns].
      split.
      * intros st' H. destruct (Hrest st' H) as (Ha & [new Hi] & Hl & Hn & Hb).
        split; [congruence|].
        split; [exists (new1 ++ new); rewrite Hi, Hi1, app_assoc; reflexivity|].
        split; [lia|]. split; [tauto|].
        intros gid name Hin He. apply elem_of_cons in Hin as [Heq|Hin].
        -- rewrite Hi. apply elem_of_app. left. apply (Hb1 gid); [|exact He].
           rewrite <- Heq. reflexivity.
        -- exact (Hb gid name Hin He).
      * intros Hnd. apply Hrestruns. apply Hn1. exact Hnd.
    + split; [intros st' H; discriminate|]. intros Hnd.
      destruct (Hruns Hnd) as [st' H]. discriminate.
Qed.

End GroupTableFacts.

(** X25: a sync never switches a group: whatever the bridge lists, and
    whether the request succeeds or not, the enabled groups after it are
    those before it.  So a group that was not served before the sync is
    not served after it: its messages are still ignored. *)
Theorem sync_never_switches_a_group (uuid4 : nat -> string) (uuids : nat)
    (bridge : outcome (list (option string * option string)))
    (groups : list WhatsAppGroup.t) :
  let groups' := (Groups.sync_groups uuid4 uuids bridge groups).1.2 in
  Groups.allowed_groups groups' = Groups.allowed_groups groups
  /\ forall (E : Runtime.Env) (payload : Messages.IncomingMessage)
            (w : Runtime.World) (gid : string),
       Messages.group_id payload = Some gid -> gid ≠ ""%string ->
       gid ∉ Groups.allowed_groups groups ->
       Messages.incoming_message E groups' payload w
       = (Returned (Ok (Messages.Ignored "group not enabled")), w).
Proof.
  intros groups'.
  assert (Hsame : Groups.allowed_groups groups' = Groups.allowed_groups groups).
  { unfold groups', Groups.sync_groups. destruct bridge as [bridge_groups|e];
      [|reflexivity].
    destruct (sync_loop_spec uuid4 bridge_groups groups uuids 0) as [Hspec _].
    destruct (Groups.sync_loop uuid4 (groups, uuids, 0) bridge_groups)
      as [[[g' u'] a']|e]; [|reflexivity].
    destruct (Hspec _ eq_refl) as (Ha & _). exact Ha. }
  split; [exact Hsame|].
  intros E payload w gid Hg Hne Hnot. apply (guard_refuses E _ payload w gid Hg Hne).
  rewrite Hsame. exact Hnot.
Qed.

Lemma sync_switch_witness :
  let groups := [WhatsAppGroup.mk "g-1" "fam@g.us" None true] in
  let bridge := Returned [(Some "work@g.us"%string, Some "Work"%string)] in
  let groups' := (Groups.sync_groups (fun n => "uuid-" +:+ pretty n) 0 bridge
                    groups).1.2 in
  let payload :=
    Messages.mkIncoming "u9" None "hello" "whatsapp" (Some "work@g.us"%string) in
  WhatsAppGroup.group_id <$> groups' = ["fam@g.us"; "work@g.us"]%string
  /\ Groups.allowed_groups groups' = ["fam@g.us"%string]
  /\ Messages.incoming_message Scenario.env_tagged groups' payload Scenario.world
     = (Returned (Ok (Messages.Ignored "group not enabled")), Scenario.world).
Proof.
  intros groups bridge groups' payload.
  destruct (sync_never_switches_a_group (fun n => "uuid-" +:+ pretty n) 0
              bridge groups) as [Hsame Hignored].
  split; [vm_compute; reflexivity|]. split; [exact Hsame|].
  apply (Hignored Scenario.env_tagged payload Scenario.world "work@g.us" eq_refl).
  - discriminate.
  - intros Hin. apply list_elem_of_singleton in Hin. discriminate.
Defined.

(** X26: on a table with one row per group id at most, a sync with a
    list of the bridge succeeds, keeps the rows it found in their order
    and the ids unique, adds [added] rows, and leaves a row for every
    entry of the list whose id ends with [@g.us]. *)
Theorem sync_adds_each_new_group_once (uuid4 : nat -> string) (uuids : nat)
    (bridge_groups : list (option string * option string))
    (groups : list WhatsAppGroup.t) :
  NoDup (WhatsAppGroup.group_id <$> groups) ->
  exists added groups' uuids',
    Groups.sync_groups uuid4 uuids (Returned bridge_groups) groups
    = (Ok (added, groups'), groups', uuids')
    /\ NoDup (WhatsAppGroup.group_id <$> groups')
    /\ length groups' = length groups + added
    /\ (exists new, WhatsAppGroup.group_id <$> groups'
                    = (WhatsAppGroup.group_id <$> groups) ++ new)
    /\ (forall gid name, (Some gid, name) ∈ bridge_groups ->
          Groups.endswith "@g.us" gid = true ->
          gid ∈ WhatsAppGroup.group_id <$> groups').
Proof.
  intros Hnd. unfold Groups.sync_groups.
  destruct (sync_loop_spec uuid4 bridge_groups groups uuids 0) as [Hspec Hruns].
  destruct (Hruns Hnd) as [[[groups' uuids'] added] Hrun]. rewrite Hrun.
  destruct (Hspec _ Hrun) as (_ & Hi & Hl & Hn & Hb). cbn [fst snd] in *.
  exists added, groups', uuids'. split; [reflexivity|].
  split; [exact (Hn Hnd)|]. split; [lia|]. split; [exact Hi | exact Hb].
Qed.

Lemma sync_witness :
  let groups := [WhatsAppGroup.mk "g-1" "fam@g.us" (Some "Family"%string) true] in
  let bridge := [(Some "fam@g.us"%string, Some "The family"%string);
                 (Some "work@g.us"%string, Some "Work"%string);
                 (Some "someone@c.us"%string, None);
                 (Some "work@g.us"%string, Some "Work"%string)] in
  NoDup (WhatsAppGroup.group_id <$> groups)
  /\ exists groups' uuids',
       Groups.sync_groups (fun n => "uuid-" +:+ pretty n) 0 (Returned bridge) groups
       = (Ok (1, groups'), groups', uuids')
       /\ length groups' = 2.
Proof.
  intros groups bridge.
  assert (H : NoDup (WhatsAppGroup.group_id <$> groups))
    by (apply NoDup_singleton).
  split; [exact H|].
  destruct (sync_adds_each_new_group_once (fun n => "uuid-" +:+ pretty n) 0
              bridge groups H)
    as (added & groups' & uuids' & Hrun & _ & Hlen & _).
  assert (Hadded : added = 1).
  { assert (Hl : length (Groups.sync_groups (fun n => "uuid-" +:+ pretty n) 0
                    (Returned bridge) groups).1.2 = 2) by (vm_compute; reflexivity).
    rewrite Hrun in Hl. cbn in Hl. cbn in Hlen. lia. }
  subst added. exists groups', uuids'. split; [exact Hrun|]. cbn in Hlen. lia.
Defined.

(** X27: [register_group] adds a group exactly when its id ends with
    [@g.us] and is not in the table yet; the new row is enabled, so that
    the guard lets the messages of the group pass.  Any other request is
    refused with status 400 and changes nothing.  The ids of the table
    stay unique. *)
Theorem register_group_spec (uuid group_id : string)
    (group_name : option string) (groups : list WhatsAppGroup.t) :
  NoDup (WhatsAppGroup.group_id <$> groups) ->
  let answer := (Groups.register_group uuid group_id group_name groups).1 in
  let groups' := (Groups.register_group uuid group_id group_name groups).2 in
  let g := WhatsAppGroup.mk uuid group_id group_name true in
  NoDup (WhatsAppGroup.group_id <$> groups')
  /\ (Groups.endswith "@g.us" group_id = true
      /\ group_id ∉ WhatsAppGroup.group_id <$> groups ->
      answer = Ok g /\ groups' = groups ++ [g]
      /\ Messages.enabled_rows group_id groups' = [g])
  /\ (~ (Groups.endswith "@g.us" group_id = true
         /\ group_id ∉ WhatsAppGroup.group_id <$> groups) ->
      (exists detail, answer = HTTPException 400 detail) /\ groups' = groups).
Proof.
  intros Hnd answer groups' g. unfold answer, groups', Groups.register_group.
  destruct (Groups.endswith "@g.us" group_id) eqn:Hend; cbn [negb].
  2:{ split; [exact Hnd|]. split; [intros [H _]; discriminate|].
      intros _. split; [eauto | reflexivity]. }
  pose proof (rows_of_unique group_id groups Hnd) as Hlen.
  destruct (Groups.rows_of group_id groups) as [|row [|row2 rows]] eqn:Hrows;
    cbn [Groups.scalar_one_or_none fst snd]; [| |cbn in Hlen; lia].
  - apply rows_of_nil in Hrows as Hnew.
    split; [|split; [|tauto]].
    + rewrite fmap_app. apply NoDup_app. split; [exact Hnd|].
      split; [|apply NoDup_singleton].
      intros x Hx Hx'. apply list_elem_of_singleton in Hx'. subst x. contradiction.
    + intros _. split; [reflexivity|]. split; [reflexivity|].
      unfold Messages.enabled_rows. rewrite List.filter_app.
      assert (Hold : List.filter
                (fun g0 => String.eqb (WhatsAppGroup.group_id g0) group_id
                           && WhatsAppGroup.enabled g0) groups = []).
      { apply filter_nil_iff. intros x Hx.
        assert (Hf : forall a, a ∈ groups ->
                  String.eqb (WhatsAppGroup.group_id a) group_id = false)
          by (apply filter_nil_iff; exact Hrows).
        rewrite (Hf x Hx). reflexivity. }
      rewrite Hold. cbn. rewrite String.eqb_refl. reflexivity.
  - split; [exact Hnd|]. split.
    + intros [_ Hnot]. exfalso. apply rows_of_nil in Hnot. congruence.
    + intros _. split; [eauto | reflexivity].
Qed.

Lemma register_group_witness :
  let groups := [WhatsAppGroup.mk "g-1" "fam@g.us" None false] in
  NoDup (WhatsAppGroup.group_id <$> groups)
  /\ (Groups.register_group "g-2" "work@g.us" None groups).1
     = Ok (WhatsAppGroup.mk "g-2" "work@g.us" None true)
  /\ (exists detail,
        (Groups.register_group "g-3" "fam@g.us" None groups).1
        = HTTPException 400 detail)
  /\ (exists detail,
        (Groups.register_group "g-4" "someone@c.us" None groups).1
        = HTTPException 400 detail).
Proof.
  intros groups.
  assert (H : NoDup (WhatsAppGroup.group_id <$> groups)) by apply NoDup_singleton.
  split; [exact H|]. split; [|split].
  - destruct (register_group_spec "g-2" "work@g.us" None groups H)
      as (_ & Hok & _).
    apply Hok. split; [reflexivity|].
    intros Hin. apply list_elem_of_singleton in Hin. discriminate.
  - destruct (register_group_spec "g-3" "fam@g.us" None groups H)
      as (_ & _ & Hno).
    apply Hno. intros [_ Hnot]. apply Hnot. left.
  - destruct (register_group_spec "g-4" "someone@c.us" None groups H)
      as (_ & _ & Hno).
    apply Hno. intros [Hend _]. discriminate.
Defined.

Section SwitchFacts.
Import Py Groups Messages.

Lemma enabled_rows_switched b gid groups :
  enabled_rows gid (update_rows gid (set_enabled b) groups)
  = if b then set_enabled true <$> rows_of gid groups else [].
Proof.
  unfold enabled_rows, update_rows, rows_of.
  induction groups as [|x groups IH]; [destruct b; reflexivity|].
  cbn [fmap list_fmap List.filter].
  destruct (String.eqb (WhatsAppGroup.group_id x) gid) eqn:Hx.
  - cbn [set_enabled WhatsAppGroup.group_id WhatsAppGroup.enabled].
    rewrite Hx. destruct b; cbn [andb]; [|exact IH].
    cbn [fmap list_fmap]. f_equal. exact IH.
  - rewrite Hx. cbn [andb]. exact IH.
Qed.

Lemma get_by_group_id_row gid groups g :
  _get_by_group_id gid groups = Ok g -> rows_of gid groups = [g].
Proof.
  unfold _get_by_group_id.
  destruct (rows_of gid groups) as [|row [|row2 rows]];
    cbn [scalar_one_or_none]; try discriminate.
  intros H. injection H as <-. reflexivity.
Qed.

End SwitchFacts.

(** X28: the switches decide the service.  Once [disable_group] or
    [delete_group] has answered for a group, every message of that group
    is ignored; once [enable_group] has answered, the table has exactly
    one enabled row for the group, the row of the answer, which is what
    the guard asks for.  All three answer with status 404, and change
    nothing, for a group that has no row. *)
Theorem switches_decide_the_service (group_id : string)
    (groups : list WhatsAppGroup.t) :
  (forall g groups',
     Groups.disable_group group_id groups = (Ok g, groups') ->
     WhatsAppGroup.enabled g = false
     /\ Messages.enabled_rows group_id groups' = []
     /\ forall (E : Runtime.Env) (payload : Messages.IncomingMessage)
               (w : Runtime.World),
          Messages.group_id payload = Some group_id -> group_id ≠ ""%string ->
          Messages.incoming_message E groups' payload w
          = (Returned (Ok (Messages.Ignored "group not enabled")), w))
  /\ (forall g groups',
        Groups.enable_group group_id groups = (Ok g, groups') ->
        WhatsAppGroup.enabled g = true
        /\ Messages.enabled_rows group_id groups' = [g])
  /\ (forall groups',
        Groups.delete_group group_id groups = (Ok tt, groups') ->
        (group_id ∉ WhatsAppGroup.group_id <$> groups')
        /\ forall (E : Runtime.Env) (payload : Messages.IncomingMessage)
                  (w : Runtime.World),
             Messages.group_id payload = Some group_id -> group_id ≠ ""%string ->
             Messages.incoming_message E groups' payload w
             = (Returned (Ok (Messages.Ignored "group not enabled")), w))
  /\ (group_id ∉ WhatsAppGroup.group_id <$> groups ->
      (forall b,
         Groups.switch_group b group_id groups
         = (HTTPException 404 ("Group '" +:+ group_id +:+ "' not found"), groups))
      /\ Groups.delete_group group_id groups
         = (HTTPException 404 ("Group '" +:+ group_id +:+ "' not found"), groups)).
Proof.
  split; [|split; [|split]].
  - intros g groups'. unfold Groups.disable_group, Groups.switch_group.
    destruct (Groups._get_by_group_id group_id groups) as [row| |] eqn:Hget;
      try discriminate.
    intros H. injection H as <- <-. split; [reflexivity|].
    assert (Hrows : Messages.enabled_rows group_id
                      (Groups.update_rows group_id (Groups.set_enabled false) groups)
                    = []) by apply (enabled_rows_switched false).
    split; [exact Hrows|].
    intros E payload w Hg Hne. apply (guard_refuses E _ payload w group_id Hg Hne).
    apply enabled_rows_allowed. exact Hrows.
  - intros g groups'. unfold Groups.enable_group, Groups.switch_group.
    destruct (Groups._get_by_group_id group_id groups) as [row| |] eqn:Hget;
      try discriminate.
    intros H. injection H as <- <-. split; [reflexivity|].
    rewrite (enabled_rows_switched true).
    rewrite (get_by_group_id_row _ _ _ Hget). reflexivity.
  - intros groups'. unfold Groups.delete_group.
    destruct (Groups._get_by_group_id group_id groups) as [row| |] eqn:Hget;
      try discriminate.
    intros H. injection H as <-.
    assert (Hgone : group_id ∉ WhatsAppGroup.group_id
                      <$> List.filter
                            (fun g => negb (String.eqb (WhatsAppGroup.group_id g)
                                              group_id)) groups).
    { intros Hin. apply list_elem_of_fmap in Hin as (g & Hid & Hg).
      apply elem_of_bool_filter in Hg as [_ Hg].
      rewrite <- Hid, String.eqb_refl in Hg. discriminate. }
    split; [exact Hgone|].
    intros E payload w Hg Hne. apply (guard_refuses E _ payload w group_id Hg Hne).
    intros Hin. apply Hgone. unfold Groups.allowed_groups in Hin.
    apply list_elem_of_fmap in Hin as (g & Hid & Hin).
    apply elem_of_bool_filter in Hin as [Hin _].
    apply list_elem_of_fmap. exists g. split; [exact Hid | exact Hin].
  - intros Hnot. apply rows_of_nil in Hnot.
    unfold Groups.delete_group, Groups.switch_group, Groups._get_by_group_id.
    rewrite Hnot. split; [intros b|]; reflexivity.
Qed.

Lemma switches_witness :
  let groups := [WhatsAppGroup.mk "g-1" "fam@g.us" None true] in
  let payload :=
    Messages.mkIncoming "u9" None "hello" "whatsapp" (Some "fam@g.us"%string) in
  exists g groups',
    Groups.disable_group "fam@g.us" groups = (Ok g, groups')
    /\ Messages.incoming_message Scenario.env_tagged groups' payload Scenario.world
       = (Returned (Ok (Messages.Ignored "group not enabled")), Scenario.world).
Proof.
  intros groups payload.
  assert (H : Groups.disable_group "fam@g.us" groups
              = (Ok (WhatsAppGroup.mk "g-1" "fam@g.us" None false),
                 [WhatsAppGroup.mk "g-1" "fam@g.us" None false]))
    by reflexivity.
  eexists _, _. split; [exact H|].
  destruct (switches_decide_the_service "fam@g.us" groups) as (Hoff & _).
  destruct (Hoff _ _ H) as (_ & _ & Hignored).
  apply Hignored; [reflexivity | discriminate].
Defined.

(* ================================================================== *)
(** * The members of a team *)
(* ================================================================== *)

Section TeamFacts.
Import Py LQueue Teams.

Lemma find_fmap_id (f : Agent.t -> Agent.t) (k : string) (l : list Agent.t) :
  (forall a, Agent.id (f a) = Agent.id a) ->
  List.find (fun a => String.eqb (Agent.id a) k) (f <$> l)
  = f <$> List.find (fun a => String.eqb (Agent.id a) k) l.
Proof.
  intros Hf. induction l as [|a l IH]; [reflexivity|].
  cbn [fmap list_fmap List.find]. rewrite Hf.
  destruct (String.eqb (Agent.id a) k); [reflexivity | exact IH].
Qed.

Lemma assign_keeps_id agent_id team a :
  Agent.id (if String.eqb (Agent.id a) agent_id then set_team_id team a else a)
  = Agent.id a.
Proof. destruct (String.eqb _ _); reflexivity. Qed.

(** The teammates of an agent of the table, once [assign_team] has put
    [agent_id] into a team. *)
Lemma teammates_after_assign d agent_id team b :
  team ≠ ""%string ->
  Router.agent_by_id d (Agent.id b) = Some b ->
  Agent.team_id b = Some team \/ Agent.id b = agent_id ->
  team_agent_ids_of (agents (assign_team agent_id (Some team) d)) (Agent.id b)
  = Agent.id <$> members team (assign_team agent_id (Some team) d)
  /\ Agent.id b ∈ Agent.id <$> members team (assign_team agent_id (Some team) d).
Proof.
  intros Hne Hb Hteam.
  set (f := fun a => if String.eqb (Agent.id a) agent_id
                     then set_team_id (Some team) a else a).
  assert (Hfb : Agent.team_id (f b) = Some team /\ Agent.id (f b) = Agent.id b).
  { unfold f. destruct (String.eqb (Agent.id b) agent_id) eqn:Hid;
      [split; reflexivity|].
    split; [|reflexivity]. destruct Hteam as [H|H]; [exact H|].
    apply String.eqb_neq in Hid. contradiction. }
  destruct Hfb as [Ht Hi].
  assert (Hfind : List.find (fun a => String.eqb (Agent.id a) (Agent.id b))
                    (f <$> agents d) = Some (f b)).
  { rewrite find_fmap_id by (intros a; apply assign_keeps_id).
    unfold Router.agent_by_id in Hb. rewrite Hb. reflexivity. }
  split.
  - unfold team_agent_ids_of. cbn [assign_team set_agents agents].
    fold f. rewrite Hfind, Ht.
    destruct team as [|c team]; [congruence|]. reflexivity.
  - apply list_elem_of_fmap. exists (f b). split; [symmetry; exact Hi|].
    unfold members. cbn [assign_team set_agents agents]. fold f.
    apply elem_of_bool_filter. split.
    + apply list_elem_of_fmap. exists b. split; [reflexivity|].
      apply find_some_elem in Hb as [Hb _]. exact Hb.
    + apply bool_decide_eq_true. exact Ht.
Qed.

End TeamFacts.

(** X29: the requests on the members of a team decide who can delegate
    to whom.  Once [add_agent_to_team] has answered, the agent and every
    agent that was in the team are in each other's list of teammates,
    which is the list of the members of the team; once
    [remove_agent_from_team] has answered, the list of the agent is
    empty.  For an agent that does not exist both answer with status 404
    and change nothing. *)
Theorem team_requests_decide_the_teammates (team_id agent_id : string) (d : Db) :
  team_id ≠ ""%string ->
  (forall out d',
     Teams.add_agent_to_team team_id agent_id d = (Ok out, d') ->
     let teammates := Agent.id <$> Teams.members team_id d' in
     LQueue.team_agent_ids_of (agents d') agent_id = teammates
     /\ agent_id ∈ teammates
     /\ forall b, Router.agent_by_id d (Agent.id b) = Some b ->
                  Agent.team_id b = Some team_id ->
                  LQueue.team_agent_ids_of (agents d') (Agent.id b) = teammates
                  /\ Agent.id b ∈ teammates)
  /\ (forall out d',
        Teams.remove_agent_from_team team_id agent_id d = (Ok out, d') ->
        LQueue.team_agent_ids_of (agents d') agent_id = [])
  /\ (Router.agent_by_id d agent_id = None ->
      (exists detail,
         (Teams.add_agent_to_team team_id agent_id d).1 = HTTPException 404 detail
         \/ exists e, (Teams.add_agent_to_team team_id agent_id d).1 = Unhandled e)
      /\ (Teams.add_agent_to_team team_id agent_id d).2 = d
      /\ Teams.remove_agent_from_team team_id agent_id d
         = (HTTPException 404 "Agent not in this team", d)).
Proof.
  intros Hne. split; [|split].
  - intros out d'. unfold Teams.add_agent_to_team.
    destruct (Groups.scalar_one_or_none _) as [[team|]|e]; try discriminate.
    destruct (Router.agent_by_id d agent_id) as [agent|] eqn:Hagent;
      [|discriminate].
    intros H. injection H as _ <-.
    assert (Hid : Agent.id agent = agent_id).
    { apply find_some_elem in Hagent as [_ H]. apply String.eqb_eq in H. exact H. }
    destruct (teammates_after_assign d agent_id team_id agent Hne) as [H1 H2];
      [rewrite Hid; exact Hagent | right; exact Hid|].
    rewrite Hid in H1, H2. split; [exact H1|]. split; [exact H2|].
    intros b Hb Hteam.
    apply (teammates_after_assign d agent_id team_id b Hne Hb). left. exact Hteam.
  - intros out d'. unfold Teams.remove_agent_from_team.
    destruct (Router.agent_by_id d agent_id) as [agent|] eqn:Hagent;
      [|discriminate].
    destruct (bool_decide _); [discriminate|].
    intros H. injection H as _ <-.
    unfold LQueue.team_agent_ids_of. cbn [Teams.assign_team Teams.set_agents agents].
    rewrite find_fmap_id by (intros a; apply assign_keeps_id).
    unfold Router.agent_by_id in Hagent. rewrite Hagent. cbn [fmap option_fmap option_map].
    apply find_some_elem in Hagent as [_ Hid]. rewrite Hid. reflexivity.
  - intros Hnone. unfold Teams.add_agent_to_team, Teams.remove_agent_from_team.
    rewrite Hnone. split; [|split; [|reflexivity]].
    + destruct (Groups.scalar_one_or_none _) as [[team|]|e]; cbn [fst];
        [eexists; left; reflexivity | eexists; left; reflexivity
        | exists ""%string; right; exists e; reflexivity].
    + destruct (Groups.scalar_one_or_none _) as [[team|]|e]; reflexivity.
Qed.

Lemma team_requests_witness :
  let d' := (Teams.add_agent_to_team "dev" "coder" Scenario.db).2 in
  (exists out, Teams.add_agent_to_team "dev" "coder" Scenario.db = (Ok out, d'))
  /\ LQueue.team_agent_ids_of (agents d') "coder" = ["bob"; "coder"; "alice"]%string
  /\ LQueue.team_agent_ids_of (agents d') "alice" = ["bob"; "coder"; "alice"]%string.
Proof.
  intros d'.
  assert (H : exists out,
            Teams.add_agent_to_team "dev" "coder" Scenario.db = (Ok out, d'))
    by (eexists; vm_compute; reflexivity).
  split; [exact H|]. destruct H as [out H].
  destruct (team_requests_decide_the_teammates "dev" "coder" Scenario.db
              ltac:(discriminate)) as (Hadd & _).
  destruct (Hadd _ _ H) as (H1 & _ & Hothers).
  split; [rewrite H1; vm_compute; reflexivity|].
  destruct (Hothers Scenario.alice eq_refl eq_refl) as [H2 _].
  change (Agent.id Scenario.alice) with "alice"%string in H2.
  rewrite H2. vm_compute. reflexivity.
Defined.

(* ================================================================== *)
(** * The repository context *)
(* ================================================================== *)

Section RepoFacts.
Import Py RepoLoader.
Variables (MAX_REPO_CHARS MAX_FILE_CHARS : Z).

#[local] Abbreviation read := (_read_file MAX_FILE_CHARS).
#[local] Abbreviation chars :=
  (fun l : list string => Z.of_nat (sum_list_with String.length l)).

(** The loop takes the blocks of the files in order as long as they fit,
    and ends with the note as soon as one does not. *)
Lemma load_loop_spec n files_left blocks total :
  exists k,
    k <= length files_left
    /\ load_loop MAX_REPO_CHARS MAX_FILE_CHARS n files_left blocks total
       = blocks ++ (read <$> take k files_left)
         ++ (if (k <? length files_left)%nat
             then [omitted MAX_REPO_CHARS (n - (length blocks + k))] else [])
    /\ (0 < k -> (total + chars (read <$> take k files_left) <= MAX_REPO_CHARS)%Z)
    /\ (k < length files_left ->
        (MAX_REPO_CHARS < total + chars (read <$> take (S k) files_left))%Z).
Proof.
  revert blocks total.
  induction files_left as [|f rest IH]; intros blocks total.
  - exists 0. split; [cbn; lia|].
    split; [cbn; rewrite app_nil_r; reflexivity|]. split; [lia | cbn; lia].
  - cbn [load_loop].
    destruct (MAX_REPO_CHARS <? total + len (read f))%Z eqn:Hfit.
    + exists 0. apply Z.ltb_lt in Hfit. cbn [take fmap list_fmap length Nat.ltb Nat.leb].
      rewrite Nat.add_0_r. split; [lia|]. split; [reflexivity|].
      split; [lia|]. intros _. cbn. unfold len in Hfit. lia.
    + apply Z.ltb_ge in Hfit.
      destruct (IH (blocks ++ [read f]) (total + len (read f))%Z)
        as (k & Hk & Hrun & Hin & Hout).
      exists (S k). split; [cbn; lia|]. split; [|split].
      * rewrite Hrun, length_app, <- app_assoc. cbn [length app take fmap list_fmap].
        replace (length blocks + 1 + k) with (length blocks + S k) by lia.
        change (S k <? S (length rest))%nat with (k <? length rest)%nat.
        reflexivity.
      * intros _. cbn [take fmap list_fmap sum_list_with]. unfold len in *.
        destruct k as [|k];
          [rewrite take_0; cbn [fmap list_fmap sum_list_with]; lia|].
        specialize (Hin ltac:(lia)). lia.
      * intros Hlt. cbn [length] in Hlt. specialize (Hout ltac:(lia)).
        cbn [take fmap list_fmap sum_list_with] in *. unfold len in *. lia.
Qed.

End RepoFacts.

(** X30: with a limit that is not negative, the context of a repository
    holds the blocks of the first [k] files, in their order, for the
    largest [k] such that these blocks together have at most
    [MAX_REPO_CHARS] characters: a file whose block does not fit ends the
    list, even when later files would fit.  When files are left out, one
    note follows, which names their number; the header then counts that
    note among the files loaded. *)
Theorem repository_context_fits_the_limit (MAX_REPO_CHARS MAX_FILE_CHARS : Z)
    (files : list RepoLoader.File) (repo_path globs_repr : string) :
  (0 <= MAX_REPO_CHARS)%Z -> files ≠ [] ->
  let read := RepoLoader._read_file MAX_FILE_CHARS in
  let chars := fun l : list string => Z.of_nat (sum_list_with String.length l) in
  exists k,
    k <= length files
    /\ (chars (read <$> take k files) <= MAX_REPO_CHARS)%Z
    /\ (k < length files ->
        (MAX_REPO_CHARS < chars (read <$> take (S k) files))%Z)
    /\ let blocks :=
         (read <$> take k files)
         ++ (if (k <? length files)%nat
             then [RepoLoader.omitted MAX_REPO_CHARS (length files - k)]
             else []) in
       RepoLoader.load_loop MAX_REPO_CHARS MAX_FILE_CHARS (length files) files [] 0
       = blocks
       /\ RepoLoader.load_repository_context MAX_REPO_CHARS MAX_FILE_CHARS
            (Returned files) repo_path globs_repr
          = Returned
              ("Repository: " +:+ repo_path +:+ RepoLoader.nl +:+
               "Files loaded: "
               +:+ pretty (if (k <? length files)%nat then S k else k)
               +:+ " / " +:+ pretty (length files) +:+ RepoLoader.nl +:+
               Invoker.divider +:+ RepoLoader.nl +:+ RepoLoader.nl +:+
               String.concat RepoLoader.nl blocks).
Proof.
  intros Hlimit Hfiles read chars.
  destruct (load_loop_spec MAX_REPO_CHARS MAX_FILE_CHARS (length files) files [] 0)
    as (k & Hk & Hrun & Hin & Hout).
  cbn [app length Nat.add] in Hrun.
  exists k. split; [exact Hk|]. split; [|split; [|split]].
  - destruct k as [|k]; [unfold chars; rewrite take_0; cbn; lia|].
    specialize (Hin ltac:(lia)).
    unfold chars, read. lia.
  - intros Hlt. specialize (Hout Hlt). unfold chars, read. lia.
  - exact Hrun.
  - unfold RepoLoader.load_repository_context.
    destruct files as [|f rest]; [congruence|].
    cbv zeta. rewrite Hrun. rewrite length_app, length_fmap, length_take.
    replace (k `min` length (f :: rest)) with k by lia.
    destruct (k <? length (f :: rest))%nat; cbn [length];
      rewrite ?Nat.add_0_r, ?Nat.add_1_r; reflexivity.
Qed.

Lemma repository_context_witness :
  let files := [RepoLoader.mkFile "a.py" (Returned "hello"%string);
                RepoLoader.mkFile "b.py" (Returned "x"%string);
                RepoLoader.mkFile "c.py" (Returned "x"%string)] in
  ((0 <= 60)%Z /\ files ≠ [])
  /\ (exists k,
        k <= 3
        /\ RepoLoader.load_loop 60 (-2) 3 files [] 0
           = (RepoLoader._read_file (-2) <$> take k files)
             ++ (if (k <? 3)%nat then [RepoLoader.omitted 60 (3 - k)] else []))
  /\ RepoLoader.load_loop 60 (-2) 3 files [] 0
     = [("=== a.py ===" +:+ RepoLoader.nl +:+ "hel" +:+ RepoLoader.nl
         +:+ "... [truncated at -2 chars]" +:+ RepoLoader.nl)%string;
        (RepoLoader.nl
         +:+ "... [Remaining 2 file(s) omitted — hit 60 char limit]")%string].
Proof.
  intros files.
  assert (H1 : (0 <= 60)%Z) by lia.
  assert (H2 : files ≠ []) by discriminate.
  split; [split; [exact H1 | exact H2]|].
  split; [|vm_compute; reflexivity].
  destruct (repository_context_fits_the_limit 60 (-2) files "/repo" "[]" H1 H2)
    as (k & Hk & _ & _ & Hrun & _).
  exists k. split; [exact Hk | exact Hrun].
Defined.
